(** * sea-ondo: the KMA sea-temperature page ([streamlit_app.py])

    A shallow embedding of [parse_kma_data] and of the button handler of
    [streamlit_app.py], with the library calls they make ([str.splitlines],
    [str.strip], [pd.read_csv], [pd.to_datetime], [pd.to_numeric],
    [DataFrame.dropna], [requests.get], the [st.*] output calls) modelled as
    far as the program uses them.

    - A Python [str] is a list of Unicode code points ([N]).
    - Output calls and the HTTP request are events of a trace; exceptions are
      explicit results ([outcome]).
    - A [DataFrame] is column-major: an index and a list of named columns. *)

From Stdlib Require Import String Ascii.
From Stdlib Require Import List Bool Arith ZArith NArith Lia.
Import ListNotations.
Local Open Scope list_scope.

Set Implicit Arguments.

(** ** Python strings *)

Module Py.

Definition char := N.
Definition str := list char.

(** [u "abc"]: the [str] of an ASCII literal. *)
Definition u (s : string) : str := map N_of_ascii (list_ascii_of_string s).

Definition LF : char := 10%N.
Definition CR : char := 13%N.
Definition TAB : char := 9%N.
Definition SPACE : char := 32%N.
Definition HASH : char := 35%N.
Definition QUOTE : char := 34%N.
Definition COMMA : char := 44%N.

Definition str_eqb (a b : str) : bool :=
  if list_eq_dec N.eq_dec a b then true else false.

Definition mem_char (c : char) (l : list char) : bool := existsb (N.eqb c) l.

(** [str.isspace] of one code point ([_PyUnicode_IsWhitespace]). *)
Definition isspace (c : char) : bool :=
  ((9 <=? c) && (c <=? 13) || (28 <=? c) && (c <=? 32)
   || (8192 <=? c) && (c <=? 8202)
   || mem_char c [133; 160; 5760; 8232; 8233; 8239; 8287; 12288])%N.

(** The line boundaries of [str.splitlines] ([_PyUnicode_IsLinebreak]). *)
Definition islinebreak (c : char) : bool :=
  ((10 <=? c) && (c <=? 13) || (28 <=? c) && (c <=? 30)
   || mem_char c [133; 8232; 8233])%N.

(** [str.splitlines()]: [cur] is the line being read, reversed; [after_cr]
    says the last character was a carriage return, so that a line feed
    right after it belongs to the same boundary. A last line without a
    boundary is a line if it is not empty. *)
Fixpoint splitlines_from (cur : str) (after_cr : bool) (s : str) : list str :=
  match s with
  | [] => match cur with [] => [] | _ => [rev cur] end
  | c :: rest =>
      if after_cr && (c =? LF)%N then splitlines_from [] false rest
      else if islinebreak c then rev cur :: splitlines_from [] (c =? CR)%N rest
      else splitlines_from (c :: cur) false rest
  end.

Definition splitlines (s : str) : list str := splitlines_from [] false s.

Fixpoint lstrip (s : str) : str :=
  match s with
  | c :: rest => if isspace c then lstrip rest else s
  | [] => []
  end.

Definition rstrip (s : str) : str := rev (lstrip (rev s)).

(** [str.strip()] *)
Definition strip (s : str) : str := rstrip (lstrip s).

(** [str.startswith(prefix)] *)
Fixpoint startswith (s prefix : str) : bool :=
  match prefix, s with
  | [], _ => true
  | p :: prefix', c :: s' => (c =? p)%N && startswith s' prefix'
  | _ :: _, [] => false
  end.

(** [sep.join(parts)] *)
Fixpoint join (sep : str) (parts : list str) : str :=
  match parts with
  | [] => []
  | [p] => p
  | p :: ps => p ++ sep ++ join sep ps
  end.

(** [str(n)] of an integer. *)
Definition digit_char (d : N) : char := (48 + d)%N.

Fixpoint digits_fuel (fuel : nat) (n : N) (acc : str) : str :=
  match fuel with
  | O => acc
  | S fuel' =>
      let acc' := digit_char (n mod 10) :: acc in
      if (n <? 10)%N then acc' else digits_fuel fuel' (n / 10) acc'
  end.

Definition str_of_N (n : N) : str := digits_fuel (S (N.to_nat (N.log2 n))) n [].

Definition str_of_Z (z : Z) : str :=
  match z with
  | Zneg p => 45%N :: str_of_N (Npos p)
  | _ => str_of_N (Z.to_N z)
  end.

End Py.

Import Py.

(** ** Exceptions

    The exceptions the program can meet. [KeyboardInterrupt] stands for the
    exceptions that derive from [BaseException] only, which
    [except Exception] does not catch. *)

Inductive exn :=
| ParserError_fields (expected saw : nat)
    (* "Expected <expected> fields in line <n>, saw <saw>" *)
| ParserError_eof_in_string
    (* "EOF inside string starting at row <n>" *)
| UnicodeEncodeError
    (* the text cannot be written as UTF-8: a lone surrogate *)
| RequestException (msg : str)
| KeyError (key : str)
| KeyboardInterrupt.

Definition isinstance_Exception (e : exn) : bool :=
  match e with KeyboardInterrupt => false | _ => true end.

Definition isinstance_RequestException (e : exn) : bool :=
  match e with RequestException _ => true | _ => false end.

Inductive outcome (A : Type) :=
| Ret (a : A)
| Raise (e : exn).
Arguments Ret {A} a.
Arguments Raise {A} e.

(** ** The tokenizer of [pd.read_csv]

    pandas' C tokenizer ([tokenizer.c]: [tokenize_bytes], [end_field],
    [end_line], [parser_handle_eof]) with the options this call gives it:
    [delim_whitespace=True] (a delimiter is a space or a tab),
    the double quote as [quotechar] with [doublequote], no escape and no
    comment character,
    [skip_blank_lines], the default line terminator, and [names] of 24
    columns with [header=None]. Only the states these options reach are
    kept. *)

Module Tokenizer.

Inductive pstate :=
| START_RECORD | START_FIELD | IN_FIELD
| IN_QUOTED_FIELD | QUOTE_IN_QUOTED_FIELD
| EAT_CRNL | EAT_CRNL_NOP | EAT_WHITESPACE | WHITESPACE_LINE.

(** [word]: the field being read, reversed; [line]: the fields of the line
    being read, last first; [rows]: the finished lines, last first (their
    number is the C field [lines]). *)
Record parser_t := mk_parser {
  state : pstate;
  word : str;
  line : list str;
  rows : list (list str);
  expected_fields : nat
}.

Definition set_state (s : pstate) (p : parser_t) : parser_t :=
  mk_parser s (word p) (line p) (rows p) (expected_fields p).

Definition PUSH_CHAR (c : char) (p : parser_t) : parser_t :=
  mk_parser (state p) (c :: word p) (line p) (rows p) (expected_fields p).

Definition end_field (p : parser_t) : parser_t :=
  mk_parser (state p) [] (rev (word p) :: line p) (rows p) (expected_fields p).

(** The fields of a short line are closed as empty fields up to [ex]. *)
Definition pad_fields (ex : nat) (fields : list str) : list str :=
  fields ++ repeat [] (ex - length fields).

(** [end_line]: the first line is never too long; after it [_get_header]
    sets [expected_fields] to the larger of its width and the number of
    names. A later line with more fields is the error (on_bad_lines is
    ERROR); one with fewer is padded. *)
Definition end_line (p : parser_t) : outcome parser_t :=
  let fields := rev (line p) in
  let ex := expected_fields p in
  match rows p with
  | [] =>
      let row := pad_fields ex fields in
      Ret (mk_parser (state p) (word p) [] [row] (Nat.max (length row) ex))
  | _ :: _ =>
      if ex <? length fields
      then Raise (ParserError_fields ex (length fields))
      else Ret (mk_parser (state p) (word p) []
                  (pad_fields ex fields :: rows p) ex)
  end.

Definition END_LINE_STATE (s : pstate) (p : parser_t) : outcome parser_t :=
  match end_line p with
  | Ret p' => Ret (set_state s p')
  | Raise e => Raise e
  end.

Definition IS_WHITESPACE (c : char) : bool := ((c =? SPACE) || (c =? TAB))%N.
Definition IS_TERMINATOR (c : char) : bool := (c =? LF)%N.
Definition IS_CARRIAGE (c : char) : bool := (c =? CR)%N.
Definition IS_QUOTE (c : char) : bool := (c =? QUOTE)%N.

Definition case_START_FIELD (p : parser_t) (c : char) : outcome parser_t :=
  if IS_TERMINATOR c then END_LINE_STATE START_RECORD (end_field p)
  else if IS_CARRIAGE c then Ret (set_state EAT_CRNL (end_field p))
  else if IS_QUOTE c then Ret (set_state IN_QUOTED_FIELD p)
  else if IS_WHITESPACE c then Ret (set_state EAT_WHITESPACE p)
  else Ret (set_state IN_FIELD (PUSH_CHAR c p)).

Definition case_START_RECORD (p : parser_t) (c : char) : outcome parser_t :=
  if IS_TERMINATOR c then Ret p
  else if IS_CARRIAGE c then Ret (set_state EAT_CRNL_NOP p)
  else if IS_WHITESPACE c then Ret (set_state WHITESPACE_LINE p)
  else case_START_FIELD (set_state START_FIELD p) c.

Definition case_EAT_WHITESPACE (p : parser_t) (c : char) : outcome parser_t :=
  if IS_TERMINATOR c then END_LINE_STATE START_RECORD p
  else if IS_CARRIAGE c then Ret (set_state EAT_CRNL p)
  else if negb (IS_WHITESPACE c) then case_START_RECORD (set_state START_FIELD p) c
  else Ret p.

Definition case_WHITESPACE_LINE (p : parser_t) (c : char) : outcome parser_t :=
  if IS_TERMINATOR c then Ret (set_state START_RECORD p)
  else if IS_CARRIAGE c then Ret (set_state EAT_CRNL_NOP p)
  else case_EAT_WHITESPACE p c.

Definition case_IN_FIELD (p : parser_t) (c : char) : outcome parser_t :=
  if IS_TERMINATOR c then END_LINE_STATE START_RECORD (end_field p)
  else if IS_CARRIAGE c then Ret (set_state EAT_CRNL (end_field p))
  else if IS_WHITESPACE c then Ret (set_state EAT_WHITESPACE (end_field p))
  else Ret (PUSH_CHAR c p).

Definition case_IN_QUOTED_FIELD (p : parser_t) (c : char) : outcome parser_t :=
  if IS_QUOTE c then Ret (set_state QUOTE_IN_QUOTED_FIELD p)
  else Ret (PUSH_CHAR c p).

Definition case_QUOTE_IN_QUOTED_FIELD (p : parser_t) (c : char)
  : outcome parser_t :=
  if IS_QUOTE c then Ret (set_state IN_QUOTED_FIELD (PUSH_CHAR c p))
  else if IS_WHITESPACE c then Ret (set_state EAT_WHITESPACE (end_field p))
  else if IS_TERMINATOR c then END_LINE_STATE START_RECORD (end_field p)
  else if IS_CARRIAGE c then Ret (set_state EAT_CRNL (end_field p))
  else Ret (set_state IN_FIELD (PUSH_CHAR c p)).

(** After a carriage return the line ends; a character that is neither the
    line feed nor a delimiter is then read again as the start of a record. *)
Definition case_EAT_CRNL (p : parser_t) (c : char) : outcome parser_t :=
  if (c =? LF)%N then END_LINE_STATE START_RECORD p
  else if IS_WHITESPACE c then END_LINE_STATE EAT_WHITESPACE p
  else match END_LINE_STATE START_RECORD p with
       | Ret p' => case_START_RECORD p' c
       | Raise e => Raise e
       end.

Definition case_EAT_CRNL_NOP (p : parser_t) (c : char) : outcome parser_t :=
  let p' := set_state START_RECORD p in
  if negb (c =? LF)%N && negb (IS_WHITESPACE c) then case_START_RECORD p' c
  else Ret p'.

(** One turn of the loop of [tokenize_bytes]. *)
Definition tokenize_byte (p : parser_t) (c : char) : outcome parser_t :=
  match state p with
  | WHITESPACE_LINE => case_WHITESPACE_LINE p c
  | EAT_WHITESPACE => case_EAT_WHITESPACE p c
  | START_RECORD => case_START_RECORD p c
  | START_FIELD => case_START_FIELD p c
  | IN_FIELD => case_IN_FIELD p c
  | IN_QUOTED_FIELD => case_IN_QUOTED_FIELD p c
  | QUOTE_IN_QUOTED_FIELD => case_QUOTE_IN_QUOTED_FIELD p c
  | EAT_CRNL => case_EAT_CRNL p c
  | EAT_CRNL_NOP => case_EAT_CRNL_NOP p c
  end.

Fixpoint tokenize_bytes (p : parser_t) (buf : str) : outcome parser_t :=
  match buf with
  | [] => Ret p
  | c :: buf' =>
      match tokenize_byte p c with
      | Ret p' => tokenize_bytes p' buf'
      | Raise e => Raise e
      end
  end.

Definition parser_handle_eof (p : parser_t) : outcome parser_t :=
  match state p with
  | START_RECORD | WHITESPACE_LINE | EAT_CRNL_NOP => Ret p
  | IN_QUOTED_FIELD => Raise ParserError_eof_in_string
  | IN_FIELD | START_FIELD | QUOTE_IN_QUOTED_FIELD => end_line (end_field p)
  | EAT_WHITESPACE | EAT_CRNL => end_line p
  end.

Definition parser_new (n_names : nat) : parser_t :=
  mk_parser START_RECORD [] [] [] n_names.

(** The byte order mark at the start of the data is skipped
    ([CHECK_FOR_BOM]; U+FEFF is the three bytes it looks for). *)
Definition skip_bom (data : str) : str :=
  match data with
  | 65279%N :: rest => rest
  | _ => data
  end.

(** [tokenize_all_rows]: the rows of the text, first line first, each as
    wide as the widest of the first line and the names. *)
Definition tokenize_all_rows (n_names : nat) (data : str)
  : outcome (list (list str)) :=
  match tokenize_bytes (parser_new n_names) (skip_bom data) with
  | Raise e => Raise e
  | Ret p =>
      match parser_handle_eof p with
      | Raise e => Raise e
      | Ret p' => Ret (rev (rows p'))
      end
  end.

End Tokenizer.

(** ** Values of a table *)

(** A [float64] value. A finite value is kept as the decimal it was read
    from, [(-1)^neg * mant * 10^exp10], which names the binary64 that the
    converter rounds it to; the rounding itself is not modelled. What is
    computed from the decimal here (the integer a float is cut to, the
    test for [HUGE_VAL]) is exact for a decimal of at most 15 digits. *)
Inductive float64 :=
| FNum (neg : bool) (mant : N) (exp10 : Z)
| FInf (neg : bool)
| FNaN.

(** A [datetime64] value, to the minute. *)
Record timestamp := mk_timestamp {
  year : Z; month : Z; day : Z; hour : Z; minute : Z }.

(** A cell of a column: [int64]/[uint64], [float64], [bool], a Python
    [str] (in an [object] column) or [datetime64]. The missing value of a
    column of numbers or of objects is [NaN], that of a column of
    datetimes is [NaT]. *)
Inductive cell :=
| CInt (z : Z)
| CFloat (f : float64)
| CBool (b : bool)
| CStr (s : str)
| CTimestamp (t : timestamp)
| NaT.

Definition NaN : cell := CFloat FNaN.

(** [isna] of one value. *)
Definition isna (c : cell) : bool :=
  match c with
  | CFloat FNaN | NaT => true
  | _ => false
  end.

(** ** Reading numbers ([tokenizer.c]: [str_to_int64], [str_to_uint64],
    [precise_xstrtod]) *)

Module Numeric.

Definition isspace_ascii (c : char) : bool :=
  ((c =? 32) || (9 <=? c) && (c <=? 13))%N.

Definition isdigit_ascii (c : char) : bool := ((48 <=? c) && (c <=? 57))%N.

Definition tolower_ascii (c : char) : char :=
  if ((65 <=? c) && (c <=? 90))%N then (c + 32)%N else c.

Fixpoint skip_spaces (s : str) : str :=
  match s with
  | c :: rest => if isspace_ascii c then skip_spaces rest else s
  | [] => []
  end.

(** A run of digits: its value continuing [acc], how many there are and
    what follows. *)
Fixpoint read_digits (acc : N) (count : nat) (s : str) : N * nat * str :=
  match s with
  | c :: rest =>
      if isdigit_ascii c then read_digits (acc * 10 + (c - 48)) (S count) rest
      else (acc, count, s)
  | [] => (acc, count, [])
  end.

(** An optional sign: is it a minus, and what follows. *)
Definition read_sign (s : str) : bool * str :=
  match s with
  | 45%N :: rest => (true, rest)
  | 43%N :: rest => (false, rest)
  | _ => (false, s)
  end.

Definition INT64_MAX : Z := 9223372036854775807.
Definition INT64_MIN : Z := -9223372036854775808.
Definition UINT64_MAX : Z := 18446744073709551615.

Inductive int_result :=
| IntOk (z : Z)
| ERROR_NO_DIGITS
| ERROR_OVERFLOW
| ERROR_INVALID_CHARS.

(** [str_to_int64]: blanks, a sign, digits, blanks; the overflow is found
    while the digits are read, before what follows them is looked at. *)
Definition str_to_int64 (s : str) : int_result :=
  let '(neg, s1) := read_sign (skip_spaces s) in
  match read_digits 0 0 s1 with
  | (_, O, _) => ERROR_NO_DIGITS
  | (n, S _, s2) =>
      let z := if neg then (- Z.of_N n)%Z else Z.of_N n in
      if ((z <? INT64_MIN) || (INT64_MAX <? z))%Z then ERROR_OVERFLOW
      else match skip_spaces s2 with
           | [] => IntOk z
           | _ :: _ => ERROR_INVALID_CHARS
           end
  end.

(** [str_to_uint64]: a minus sign only records that a signed value was
    seen ([seen_sint]) and reads no further. *)
Inductive uint_result :=
| UintOk (z : Z)
| UintSigned
| UintError (overflow : bool).

Definition str_to_uint64 (s : str) : uint_result :=
  match skip_spaces s with
  | 45%N :: _ => UintSigned
  | s0 =>
      let s1 := match s0 with 43%N :: rest => rest | _ => s0 end in
      match read_digits 0 0 s1 with
      | (_, O, _) => UintError false
      | (n, S _, s2) =>
          if (UINT64_MAX <? Z.of_N n)%Z then UintError true
          else match skip_spaces s2 with
               | [] => UintOk (Z.of_N n)
               | _ :: _ => UintError false
               end
      end
  end.

(** The least value that rounds to infinity: the largest finite binary64
    and half a unit in its last place, [(2^54 - 1) * 2^970]. *)
Definition HUGE_VAL_bound : Z := (2 ^ 54 - 1) * 2 ^ 970.

(** Does the product [number * 10^exponent] come out as [HUGE_VAL]? (Up to
    the rounding of the product, which is not modelled.) *)
Definition overflows (number : N) (exponent : Z) : bool :=
  (HUGE_VAL_bound <=? Z.of_N number * 10 ^ exponent)%Z.

(** The arithmetic of a C [int], where the exponent is kept: it wraps
    around. *)
Definition wrap_int (z : Z) : Z := ((z + 2 ^ 31) mod 2 ^ 32 - 2 ^ 31)%Z.

Definition max_digits : nat := 17.

(** The digits of the integer part: the first [max_digits] make the
    number, each one after them adds one to the exponent. *)
Fixpoint read_number (number : N) (num_digits : nat) (exponent : Z) (s : str)
  : N * nat * Z * str :=
  match s with
  | c :: rest =>
      if isdigit_ascii c then
        if (num_digits <? max_digits)%nat
        then read_number (number * 10 + (c - 48)) (S num_digits) exponent rest
        else read_number number num_digits (exponent + 1) rest
      else (number, num_digits, exponent, s)
  | [] => (number, num_digits, exponent, [])
  end.

(** The digits after the point: those within [max_digits] go into the
    number and are counted, the others are passed over. *)
Fixpoint read_decimals (number : N) (num_digits num_decimals : nat) (s : str)
  : N * nat * nat * str :=
  match s with
  | c :: rest =>
      if isdigit_ascii c then
        if (num_digits <? max_digits)%nat
        then read_decimals (number * 10 + (c - 48)) (S num_digits)
               (S num_decimals) rest
        else read_decimals number num_digits num_decimals rest
      else (number, num_digits, num_decimals, s)
  | [] => (number, num_digits, num_decimals, [])
  end.

(** The digits of the exponent, at most [max_digits] of them, in [int]
    arithmetic. *)
Fixpoint read_exponent (n : Z) (num_digits : nat) (s : str) : Z * nat * str :=
  match s with
  | c :: rest =>
      if isdigit_ascii c && (num_digits <? max_digits)%nat
      then read_exponent (wrap_int (n * 10 + Z.of_N (c - 48))) (S num_digits) rest
      else (n, num_digits, s)
  | [] => (n, num_digits, [])
  end.

(** [precise_xstrtod], the converter of [read_csv] (its default
    [float_precision]) and of [to_numeric], with the decimal point ['.'],
    the exponent mark ['E'], no thousands separator and [skip_trailing]:
    blanks, a sign, digits, a point and digits, an exponent, blanks.
    [None] when there is an error ([ERANGE]: no digit, an exponent above
    308, a value that comes out as [HUGE_VAL]) or the text is not used up
    (an exponent mark without digits is not used). The value is kept as
    the decimal that was read, [number * 10^exponent]; below [10^-616] it
    is zero. *)
Definition precise_xstrtod (s : str) : option float64 :=
  let '(negative, s1) := read_sign (skip_spaces s) in
  let '(number, num_digits, exponent, s2) := read_number 0 0 0 s1 in
  let '(number, num_digits, exponent, s3) :=
    match s2 with
    | 46%N :: rest =>
        let '(n, d, num_decimals, s') := read_decimals number num_digits 0 rest in
        (n, d, (exponent - Z.of_nat num_decimals)%Z, s')
    | _ => (number, num_digits, exponent, s2)
    end in
  match num_digits with
  | O => None
  | S _ =>
      let after_exp :=
        match s3 with
        | e :: rest =>
            if (tolower_ascii e =? 101)%N then
              let '(eneg, s4) := read_sign rest in
              match read_exponent 0 0 s4 with
              | (_, O, _) => None
              | (n, S _, s5) =>
                  Some (wrap_int (if eneg then exponent - n else exponent + n)%Z,
                        s5)
              end
            else Some (exponent, s3)
        | [] => Some (exponent, s3)
        end in
      match after_exp with
      | None => None
      | Some (exponent, s6) =>
          if (308 <? exponent)%Z then None
          else if (0 <? exponent)%Z && overflows number exponent then None
          else match skip_spaces s6 with
               | [] =>
                   if (exponent <? -616)%Z then Some (FNum negative 0 0)
                   else Some (FNum negative number exponent)
               | _ :: _ => None
               end
      end
  end.

(** The names of the infinities, compared without case ([strcasecmp]). *)
Definition infinity_name (s : str) : option float64 :=
  let l := map tolower_ascii s in
  if str_eqb l (u "inf") || str_eqb l (u "+inf")
     || str_eqb l (u "infinity") || str_eqb l (u "+infinity")
  then Some (FInf false)
  else if str_eqb l (u "-inf") || str_eqb l (u "-infinity")
  then Some (FInf true)
  else None.

(** A token as a double: [precise_xstrtod], and the infinities where it
    fails. *)
Definition to_double (s : str) : option float64 :=
  match precise_xstrtod s with
  | Some f => Some f
  | None => infinity_name s
  end.

End Numeric.

(** ** Column conversion of [pd.read_csv]

    [TextReader._convert_tokens] with the default [dtype_cast_order]
    (int64, float64, bool, object) and the default missing-value texts.
    The whole column is converted at once (a response has far fewer rows
    than one [low_memory] chunk). *)

Module Reader.
Import Numeric.

(** [STR_NA_VALUES]: the tokens read as missing. *)
Definition STR_NA_VALUES : list str :=
  [] :: map u
    ["#N/A"; "#N/A N/A"; "#NA"; "-1.#IND"; "-1.#QNAN"; "-NaN"; "-nan";
     "1.#IND"; "1.#QNAN"; "<NA>"; "N/A"; "NA"; "NULL"; "NaN"; "None";
     "n/a"; "nan"; "null"]%string.

Definition true_values : list str := map u ["True"; "TRUE"; "true"]%string.
Definition false_values : list str := map u ["False"; "FALSE"; "false"]%string.

Definition is_na_token (t : str) : bool := existsb (str_eqb t) STR_NA_VALUES.

(** What one attempt at a dtype gives: the converted column with its count
    of missing values, [None] (try the next dtype), or one of the two
    errors that end the search with an [object] column. *)
Inductive attempt :=
| Converted (cells : list cell) (na_count : nat)
| NotThisDtype
| OverflowError
| ValueError.

Definition cons_cell (c : cell) (na : bool) (a : attempt) : attempt :=
  match a with
  | Converted cs n => Converted (c :: cs) (if na then S n else n)
  | other => other
  end.

(** [_try_int64]: stops at the first token that is not an integer. *)
Fixpoint _try_int64 (tokens : list str) : attempt :=
  match tokens with
  | [] => Converted [] 0
  | t :: rest =>
      if is_na_token t then cons_cell NaN true (_try_int64 rest)
      else match str_to_int64 t with
           | IntOk z => cons_cell (CInt z) false (_try_int64 rest)
           | ERROR_OVERFLOW => OverflowError
           | _ => NotThisDtype
           end
  end.

(** [_try_uint64], tried after an int64 overflow. *)
Record uint_state := mk_uint_state {
  seen_sint : bool; seen_uint : bool; seen_null : bool }.

Fixpoint _try_uint64_from (st : uint_state) (acc : list cell)
    (tokens : list str) : attempt :=
  match tokens with
  | [] =>
      if seen_uint st && (seen_sint st || seen_null st) then ValueError
      else if seen_sint st then OverflowError
      else Converted (rev acc) 0
  | t :: rest =>
      if is_na_token t
      then _try_uint64_from (mk_uint_state (seen_sint st) (seen_uint st) true)
             (CInt 0 :: acc) rest
      else match str_to_uint64 t with
           | UintSigned =>
               _try_uint64_from (mk_uint_state true (seen_uint st) (seen_null st))
                 (CInt 0 :: acc) rest
           | UintOk z =>
               _try_uint64_from
                 (mk_uint_state (seen_sint st)
                    (seen_uint st || (INT64_MAX <? z)%Z) (seen_null st))
                 (CInt z :: acc) rest
           | UintError true => OverflowError
           | UintError false => NotThisDtype
           end
  end.

Definition _try_uint64 (tokens : list str) : attempt :=
  _try_uint64_from (mk_uint_state false false false) [] tokens.

Fixpoint _try_double (tokens : list str) : attempt :=
  match tokens with
  | [] => Converted [] 0
  | t :: rest =>
      if is_na_token t then cons_cell NaN true (_try_double rest)
      else match to_double t with
           | Some f => cons_cell (CFloat f) false (_try_double rest)
           | None => NotThisDtype
           end
  end.

(** [to_boolean] of [tokenizer.c]: [TRUE] and [FALSE], compared without
    case ([strcasecmp]). *)
Definition to_boolean (t : str) : option bool :=
  if str_eqb (map tolower_ascii t) (u "true") then Some true
  else if str_eqb (map tolower_ascii t) (u "false") then Some false
  else None.

(** One token as a boolean: the true values, the false values, then
    [to_boolean]. *)
Definition bool_of_token (t : str) : option bool :=
  if existsb (str_eqb t) true_values then Some true
  else if existsb (str_eqb t) false_values then Some false
  else to_boolean t.

Fixpoint _try_bool_flex (tokens : list str) : attempt :=
  match tokens with
  | [] => Converted [] 0
  | t :: rest =>
      if is_na_token t then cons_cell NaN true (_try_bool_flex rest)
      else match bool_of_token t with
           | Some b => cons_cell (CBool b) false (_try_bool_flex rest)
           | None => NotThisDtype
           end
  end.

(** [_string_convert]: the tokens as they are, the missing ones as [NaN]
    when [na_filter] is on. *)
Definition _string_convert (na_filter : bool) (tokens : list str) : list cell :=
  map (fun t => if na_filter && is_na_token t then NaN else CStr t) tokens.

(** [_maybe_upcast] of an integer column that has missing values: it
    becomes a float column (the int64 that marks a missing value is read
    as missing too). *)
Definition upcast_int (c : cell) : cell :=
  match c with
  | CInt z => if (z =? INT64_MIN)%Z then NaN
              else CFloat (FNum (z <? 0)%Z (Z.abs_N z) 0)
  | other => other
  end.

Definition _convert_tokens (tokens : list str) : list cell :=
  let after_int :=
    match _try_double tokens with
    | Converted cs _ => cs
    | _ =>
        match _try_bool_flex tokens with
        | Converted cs _ => cs
        | _ => _string_convert true tokens
        end
    end in
  match _try_int64 tokens with
  | Converted cs O => cs
  | Converted cs (S _) => map upcast_int cs
  | OverflowError =>
      match _try_uint64 tokens with
      | Converted cs _ => cs
      | NotThisDtype => after_int
      | OverflowError => _string_convert true tokens
      | ValueError => _string_convert false tokens
      end
  | _ => after_int
  end.

End Reader.

(** ** DataFrames *)

(** A row label: the position, for the default [RangeIndex], or the values
    of the leading columns that [read_csv] takes as the index. *)
Inductive label :=
| Pos (i : nat)
| Key (k : list cell).

(** Column-major: every column of [data] is as long as [index]. *)
Record DataFrame := mk_DataFrame {
  index : list label;
  data : list (str * list cell)
}.

Module DF.

(** [pd.DataFrame()] *)
Definition new : DataFrame := mk_DataFrame [] [].

(** [df.columns] *)
Definition columns (df : DataFrame) : list str := map fst (data df).

(** [len(df)] *)
Definition nrows (df : DataFrame) : nat := length (index df).

(** [df.empty]: an axis of length 0. *)
Definition empty (df : DataFrame) : bool :=
  (length (index df) =? 0) || (length (data df) =? 0).

(** [name in df.columns] *)
Definition has_column (name : str) (df : DataFrame) : bool :=
  existsb (str_eqb name) (columns df).

Fixpoint lookup (name : str) (cols : list (str * list cell))
  : option (list cell) :=
  match cols with
  | [] => None
  | (n, col) :: rest => if str_eqb name n then Some col else lookup name rest
  end.

(** [df[name]] *)
Definition getitem (df : DataFrame) (name : str) : outcome (list cell) :=
  match lookup name (data df) with
  | Some col => Ret col
  | None => Raise (KeyError name)
  end.

(** [df[[n1, n2, ...]]]: the named columns, in the order asked. *)
Fixpoint getitem_list (df : DataFrame) (names : list str)
  : outcome (list (str * list cell)) :=
  match names with
  | [] => Ret []
  | n :: rest =>
      match getitem df n, getitem_list df rest with
      | Ret col, Ret cols => Ret ((n, col) :: cols)
      | Raise e, _ => Raise e
      | _, Raise e => Raise e
      end
  end.

Definition select (df : DataFrame) (names : list str) : outcome DataFrame :=
  match getitem_list df names with
  | Ret cols => Ret (mk_DataFrame (index df) cols)
  | Raise e => Raise e
  end.

(** [df[name] = col] for a column that is there: it keeps its place. *)
Fixpoint replace (name : str) (col : list cell)
    (cols : list (str * list cell)) : list (str * list cell) :=
  match cols with
  | [] => [(name, col)]
  | (n, c) :: rest =>
      if str_eqb name n then (n, col) :: rest
      else (n, c) :: replace name col rest
  end.

Definition setitem (df : DataFrame) (name : str) (col : list cell)
  : DataFrame :=
  mk_DataFrame (index df) (replace name col (data df)).

(** The cells of row [i], one per column. *)
Definition row (df : DataFrame) (i : nat) : list (str * cell) :=
  map (fun nc => (fst nc, nth i (snd nc) NaN)) (data df).

(** Which rows have no missing value, by position. *)
Fixpoint notna_mask (n : nat) (cols : list (list cell)) : list bool :=
  match cols with
  | [] => repeat true n
  | col :: rest =>
      map (fun p => negb (isna (fst p)) && snd p)
          (combine col (notna_mask n rest))
  end.

(** The elements of [l] whose place in [mask] is [true]. *)
Fixpoint take (A : Type) (mask : list bool) (l : list A) : list A :=
  match mask, l with
  | b :: mask', x :: l' => if b then x :: take mask' l' else take mask' l'
  | _, _ => []
  end.

(** [df.dropna()]: the rows without a missing value, labels kept. *)
Definition dropna (df : DataFrame) : DataFrame :=
  let mask := notna_mask (nrows df) (map snd (data df)) in
  mk_DataFrame (take mask (index df))
    (map (fun nc => (fst nc, take mask (snd nc))) (data df)).

(** [df.rename(columns=mapping)] *)
Definition rename (mapping : list (str * str)) (df : DataFrame) : DataFrame :=
  let new_name n :=
    match find (fun kv => str_eqb n (fst kv)) mapping with
    | Some kv => snd kv
    | None => n
    end in
  mk_DataFrame (index df) (map (fun nc => (new_name (fst nc), snd nc)) (data df)).

End DF.

(** ** [pd.read_csv(data_io, header=None, delim_whitespace=True, names=columns)]

    pandas before 3.0, where [delim_whitespace] exists. The text is handed
    to the tokenizer as UTF-8, which a lone surrogate has not (a response
    is far shorter than one chunk of the reader, so the whole text is
    encoded before a row is read). The rows of the tokenizer are as
    wide as the widest of the first line and the names; the columns beyond
    the names, counted from the left, become the index (the implicit index
    of a file with more fields than names). The converters read a field
    as a C string, up to its first NUL. *)

(** A UTF-16 surrogate, which is no character of its own. *)
Definition is_surrogate (c : char) : bool := ((55296 <=? c) && (c <=? 57343))%N.

(** A field as the C string the converters see. *)
Fixpoint c_str (word : str) : str :=
  match word with
  | [] => []
  | c :: rest => if (c =? 0)%N then [] else c :: c_str rest
  end.

Definition columns_of_rows (width : nat) (rows : list (list str))
  : list (list str) :=
  map (fun j => map (fun r => nth j r []) rows) (seq 0 width).

Definition read_csv (data_io : str) (names : list str) : outcome DataFrame :=
  if existsb is_surrogate data_io then Raise UnicodeEncodeError else
  match Tokenizer.tokenize_all_rows (length names) data_io with
  | Raise e => Raise e
  | Ret rows =>
      let width :=
        match rows with [] => length names | r :: _ => length r end in
      let leading := width - length names in
      let cols :=
        map (fun col => Reader._convert_tokens (map c_str col))
            (columns_of_rows width rows) in
      let positions := seq 0 (length rows) in
      let idx :=
        match leading with
        | O => map Pos positions
        | S _ =>
            map (fun i => Key (map (fun c => nth i c NaN) (firstn leading cols)))
                positions
        end in
      Ret (mk_DataFrame idx (combine names (skipn leading cols)))
  end.

(** ** [pd.to_datetime(col, format='%Y%m%d%H%M', errors='coerce')]

    Every value is matched as a text against the regular expression of
    the format. Two things are simpler here than in the library: the
    class [\d] holds the ASCII digits only (the library also takes the
    other decimal digits of Unicode, and versions of it read the words
    [now] and [today] as the present time), and a float is cut to an integer
    on the decimal it was read from (the library cuts the binary64,
    which is the same integer for a decimal of at most 15 digits). The
    statements on what becomes a time and what does not are made for the
    values on which this makes no difference. *)

Module Datetime.

Definition cls := char -> bool.
Definition digit : cls := Numeric.isdigit_ascii.
Definition range (a b : N) : cls := fun c => ((a <=? c) && (c <=? b))%N.
Definition chr (a : N) : cls := N.eqb a.

(** A sequence of character classes at the start of [s]: the text it
    matches and the rest. *)
Fixpoint match_seq (p : list cls) (s : str) : option (str * str) :=
  match p, s with
  | [], _ => Some ([], s)
  | k :: p', c :: s' =>
      if k c then
        match match_seq p' s' with
        | Some (m, r) => Some (c :: m, r)
        | None => None
        end
      else None
  | _ :: _, [] => None
  end.

(** A group is an alternation; its matches at the start of [s], in the
    order a backtracking matcher tries them. *)
Definition match_group (alts : list (list cls)) (s : str) : list (str * str) :=
  flat_map (fun a => match match_seq a s with Some x => [x] | None => [] end)
           alts.

Fixpoint match_groups (gs : list (list (list cls))) (s : str)
  : list (list str * str) :=
  match gs with
  | [] => [([], s)]
  | g :: gs' =>
      flat_map (fun mr : str * str =>
                  map (fun fr : list str * str => (fst mr :: fst fr, snd fr))
                      (match_groups gs' (snd mr)))
               (match_group g s)
  end.

(** The groups of [%Y], [%m], [%d], [%H], [%M] in the regular expression
    of the format. *)
Definition re_Y : list (list cls) := [[digit; digit; digit; digit]].
Definition re_m : list (list cls) :=
  [[chr 49; range 48 50]; [chr 48; range 49 57]; [range 49 57]].
Definition re_d : list (list cls) :=
  [[chr 51; range 48 49]; [range 49 50; digit]; [chr 48; range 49 57];
   [range 49 57]; [chr 32; range 49 57]].
Definition re_H : list (list cls) :=
  [[chr 50; range 48 51]; [range 48 49; digit]; [digit]].
Definition re_M : list (list cls) := [[range 48 53; digit]; [digit]].

Definition format_regex : list (list (list cls)) :=
  [re_Y; re_m; re_d; re_H; re_M].

(** [int(text)] of a matched group. *)
Definition int_of (m : str) : Z :=
  Z.of_N (fst (fst (Numeric.read_digits 0 0 (Numeric.skip_spaces m)))).

Definition is_leap (y : Z) : bool :=
  ((y mod 4 =? 0) && (negb (y mod 100 =? 0) || (y mod 400 =? 0)))%Z.

Definition days_in_month (y m : Z) : Z :=
  (if m =? 2 then (if is_leap y then 29 else 28)
   else if (m =? 4) || (m =? 6) || (m =? 9) || (m =? 11) then 30
   else 31)%Z.

(** Days from 1970-01-01 to the date. *)
Definition days_from_civil (y m d : Z) : Z :=
  (let y' := if m <=? 2 then y - 1 else y in
   let era := y' / 400 in
   let yoe := y' - era * 400 in
   let doy := (153 * (if 2 <? m then m - 3 else m + 9) + 2) / 5 + d - 1 in
   let doe := yoe * 365 + yoe / 4 - yoe / 100 + doy in
   era * 146097 + doe - 719468)%Z.

(** Nanoseconds since the epoch. *)
Definition value (t : timestamp) : Z :=
  (((days_from_civil (year t) (month t) (day t) * 24 + hour t) * 60 + minute t)
   * 60000000000)%Z.

(** A date of the calendar that [datetime64[ns]] can hold. *)
Definition valid (t : timestamp) : bool :=
  ((1 <=? year t) && (1 <=? month t) && (month t <=? 12)
   && (1 <=? day t) && (day t <=? days_in_month (year t) (month t))
   && (Numeric.INT64_MIN <? value t) && (value t <=? Numeric.INT64_MAX))%Z.

(** [array_strptime] on one text with [exact]: the first match of the
    regular expression has to use up the text and give a valid date. *)
Definition strptime (val : str) : option timestamp :=
  match match_groups format_regex val with
  | ([Y; m; d; H; M], []) :: _ =>
      let t := mk_timestamp (int_of Y) (int_of m) (int_of d)
                            (int_of H) (int_of M) in
      if valid t then Some t else None
  | _ => None
  end.

(** A finite float as the integer it is cut to ([astype] to datetime64
    and back to int64); [None] beyond int64. *)
Definition trunc_float (mant : N) (exp10 : Z) : option Z :=
  (let v := if 0 <=? exp10 then Z.of_N mant * 10 ^ exp10
            else Z.of_N mant / 10 ^ (- exp10) in
   if v <=? Numeric.INT64_MAX then Some v else None)%Z.

(** One value of the column. Integers are read by their decimal text;
    floats are cut to integers first (pandas 2); booleans and whatever
    does not match become [NaT]. *)
Definition to_datetime_cell (c : cell) : cell :=
  let of_text s :=
    match strptime s with Some t => CTimestamp t | None => NaT end in
  match c with
  | CStr s => of_text s
  | CInt z => of_text (str_of_Z z)
  | CFloat (FNum neg mant exp10) =>
      match trunc_float mant exp10 with
      | Some v => of_text (str_of_Z (if neg then - v else v))
      | None => NaT
      end
  | CFloat _ => NaT
  | CBool _ => NaT
  | CTimestamp t => CTimestamp t
  | NaT => NaT
  end.

Definition to_datetime (col : list cell) : list cell := map to_datetime_cell col.

End Datetime.

(** ** [pd.to_numeric(col, errors='coerce')]

    A column of numbers or of booleans stays as it is. In a column of
    objects a text is read as a number ([floatify]) or becomes [NaN], and
    a boolean, which stands there beside a missing value, becomes the
    float 1.0 or 0.0. Beyond that the common dtype of the result is not
    modelled: a cell keeps the kind its own text has. *)

Definition to_numeric_cell (c : cell) : cell :=
  match c with
  | CStr s =>
      match Numeric.to_double s with
      | None => NaN
      | Some f =>
          match Numeric.str_to_int64 s with
          | Numeric.IntOk z => CInt z
          | _ => CFloat f
          end
      end
  | CTimestamp t => CInt (Datetime.value t)
  | NaT => CInt Numeric.INT64_MIN
  | other => other
  end.

(** A boolean as a float. *)
Definition float_of_bool (b : bool) : cell :=
  CFloat (FNum false (if b then 1 else 0) 0).

(** One value of a column in which a missing value was seen or not. *)
Definition to_numeric_in (seen_null : bool) (c : cell) : cell :=
  match c with
  | CBool b => if seen_null then float_of_bool b else CBool b
  | other => to_numeric_cell other
  end.

Definition to_numeric (col : list cell) : list cell :=
  map (to_numeric_in (existsb isna col)) col.

(** ** The page: output, the request and exceptions

    What the script does to the outside is a trace of events, in the order
    of the calls: the [st.*] output calls and the HTTP request. A
    computation gives a result or raises, and leaves its trace. *)

Inductive message :=
| MsgParseError (e : exn)            (* parse_kma_data, line 59 *)
| MsgMissingKey                      (* line 98 *)
| MsgNoData                          (* line 154 *)
| MsgRequestFailed (status_code : Z) (* line 158 *)
| MsgNetworkError (e : exn)          (* line 162 *)
| MsgNoValidData                     (* line 151 *)
| MsgSuccess (station date : str)    (* line 137 *)
| MsgIntro.                          (* line 166 *)

Inductive heading := ChartHeading | TableHeading.

Inductive event :=
| st_error (m : message)
| st_warning (m : message)
| st_success (m : message)
| st_info (m : message)
| st_code (body : str)
| st_spinner
| st_subheader (h : heading)
| st_line_chart (series : list (label * cell))
| st_dataframe (df : DataFrame)
| requests_get (url : str).

Definition M (A : Type) : Type := (outcome A * list event)%type.

Definition ret (A : Type) (a : A) : M A := (Ret a, []).

Definition bind (A B : Type) (m : M A) (f : A -> M B) : M B :=
  match m with
  | (Ret a, t) => let (r, t') := f a in (r, t ++ t')
  | (Raise e, t) => (Raise e, t)
  end.

Definition emit (e : event) : M unit := (Ret tt, [e]).

Definition lift (A : Type) (o : outcome A) : M A := (o, []).

(** [try: m except <class> as e: handler e] *)
Definition try_except (A : Type) (m : M A) (class : exn -> bool)
    (handler : exn -> M A) : M A :=
  match m with
  | (Raise e, t) =>
      if class e then let (r, t') := handler e in (r, t ++ t')
      else (Raise e, t)
  | ok => ok
  end.

Notation "x <- m ;; k" := (bind m (fun x => k))
  (at level 61, m at next level, right associativity).
Notation "m ;;; k" := (bind m (fun _ => k))
  (at level 61, right associativity).

(** ** [parse_kma_data] (lines 29-60) *)

Definition columns : list str :=
  map u ["TM"; "STN"; "WD"; "WS"; "GST_WD"; "GST_WS"; "PA"; "PS";
         "PT"; "TA"; "TD"; "HM"; "PV"; "RN"; "R15"; "R60";
         "R12"; "R24"; "WC"; "WH"; "WP"; "WVE"; "WVL"; "TW"]%string.

(** [not line.strip().startswith('#')] *)
Definition is_data_line (line : str) : bool :=
  negb (startswith (strip line) [HASH]).

Definition parse_kma_data (text_data : str) : M DataFrame :=
  let lines := filter is_data_line (splitlines text_data) in
  match lines with
  | [] => ret DF.new
  | _ :: _ =>
      let data_io := join [LF] lines in
      try_except (lift (read_csv data_io columns))
        isinstance_Exception
        (fun e => emit (st_error (MsgParseError e)) ;;; ret DF.new)
  end.

(** ** The query (lines 9-26 and 96-166) *)

Definition STATION_INFO : list (str * str) :=
  [(u "22101", [45909; 51201; 46020]); (u "22102", [52832; 48156; 46020]);
   (u "22103", [44144; 47928; 46020]); (u "22104", [44144; 51228; 46020]);
   (u "22105", [46041; 54644]);        (u "22106", [50872; 47497; 46020]);
   (u "22107", [54252; 54637]);        (u "22108", [47560; 46972; 46020]);
   (u "22183", [50808; 50672; 46020]); (u "22184", [50872; 49328]);
   (u "22185", [51064; 52380]);        (u "22186", [49888; 50504]);
   (u "22187", [49436; 44480; 54252]); (u "22188", [52628; 51088; 46020]);
   (u "22189", [53685; 50689]);        (u "22190", [50872; 51652])]%N.

(** [STATION_INFO[station_id]] *)
Definition station_name (station_id : str) : outcome str :=
  match find (fun kv => str_eqb station_id (fst kv)) STATION_INFO with
  | Some kv => Ret (snd kv)
  | None => Raise (KeyError station_id)
  end.

(** [list(STATION_INFO.keys())], the options of the station selector
    (line 85). *)
Definition options : list str := map fst STATION_INFO.

(** The [format_func] of the selector (line 86): the name, and the code in
    brackets. *)
Definition format_func (x : str) : outcome str :=
  match station_name x with
  | Ret name => Ret (name ++ u " (" ++ x ++ u ")")
  | Raise e => Raise e
  end.

(** A [datetime.date] (the year has four digits). *)
Record date := mk_date { date_year : Z; date_month : Z; date_day : Z }.

Definition two_digits (n : Z) : str :=
  (if (n <? 10)%Z then [48%N] else []) ++ str_of_Z n.

(** [strftime('%Y%m%d')] *)
Definition strftime_Ymd (d : date) : str :=
  str_of_Z (date_year d) ++ two_digits (date_month d) ++ two_digits (date_day d).

(** [strftime] with the year, month and day each followed by its Korean
    unit word. *)
Definition strftime_long (d : date) : str :=
  str_of_Z (date_year d) ++ [45380; 32]%N
  ++ two_digits (date_month d) ++ [50900; 32]%N
  ++ two_digits (date_day d) ++ [51068]%N.

(** A [requests.Response]: [text] depends on the encoding the response
    is read with, the one [requests] finds or the one the caller sets. *)
Inductive encoding := apparent_encoding | euc_kr.

Record Response := mk_Response {
  status_code : Z;
  text : encoding -> str
}.

Definition request_url (selected_date : date) (station_id auth_key : str) : str :=
  u "https://apihub.kma.go.kr/api/typ01/url/sea_obs_h.php?"
  ++ u "tm=" ++ strftime_Ymd selected_date ++ u "&"
  ++ u "stn=" ++ station_id ++ u "&"
  ++ u "help=0&"
  ++ u "authKey=" ++ auth_key.

Definition TM : str := u "TM".
Definition TW : str := u "TW".

(** Lines 126-134: the two columns, converted, without the rows that have
    a missing value. *)
Definition project (df : DataFrame) : M DataFrame :=
  result_df <- lift (DF.select df [TM; TW]) ;;
  tm <- lift (DF.getitem result_df TM) ;;
  let result_df := DF.setitem result_df TM (Datetime.to_datetime tm) in
  tw <- lift (DF.getitem result_df TW) ;;
  let result_df := DF.setitem result_df TW (to_numeric tw) in
  ret (DF.dropna result_df).

(** Lines 137-148: the chart (the [TW] column over the [TM] column as
    index) and the table with its Korean headers. *)
Definition show_result (station_id : str) (selected_date : date)
    (result_df : DataFrame) : M unit :=
  name <- lift (station_name station_id) ;;
  emit (st_success (MsgSuccess name (strftime_long selected_date))) ;;;
  emit (st_subheader ChartHeading) ;;;
  tm <- lift (DF.getitem result_df TM) ;;
  tw <- lift (DF.getitem result_df TW) ;;
  emit (st_line_chart (combine (map (fun c => Key [c]) tm) tw)) ;;;
  emit (st_subheader TableHeading) ;;;
  emit (st_dataframe
          (DF.rename [(TM, [44288; 52769; 32; 49884; 44036]%N);
                      (TW, [49688; 50728; 32; 40; 176; 67; 41]%N)]
                     result_df)).

(** Lines 116-159: what is done with the response. *)
Definition handle_response (station_id : str) (selected_date : date)
    (response : Response) : M unit :=
  if (status_code response =? 200)%Z then
    let data_text := text response euc_kr in
    df <- parse_kma_data data_text ;;
    if negb (DF.empty df) && DF.has_column TW df && DF.has_column TM df then
      result_df <- project df ;;
      if negb (DF.empty result_df)
      then show_result station_id selected_date result_df
      else emit (st_warning MsgNoValidData)
    else
      emit (st_error MsgNoData) ;;;
      emit (st_code data_text)
  else
    emit (st_error (MsgRequestFailed (status_code response))) ;;;
    emit (st_code (text response apparent_encoding)).

(** Lines 96-162: the button was pressed. [requests_get] is the network:
    what [requests.get(url, timeout=10)] answers or raises. *)
Definition query (requests_get_ : str -> outcome Response)
    (auth_key station_id : str) (selected_date : date) : M unit :=
  match auth_key with
  | [] => emit (st_error MsgMissingKey)
  | _ :: _ =>
      emit st_spinner ;;;
      let url := request_url selected_date station_id auth_key in
      try_except
        (emit (requests_get url) ;;;
         response <- lift (requests_get_ url) ;;
         handle_response station_id selected_date response)
        isinstance_RequestException
        (fun e => emit (st_error (MsgNetworkError e)))
  end.

(** Lines 96-166: one run of the script below the sidebar. *)
Definition page (requests_get_ : str -> outcome Response) (button : bool)
    (auth_key station_id : str) (selected_date : date) : M unit :=
  if button then query requests_get_ auth_key station_id selected_date
  else emit (st_info MsgIntro).

(** The events that draw the chart or the table. *)
Definition is_render (e : event) : bool :=
  match e with
  | st_line_chart _ | st_dataframe _ => true
  | _ => false
  end.

Definition is_request (e : event) : bool :=
  match e with requests_get _ => true | _ => false end.

(** ** Notions the statements use *)

(** A comment line: its first character that is not white space is [#]. *)
Definition comment_line (line : str) : Prop :=
  exists ws rest, line = ws ++ HASH :: rest /\ forallb isspace ws = true.

(** The fields of one line: the runs of characters between spaces and
    tabs. [w] is the run being read, reversed. *)
Fixpoint ws_fields_from (w : option str) (s : str) : list str :=
  match s with
  | [] => match w with Some w' => [rev w'] | None => [] end
  | c :: s' =>
      if Tokenizer.IS_WHITESPACE c then
        match w with
        | Some w' => rev w' :: ws_fields_from None s'
        | None => ws_fields_from None s'
        end
      else
        ws_fields_from (Some (c :: match w with Some w' => w' | None => [] end)) s'
  end.

Definition ws_fields (line : str) : list str := ws_fields_from None line.

(** A line of spaces and tabs only, which the reader skips. *)
Definition blank (line : str) : bool := forallb Tokenizer.IS_WHITESPACE line.

(** The rows of a sequence of records, as [end_line] makes them: the first
    record sets the width, with the number of names as its least value;
    a later record that is wider is the error, a narrower one is padded. *)
Fixpoint later_rows (ex : nat) (records : list (list str))
  : outcome (list (list str)) :=
  match records with
  | [] => Ret []
  | r :: rest =>
      if ex <? length r then Raise (ParserError_fields ex (length r))
      else match later_rows ex rest with
           | Ret rows => Ret (Tokenizer.pad_fields ex r :: rows)
           | Raise e => Raise e
           end
  end.

Definition rows_of_records (n_names : nat) (records : list (list str))
  : outcome (list (list str)) :=
  match records with
  | [] => Ret []
  | r :: rest =>
      let row := Tokenizer.pad_fields n_names r in
      match later_rows (Nat.max (length row) n_names) rest with
      | Ret rows => Ret (row :: rows)
      | Raise e => Raise e
      end
  end.

(** The characters the line-by-line reading of a text is stated for: no
    double quote (a quoted field can run over spaces and line ends) and no
    byte order mark. *)
Definition plain_char (c : char) : bool :=
  negb (c =? QUOTE)%N && negb (c =? 65279)%N.

(** A text that can be encoded for the reader: it holds no surrogate
    (a decoded response holds none). *)
Definition encodable (s : str) : bool := negb (existsb is_surrogate s).

(** The kinds of value [read_csv] gives: no datetime. *)
Definition raw_cell (c : cell) : bool :=
  match c with
  | CInt _ | CFloat _ | CBool _ | CStr _ => true
  | CTimestamp _ | NaT => false
  end.

(** A text cell. *)
Definition is_text (c : cell) : bool :=
  match c with CStr _ => true | _ => false end.

(** A number that is there: an integer, or a float that is not [NaN] (an
    infinity is one). A boolean is none. *)
Definition is_number (c : cell) : bool :=
  match c with
  | CInt _ => true
  | CFloat FNaN => false
  | CFloat _ => true
  | _ => false
  end.

(** A finite number. *)
Definition is_finite (c : cell) : bool :=
  match c with
  | CInt _ | CFloat (FNum _ _ _) => true
  | _ => false
  end.

(** A boolean, which a column of [True] and [False] holds. *)
Definition is_boolean (c : cell) : bool :=
  match c with CBool _ => true | _ => false end.

(** A valid timestamp. *)
Definition is_timestamp (c : cell) : bool :=
  match c with
  | CTimestamp t => Datetime.valid t
  | _ => false
  end.

(** The rows of the two columns side by side, with their labels. *)
Definition rows_TM_TW (idx : list label) (tm tw : list cell)
  : list (label * (cell * cell)) :=
  combine idx (combine tm tw).

Definition both_notna (r : label * (cell * cell)) : bool :=
  negb (isna (fst (snd r))) && negb (isna (snd (snd r))).

(** ** Sample responses *)

Module Sample.

(** The 22 fields between the time and the water temperature. *)
Definition middle : list str :=
  map u ["22101"; "270"; "3.1"; "280"; "4.5"; "1013.2"; "1015.0"; "0.1";
         "5.2"; "1.0"; "75"; "6.5"; "0"; "0"; "0"; "0"; "0"; "1"; "0.5";
         "4.2"; "0.4"; "0.3"]%string.

(** The 24 fields of an observation. *)
Definition fields (tm tw : string) : list str := u tm :: middle ++ [u tw].

Definition line (tm tw : string) : str := join [SPACE] (fields tm tw).

(** A header and one observation. *)
Definition one_row : str :=
  u "#header" ++ [LF] ++ line "202401010000" "15.2" ++ [LF].

(** Two lines of comment. *)
Definition comments : str := u "#START7777" ++ [LF] ++ u "  # TM STN" ++ [LF].

(** The same observation with commas between the fields. *)
Definition with_commas : str := join [COMMA] (fields "202401010000" "15.2").

Definition with_spaces : str := join [SPACE] (fields "202401010000" "15.2").

Definition with_tabs : str := join [TAB] (fields "202401010000" "15.2").

(** An observation whose water temperature is the mark [-]. *)
Definition with_dash : str :=
  line "202401010000" "15.2" ++ [LF] ++ line "202401010100" "-" ++ [LF].

(** An observation whose water temperature is [inf]. *)
Definition with_inf : str := line "202401010000" "inf" ++ [LF].

(** An observation whose water temperature is the word [True]. *)
Definition with_true : str := line "202401010000" "True" ++ [LF].

(** An observation of 23 fields: the water temperature is not there. *)
Definition short_row : str := join [SPACE] (u "202401010000" :: middle) ++ [LF].

(** A second observation with a field too many. *)
Definition long_row : str :=
  line "202401010000" "15.2" ++ [LF]
  ++ line "202401010100" "15.3" ++ u " 99" ++ [LF].

(** An observation with a field too many, on the first data line. *)
Definition long_first : str :=
  line "202401010000" "15.2" ++ u " 99" ++ [LF].

Definition key : str := u "secret".
Definition station : str := u "22101".
Definition day : date := mk_date 2024 1 1.

(** A network that answers every request with the same response. *)
Definition answers (status : Z) (body : str) : str -> outcome Response :=
  fun _ => Ret (mk_Response status (fun _ => body)).

(** The same observation after a comment line, with runs of spaces and
    tabs around its fields, and before a blank line. *)
Definition with_runs : str :=
  u "# TM STN" ++ [LF] ++ [SPACE; SPACE]
  ++ join [SPACE; TAB; SPACE] (fields "202401010000" "15.2")
  ++ [TAB; LF] ++ [SPACE; LF].

End Sample.

(** ** Notions the proofs use *)

Import Tokenizer.
Import Reader.

(** All finished rows are as wide as [expected_fields], which is at least
    the number of names. *)
Definition rect (n : nat) (p : parser_t) : Prop :=
  n <= expected_fields p /\
  Forall (fun r => length r = expected_fields p) (rows p).

(** A converted column: [k] values of the kinds [read_csv] gives. *)
Definition good_attempt (k : nat) (a : attempt) : Prop :=
  match a with
  | Converted cs _ =>
      length cs = k /\ Forall (fun c => raw_cell c = true) cs
  | _ => True
  end.

(** A column of a frame: as long as the frame, and of values [read_csv]
    gives. *)
Definition column_ok (n : nat) (nc : str * list cell) : Prop :=
  length (snd nc) = n /\ Forall (fun c => raw_cell c = true) (snd nc).

(** The characters of a line that holds no line end and no double quote. *)
Definition line_char (c : char) : bool :=
  negb (c =? LF)%N && negb (c =? CR)%N && negb (c =? QUOTE)%N.

(** The fields a parser has read of the line it is in. *)
Definition pending (p : parser_t) : list str :=
  rev (line p) ++ match state p with IN_FIELD => [rev (word p)] | _ => [] end.

(** In a line, after a field has begun. *)
Definition in_line (p : parser_t) : Prop :=
  state p = IN_FIELD \/ (state p = EAT_WHITESPACE /\ word p = []).

(** [end_line] on the rows and the width alone. *)
Definition push_row (rws : list (list str)) (ex : nat) (fields : list str)
  : outcome (list (list str) * nat) :=
  match rws with
  | [] => let row := pad_fields ex fields in
          Ret ([row], Nat.max (length row) ex)
  | _ :: _ =>
      if ex <? length fields then Raise (ParserError_fields ex (length fields))
      else Ret (pad_fields ex fields :: rws, ex)
  end.

(** The rows after a sequence of records, last first. *)
Fixpoint feed (rws : list (list str)) (ex : nat) (records : list (list str))
  : outcome (list (list str)) :=
  match records with
  | [] => Ret rws
  | r :: rest =>
      match push_row rws ex r with
      | Ret (rws', ex') => feed rws' ex' rest
      | Raise e => Raise e
      end
  end.

(** A record with a field in it. *)
Definition nonempty (A : Type) (l : list A) : bool :=
  match l with [] => false | _ :: _ => true end.

(** The rest of a line, from inside it. *)
Definition line_run (p : parser_t) (s : str) (fields : list str) : Prop :=
  exists p', tokenize_bytes p s = Ret p'
    /\ rows p' = rows p /\ expected_fields p' = expected_fields p
    /\ in_line p' /\ pending p' = fields.

(** The parser before a record. *)
Definition before_record (rws : list (list str)) (ex : nat) : parser_t :=
  mk_parser START_RECORD [] [] rws ex.

(** The rows at the end of the data. *)
Definition finish (o : outcome parser_t) : outcome (list (list str)) :=
  match o with
  | Ret p => match parser_handle_eof p with
             | Ret p' => Ret (rows p')
             | Raise e => Raise e
             end
  | Raise e => Raise e
  end.

(** The table a text parses to. *)
Definition parsed (text_data : str) : DataFrame :=
  match fst (parse_kma_data text_data) with
  | Ret df => df
  | Raise _ => DF.new
  end.

(** The table the page projects a parsed table to. *)
Definition projected (df : DataFrame) : DataFrame :=
  match fst (project df) with
  | Ret r => r
  | Raise _ => DF.new
  end.

(** The events of a successful query (lines 137-148), for the table
    [result_df] of the two columns. *)
Definition success_events (name : str) (selected_date : date)
    (result_df : DataFrame) (tm tw : list cell) : list event :=
  [st_success (MsgSuccess name (strftime_long selected_date));
   st_subheader ChartHeading;
   st_line_chart (combine (map (fun c => Key [c]) tm) tw);
   st_subheader TableHeading;
   st_dataframe
     (mk_DataFrame (index result_df)
        [([44288; 52769; 32; 49884; 44036]%N, tm);
         ([49688; 50728; 32; 40; 176; 67; 41]%N, tw)])].

(** A positive integer in decimal: digits, the first of them not [0]. *)
Definition decimal (s : str) : bool :=
  match s with
  | c :: _ => negb (c =? 48)%N && forallb Numeric.isdigit_ascii s
  | [] => false
  end.

(** The number a text of digits stands for. *)
Definition number (s : str) : N := fst (fst (Numeric.read_digits 0 0 s)).

(** The cells a token can be read to, by the dtype its column gets:
    [int64] (upcast to [float64] beside missing values), [uint64],
    [float64], [bool] or [object]. *)
Definition cells_of_token (t : str) : list cell :=
  if is_na_token t then [NaN; CStr t]
  else
    match Numeric.str_to_int64 t with
    | Numeric.IntOk z => [CInt z; upcast_int (CInt z)]
    | _ => []
    end
    ++ match Numeric.str_to_uint64 t with
       | Numeric.UintOk z => [CInt z]
       | _ => []
       end
    ++ match Numeric.to_double t with Some f => [CFloat f] | None => [] end
    ++ match bool_of_token t with Some b => [CBool b] | None => [] end
    ++ [CStr t].

(** A cell of a column is one its token can be read to. *)
Definition reads (t : str) (c : cell) : Prop := In c (cells_of_token t).

(** The tokens of the time and of the water temperature on a data line of
    at most 24 fields: the first and the 24th. *)
Definition tm_token (line : str) : str := nth 0 (ws_fields line) [].
Definition tw_token (line : str) : str := nth 23 (ws_fields line) [].

(** The twelve digits [YYYYMMDDHHMM] of a time, as a response writes the
    time of an observation. *)
Definition stamp (t : timestamp) : str :=
  str_of_Z (year t) ++ two_digits (month t) ++ two_digits (day t)
  ++ two_digits (hour t) ++ two_digits (minute t).

(** A year of four digits: its text, checked against its value. *)
Definition year_text_ok (y : Z) : bool :=
  match str_of_Z y with
  | [a; b; c; d] =>
      forallb Numeric.isdigit_ascii [a; b; c; d] && negb (a =? 48)%N
      && (Datetime.int_of [a; b; c; d] =? y)%Z
  | _ => false
  end.

(** A date whose year has four digits (the selector offers the ten years
    around the present day). *)
Definition four_digit_year (d : date) : bool :=
  ((1000 <=? date_year d) && (date_year d <=? 9999)
   && (1 <=? date_month d) && (date_month d <=? 12)
   && (1 <=? date_day d) && (date_day d <=? 31))%Z.

(** A field of two digits at the start of a text is what its group
    matches first. *)
Definition two_digit_field (g : list (list Datetime.cls)) (n : Z) : Prop :=
  forallb Numeric.isdigit_ascii (two_digits n) = true
  /\ length (two_digits n) = 2
  /\ Datetime.int_of (two_digits n) = n
  /\ forall rest, exists others,
       Datetime.match_group g (two_digits n ++ rest)
       = (two_digits n, rest) :: others.

(** The characters of a decimal text: digits, the minus sign and the
    point. *)
Definition numeric_char (c : char) : bool :=
  Numeric.isdigit_ascii c || (c =? 45)%N || (c =? 46)%N.

(** ** What the claims on the conversions are stated with *)

(** A time of the calendar as an observation has it: a year of four
    digits, an hour and a minute of the clock. *)
Definition clock_time (t : timestamp) : bool :=
  (Datetime.valid t && (1000 <=? year t) && (year t <=? 9999)
   && (0 <=? hour t) && (hour t <=? 23)
   && (0 <=? minute t) && (minute t <=? 59))%Z.

(** The stamp of a time as a cell: the integer (in a column of
    integers) or the text (in a column with a field that is no number). *)
Definition stamp_cell (t : timestamp) (c : cell) : Prop :=
  c = CInt (Z.of_N (number (stamp t))) \/ c = CStr (stamp t).

(** The text of a decimal number: a minus sign or none, the digits
    before the point, and the point with the digits after it, or none. *)
Definition fraction_text (frac : str) : str :=
  match frac with [] => [] | _ :: _ => 46%N :: frac end.

Definition decimal_text (neg : bool) (whole frac : str) : str :=
  (if neg then [45%N] else []) ++ whole ++ fraction_text frac.

(** The digits of such a text: at least one before the point, at most 15
    in all. *)
Definition short_digits (whole frac : str) : bool :=
  forallb Numeric.isdigit_ascii whole && forallb Numeric.isdigit_ascii frac
  && (1 <=? length whole) && (length whole + length frac <=? 15).

Definition signed (neg : bool) (n : N) : Z :=
  if neg then (- Z.of_N n)%Z else Z.of_N n.

(** A finite number times [10^k], when that is an integer: the value of
    a cell whatever its dtype. *)
Definition scaled (k : nat) (c : cell) : option Z :=
  match c with
  | CInt z => Some (z * 10 ^ Z.of_nat k)%Z
  | CFloat (FNum neg mant e) =>
      if (0 <=? e + Z.of_nat k)%Z
      then Some (signed neg mant * 10 ^ (e + Z.of_nat k))%Z
      else None
  | _ => None
  end.

(** The words for an infinity and for a boolean, in small letters. *)
Definition words : list str :=
  map u ["inf"; "+inf"; "-inf"; "infinity"; "+infinity"; "-infinity";
         "true"; "false"]%string.

(** A text that begins as a number does: with a digit, or with a point
    before a digit. *)
Definition starts_number (s : str) : bool :=
  match s with
  | c :: rest =>
      Numeric.isdigit_ascii c
      || (c =? 46)%N
         && match rest with
            | d :: _ => Numeric.isdigit_ascii d
            | [] => false
            end
  | [] => false
  end.

(** A field that reads as no number and as no boolean: after blanks and
    a sign it does not begin as a number does, and it is none of the
    words, in whatever case its letters are. *)
Definition unreadable (t : str) : bool :=
  negb (starts_number (snd (Numeric.read_sign (Numeric.skip_spaces t))))
  && negb (existsb (str_eqb (map Numeric.tolower_ascii t)) words).

(** A text of ASCII characters that are no letters. *)
Definition is_letter (c : char) : bool :=
  ((65 <=? c) && (c <=? 90) || (97 <=? c) && (c <=? 122))%N.

Definition no_letters (s : str) : bool :=
  forallb (fun c => (c <? 128)%N && negb (is_letter c)) s.

(** A cell that is no time: a missing value, a boolean, or a text of
    ASCII characters without letters that does not begin with the four
    digits of a year (like the mark [-]). *)
Definition no_time (c : cell) : bool :=
  match c with
  | CFloat FNaN | CBool _ => true
  | CStr s =>
      no_letters s
      && negb (match s with
               | a :: b :: c :: d :: _ =>
                   forallb Numeric.isdigit_ascii [a; b; c; d]
               | _ => false
               end)
  | _ => false
  end.

(** A cell that is no number: a missing value, or a text that reads as
    none. *)
Definition no_number (c : cell) : bool :=
  match c with
  | CFloat FNaN => true
  | CStr s => unreadable s
  | _ => false
  end.

(** The conversion of a cell [c] of the time column to [c'], as the
    claim has it: [c'] is a valid timestamp or the missing value; the
    stamp of a time becomes that time; what is no time becomes the
    missing value. *)
Definition time_converted (c c' : cell) : Prop :=
  (is_timestamp c' = true \/ c' = NaT)
  /\ (forall t, clock_time t = true -> stamp_cell t c -> c' = CTimestamp t)
  /\ (no_time c = true -> c' = NaT).

(** The conversion of a cell [c] of the water temperature to [c']: [c']
    is a number, a boolean or the missing value; a number stays as it
    is; the text of a decimal number becomes that number; what is no
    number becomes the missing value. *)
Definition number_converted (c c' : cell) : Prop :=
  (is_number c' = true \/ is_boolean c' = true \/ c' = NaN)
  /\ (is_number c = true -> c' = c)
  /\ (forall neg whole frac,
        short_digits whole frac = true ->
        c = CStr (decimal_text neg whole frac) ->
        is_finite c' = true
        /\ scaled (length frac) c'
           = Some (signed neg (number (whole ++ frac))))
  /\ (no_number c = true -> c' = NaN).

(** * Theorems *)

(** ** Strings *)

Lemma str_eqb_eq a b : str_eqb a b = true <-> a = b.
Proof. unfold str_eqb. destruct (list_eq_dec N.eq_dec a b); split; congruence. Qed.

(** * Proofs *)

(** ** Python strings *)

Lemma lstrip_app_nonspace ws c rest :
  forallb isspace ws = true -> isspace c = false ->
  lstrip (ws ++ c :: rest) = c :: rest.
Proof.
  induction ws as [|w ws IH]; simpl; intros Hws Hc.
  - now rewrite Hc.
  - apply andb_prop in Hws as [Hw Hws]. rewrite Hw. now apply IH.
Qed.

Lemma lstrip_keeps_last l c :
  isspace c = false -> exists l', lstrip (l ++ [c]) = l' ++ [c].
Proof.
  intros Hc. induction l as [|x l IH]; simpl.
  - rewrite Hc. now exists [].
  - destruct (isspace x).
    + exact IH.
    + now exists (x :: l).
Qed.

Lemma strip_comment_line line :
  comment_line line -> startswith (strip line) [HASH] = true.
Proof.
  intros (ws & rest & -> & Hws).
  unfold strip. rewrite lstrip_app_nonspace by (assumption || reflexivity).
  unfold rstrip. simpl rev.
  destruct (lstrip_keeps_last (rev rest) HASH eq_refl) as [l' Hl'].
  rewrite Hl', rev_app_distr. simpl. now destruct (rev l').
Qed.

Lemma comment_line_not_data line :
  comment_line line -> is_data_line line = false.
Proof.
  intros H. unfold is_data_line. now rewrite strip_comment_line.
Qed.

Lemma filter_none (A : Type) (f : A -> bool) (l : list A) :
  Forall (fun x => f x = false) l -> filter f l = [].
Proof.
  induction 1 as [|x l Hx _ IH]; simpl; [reflexivity|]. now rewrite Hx.
Qed.

(** ** C6 *)

(** C6. A text that is empty or whose lines are all comment lines (the
    first character that is not white space is [#]) parses to the empty
    table, and nothing is reported: the trace is empty. *)
Theorem parse_comments_only (text_data : str) :
  Forall comment_line (splitlines text_data) ->
  parse_kma_data text_data = (Ret DF.new, []) /\ DF.empty DF.new = true.
Proof.
  intros H. split; [|reflexivity].
  unfold parse_kma_data.
  rewrite filter_none; [reflexivity|].
  eapply Forall_impl; [|exact H]. apply comment_line_not_data.
Qed.

(** ** What [read_csv] can raise *)

Lemma end_line_raises p e :
  end_line p = Raise e -> isinstance_Exception e = true.
Proof.
  unfold end_line. destruct (rows p); [discriminate|].
  destruct (_ <? _); [|discriminate]. now intros [= <-].
Qed.

Lemma END_LINE_STATE_raises s p e :
  END_LINE_STATE s p = Raise e -> isinstance_Exception e = true.
Proof.
  unfold END_LINE_STATE. destruct (end_line p) eqn:E; [discriminate|].
  intros [= <-]. eapply end_line_raises; eassumption.
Qed.

Ltac raise_cases :=
  repeat match goal with
  | |- (if ?b then _ else _) = Raise _ -> _ => destruct b
  | |- Ret _ = Raise _ -> _ => discriminate
  | |- END_LINE_STATE _ _ = Raise _ -> _ => apply END_LINE_STATE_raises
  end.

Lemma case_START_FIELD_raises p c e :
  case_START_FIELD p c = Raise e -> isinstance_Exception e = true.
Proof. unfold case_START_FIELD. raise_cases. Qed.

Lemma case_START_RECORD_raises p c e :
  case_START_RECORD p c = Raise e -> isinstance_Exception e = true.
Proof.
  unfold case_START_RECORD. raise_cases. apply case_START_FIELD_raises.
Qed.

Lemma tokenize_byte_raises p c e :
  tokenize_byte p c = Raise e -> isinstance_Exception e = true.
Proof.
  unfold tokenize_byte.
  destruct (state p);
    unfold case_WHITESPACE_LINE, case_EAT_WHITESPACE, case_IN_FIELD,
      case_IN_QUOTED_FIELD, case_QUOTE_IN_QUOTED_FIELD, case_EAT_CRNL,
      case_EAT_CRNL_NOP;
    raise_cases;
    try apply case_START_RECORD_raises; try apply case_START_FIELD_raises.
  destruct (END_LINE_STATE START_RECORD p) eqn:E.
  - apply case_START_RECORD_raises.
  - intros [= <-]. eapply END_LINE_STATE_raises; eassumption.
Qed.

Lemma tokenize_bytes_raises buf : forall p e,
  tokenize_bytes p buf = Raise e -> isinstance_Exception e = true.
Proof.
  induction buf as [|c buf IH]; simpl; intros p e; [discriminate|].
  destruct (tokenize_byte p c) eqn:E.
  - apply IH.
  - intros [= <-]. eapply tokenize_byte_raises; eassumption.
Qed.

Lemma parser_handle_eof_raises p e :
  parser_handle_eof p = Raise e -> isinstance_Exception e = true.
Proof.
  unfold parser_handle_eof.
  destruct (state p); try discriminate; try apply end_line_raises.
  now intros [= <-].
Qed.

Lemma tokenize_all_rows_raises n data e :
  tokenize_all_rows n data = Raise e -> isinstance_Exception e = true.
Proof.
  unfold tokenize_all_rows.
  destruct (tokenize_bytes _ _) eqn:E1.
  - destruct (parser_handle_eof a) eqn:E2; [discriminate|].
    intros [= <-]. eapply parser_handle_eof_raises; eassumption.
  - intros [= <-]. eapply tokenize_bytes_raises; eassumption.
Qed.

Lemma read_csv_raises data names e :
  read_csv data names = Raise e -> isinstance_Exception e = true.
Proof.
  unfold read_csv. destruct (existsb is_surrogate data); [now intros [= <-]|].
  destruct (tokenize_all_rows _ _) eqn:E; [discriminate|].
  intros [= <-]. eapply tokenize_all_rows_raises; eassumption.
Qed.

(** What [parse_kma_data] does with the outcome of the read. *)
Lemma parse_kma_data_read text_data l ls :
  filter is_data_line (splitlines text_data) = l :: ls ->
  parse_kma_data text_data =
    match read_csv (join [LF] (l :: ls)) columns with
    | Ret df => (Ret df, [])
    | Raise e => (Ret DF.new, [st_error (MsgParseError e)])
    end.
Proof.
  intros H. unfold parse_kma_data. rewrite H.
  destruct (read_csv _ _) eqn:E; [reflexivity|].
  unfold try_except, lift. now rewrite (read_csv_raises _ _ E).
Qed.

(** ** C10 *)

(** C10. [parse_kma_data] always returns a table and never raises: where
    the read of the data lines raises, the error is reported and the empty
    table is returned. *)
Theorem parse_kma_data_total (text_data : str) :
  exists df trace,
    parse_kma_data text_data = (Ret df, trace) /\
    let lines := filter is_data_line (splitlines text_data) in
    forall e, lines <> [] -> read_csv (join [LF] lines) columns = Raise e ->
      df = DF.new /\ trace = [st_error (MsgParseError e)].
Proof.
  destruct (filter is_data_line (splitlines text_data)) as [|l ls] eqn:E.
  - exists DF.new, []. split.
    + unfold parse_kma_data. now rewrite E.
    + intros lines e H. now destruct H.
  - rewrite (parse_kma_data_read _ E).
    destruct (read_csv _ _) as [df|e0] eqn:R.
    + exists df, []. split; [reflexivity|]. intros lines e _ H.
      subst lines. rewrite R in H. discriminate.
    + exists DF.new, [st_error (MsgParseError e0)]. split; [reflexivity|].
      intros lines e _ H. subst lines. rewrite R in H.
      injection H as <-. now split.
Qed.

(** ** C7 *)

(** C7. With an empty key the query shows the message that the key is
    missing and makes no request, whatever the network would answer. *)
Theorem query_without_key (requests_get_ : str -> outcome Response)
    (station_id : str) (selected_date : date) :
  page requests_get_ true [] station_id selected_date
    = (Ret tt, [st_error MsgMissingKey])
  /\ existsb is_request
       (snd (page requests_get_ true [] station_id selected_date)) = false.
Proof. split; reflexivity. Qed.

(** ** C8 *)

Lemma query_with_key net auth_key station_id selected_date :
  auth_key <> [] ->
  query net auth_key station_id selected_date =
    let url := request_url selected_date station_id auth_key in
    bind (emit st_spinner) (fun _ =>
      try_except
        (bind (emit (requests_get url)) (fun _ =>
           bind (lift (net url))
                (handle_response station_id selected_date)))
        isinstance_RequestException
        (fun e => emit (st_error (MsgNetworkError e)))).
Proof. destruct auth_key; [congruence|reflexivity]. Qed.

(** C8. A response whose status is not 200 gives the request-failed
    message with the status and the body of the response, and neither the
    chart nor the table is drawn. *)
Theorem query_request_failed (requests_get_ : str -> outcome Response)
    (auth_key station_id : str) (selected_date : date) (response : Response) :
  auth_key <> [] ->
  requests_get_ (request_url selected_date station_id auth_key) = Ret response ->
  status_code response <> 200%Z ->
  page requests_get_ true auth_key station_id selected_date
    = (Ret tt,
       [st_spinner;
        requests_get (request_url selected_date station_id auth_key);
        st_error (MsgRequestFailed (status_code response));
        st_code (text response apparent_encoding)])
  /\ existsb is_render
       (snd (page requests_get_ true auth_key station_id selected_date)) = false.
Proof.
  intros Hkey Hnet Hstatus.
  assert (E : page requests_get_ true auth_key station_id selected_date
    = (Ret tt,
       [st_spinner;
        requests_get (request_url selected_date station_id auth_key);
        st_error (MsgRequestFailed (status_code response));
        st_code (text response apparent_encoding)])).
  { unfold page. rewrite query_with_key by assumption.
    cbv zeta. rewrite Hnet. unfold lift, bind at 3. unfold handle_response.
    apply Z.eqb_neq in Hstatus. rewrite Hstatus. reflexivity. }
  rewrite E. split; reflexivity.
Qed.

(** ** Masks and [dropna] *)

Section Take.
Variable A B : Type.

Lemma take_nil_r (mask : list bool) : DF.take mask (@nil A) = [].
Proof. now destruct mask. Qed.

Lemma take_map_filter (f : A -> bool) (l : list A) :
  DF.take (map f l) l = filter f l.
Proof.
  induction l as [|x l IH]; simpl; [reflexivity|].
  rewrite IH. reflexivity.
Qed.

Lemma combine_nil_r (l : list A) : combine l (@nil B) = [].
Proof. now destruct l. Qed.

Lemma take_combine (mask : list bool) : forall (a : list A) (b : list B),
  DF.take mask (combine a b) = combine (DF.take mask a) (DF.take mask b).
Proof.
  induction mask as [|m mask IH]; intros a b; simpl; [reflexivity|].
  destruct a as [|x a]; simpl; [reflexivity|].
  destruct b as [|y b]; simpl.
  - now rewrite combine_nil_r.
  - rewrite IH. now destruct m.
Qed.

Lemma take_length_le (mask : list bool) : forall l : list A,
  length (DF.take mask l) <= length l.
Proof.
  induction mask as [|m mask IH]; intros [|x l]; simpl; try lia.
  specialize (IH l). destruct m; simpl; lia.
Qed.

Lemma In_take (mask : list bool) : forall (l : list A) (x : A),
  In x (DF.take mask l) ->
  exists j, nth_error l j = Some x /\ nth_error mask j = Some true.
Proof.
  induction mask as [|m mask IH]; intros [|y l] x; simpl; try tauto.
  destruct m; simpl.
  - intros [<-|H].
    + now exists 0.
    + destruct (IH _ _ H) as (j & ? & ?). now exists (S j).
  - intros H. destruct (IH _ _ H) as (j & ? & ?). now exists (S j).
Qed.

Lemma Forall_take (P : A -> Prop) (mask : list bool) : forall l : list A,
  (forall j x, nth_error l j = Some x -> nth_error mask j = Some true -> P x) ->
  Forall P (DF.take mask l).
Proof.
  intros l H. apply Forall_forall. intros x Hx.
  destruct (In_take _ _ _ Hx) as (j & ? & ?). eauto.
Qed.

End Take.

Lemma notna_mask_two (tm tw : list cell) :
  length tw = length tm ->
  DF.notna_mask (length tm) [tm; tw]
  = map (fun p => negb (isna (fst p)) && negb (isna (snd p))) (combine tm tw).
Proof.
  revert tw. induction tm as [|a tm IH]; intros [|b tw] H; try discriminate.
  - reflexivity.
  - injection H as H. specialize (IH _ H).
    simpl in *. rewrite andb_true_r. f_equal. exact IH.
Qed.

Lemma notna_mask_rows (idx : list label) (tm tw : list cell) :
  length tm = length idx -> length tw = length idx ->
  DF.notna_mask (length idx) [tm; tw]
  = map both_notna (rows_TM_TW idx tm tw).
Proof.
  intros Htm Htw. rewrite <- Htm, notna_mask_two by congruence.
  unfold rows_TM_TW.
  assert (L : length (combine tm tw) = length idx)
    by (rewrite length_combine; lia).
  revert L. generalize (combine tm tw) as rows. clear.
  intros rows. revert idx.
  induction rows as [|r rows IH]; intros [|i idx] L; try discriminate.
  - reflexivity.
  - simpl. f_equal. apply IH. now injection L.
Qed.

(** ** The projection, step by step *)

Lemma project_steps (df : DataFrame) (tm tw : list cell) :
  DF.lookup TM (data df) = Some tm ->
  DF.lookup TW (data df) = Some tw ->
  project df =
    (Ret (DF.dropna (mk_DataFrame (index df)
            [(TM, Datetime.to_datetime tm); (TW, to_numeric tw)])), []).
Proof.
  intros Htm Htw. unfold project, DF.select. simpl DF.getitem_list.
  unfold DF.getitem. rewrite Htm, Htw. reflexivity.
Qed.

Lemma dropna_two (idx : list label) (tm tw : list cell) :
  length tm = length idx -> length tw = length idx ->
  let mask := map both_notna (rows_TM_TW idx tm tw) in
  DF.dropna (mk_DataFrame idx [(TM, tm); (TW, tw)])
  = mk_DataFrame (DF.take mask idx)
      [(TM, DF.take mask tm); (TW, DF.take mask tw)].
Proof.
  intros Htm Htw mask. unfold DF.dropna, DF.nrows.
  cbn [index data map snd fst]. now rewrite notna_mask_rows.
Qed.

Lemma rows_of_taken (idx : list label) (tm tw : list cell) :
  let mask := map both_notna (rows_TM_TW idx tm tw) in
  rows_TM_TW (DF.take mask idx) (DF.take mask tm) (DF.take mask tw)
  = filter both_notna (rows_TM_TW idx tm tw).
Proof.
  intros mask. unfold rows_TM_TW at 1.
  rewrite <- !take_combine. apply take_map_filter.
Qed.

(** The mask at a row, from the two converted cells. *)
Lemma mask_nth (idx : list label) (tm tw : list cell) (j : nat) (b : bool) :
  length tm = length idx -> length tw = length idx ->
  nth_error (map both_notna (rows_TM_TW idx tm tw)) j = Some b ->
  exists a c, nth_error tm j = Some a /\ nth_error tw j = Some c
              /\ b = negb (isna a) && negb (isna c).
Proof.
  revert tm tw j.
  induction idx as [|i idx IH]; intros [|a tm] [|c tw] j Htm Htw;
    try discriminate; destruct j; simpl; try discriminate.
  - intros [= <-]. now exists a, c.
  - intros H. apply IH; auto.
Qed.

(** ** The two conversions on the values [read_csv] gives *)

Lemma strptime_valid (val : str) (t : timestamp) :
  Datetime.strptime val = Some t -> Datetime.valid t = true.
Proof.
  unfold Datetime.strptime.
  destruct (Datetime.match_groups Datetime.format_regex val)
    as [|[[|Y [|m [|d [|H [|M [|? ?]]]]]] [|? ?]] ?]; try discriminate.
  destruct (Datetime.valid _) eqn:V; [|discriminate].
  now intros [= <-].
Qed.

Lemma to_datetime_cell_raw (c : cell) :
  raw_cell c = true ->
  isna (Datetime.to_datetime_cell c) = false ->
  is_timestamp (Datetime.to_datetime_cell c) = true.
Proof.
  assert (T : forall s,
    isna (match Datetime.strptime s with
          | Some t => CTimestamp t | None => NaT end) = false ->
    is_timestamp (match Datetime.strptime s with
          | Some t => CTimestamp t | None => NaT end) = true).
  { intros s. destruct (Datetime.strptime s) eqn:E; [|discriminate].
    intros _. simpl. eapply strptime_valid; eassumption. }
  destruct c as [z|[neg mant e|neg|]|b|s|t|]; simpl; try discriminate;
    intros _; try apply T.
  destruct (Datetime.trunc_float mant e); [apply T|discriminate].
Qed.

Lemma precise_xstrtod_finite (s : str) (f : float64) :
  Numeric.precise_xstrtod s = Some f -> exists neg mant e, f = FNum neg mant e.
Proof.
  unfold Numeric.precise_xstrtod.
  destruct (Numeric.read_sign _) as [neg s1].
  destruct (Numeric.read_number 0 0 0 s1) as [[[n1 d1] e1] s2].
  destruct (match s2 with
            | 46%N :: rest =>
                let '(n, d, num_decimals, s') :=
                  Numeric.read_decimals n1 d1 0 rest in
                (n, d, (e1 - Z.of_nat num_decimals)%Z, s')
            | _ => (n1, d1, e1, s2)
            end) as [[[n2 d2] e2] s3].
  destruct d2; [discriminate|].
  match goal with |- match ?x with _ => _ end = _ -> _ => destruct x as [[e s6]|] end;
    [|discriminate].
  destruct (308 <? e)%Z; [discriminate|].
  destruct (_ && _)%bool; [discriminate|].
  destruct (Numeric.skip_spaces s6); [|discriminate].
  destruct (e <? -616)%Z; intros [= <-]; eauto.
Qed.

Lemma to_double_not_nan (s : str) (f : float64) :
  Numeric.to_double s = Some f -> f <> FNaN.
Proof.
  unfold Numeric.to_double. destruct (Numeric.precise_xstrtod s) eqn:X.
  - intros [= <-]. destruct (precise_xstrtod_finite _ X) as (? & ? & ? & ->).
    discriminate.
  - unfold Numeric.infinity_name.
    destruct (_ || _)%bool; [now intros [= <-]|].
    destruct (_ || _)%bool; [now intros [= <-]|discriminate].
Qed.

Lemma to_numeric_cell_raw (c : cell) :
  raw_cell c = true ->
  isna (to_numeric_cell c) = false ->
  is_number (to_numeric_cell c) = true \/ is_boolean (to_numeric_cell c) = true.
Proof.
  destruct c as [z|[neg mant e|neg|]|b|s|t|]; simpl; try discriminate;
    auto; intros _.
  destruct (Numeric.to_double s) as [f|] eqn:D; [|discriminate].
  left.
  destruct (Numeric.str_to_int64 s); try reflexivity;
    pose proof (to_double_not_nan _ D); destruct f; simpl; congruence.
Qed.

Lemma to_numeric_in_cell (seen_null : bool) (c : cell) :
  is_boolean c = false -> to_numeric_in seen_null c = to_numeric_cell c.
Proof. now destruct c. Qed.

Lemma to_numeric_in_raw (seen_null : bool) (c : cell) :
  raw_cell c = true ->
  isna (to_numeric_in seen_null c) = false ->
  is_number (to_numeric_in seen_null c) = true
  \/ is_boolean (to_numeric_in seen_null c) = true.
Proof.
  destruct (is_boolean c) eqn:B.
  - destruct c; try discriminate. destruct seen_null; cbn; auto.
  - rewrite (to_numeric_in_cell _ _ B). apply to_numeric_cell_raw.
Qed.


(** ** The rows of the tokenizer are rectangular *)

Lemma length_pad_fields ex fields :
  length (pad_fields ex fields) = Nat.max (length fields) ex.
Proof. unfold pad_fields. rewrite length_app, repeat_length. lia. Qed.

Lemma rect_set_state n s p : rect n p -> rect n (set_state s p).
Proof. exact (fun H => H). Qed.

Lemma rect_PUSH_CHAR n c p : rect n p -> rect n (PUSH_CHAR c p).
Proof. exact (fun H => H). Qed.

Lemma rect_end_field n p : rect n p -> rect n (end_field p).
Proof. exact (fun H => H). Qed.

Lemma rect_end_line n p p' : rect n p -> end_line p = Ret p' -> rect n p'.
Proof.
  intros [Hn Hrows]. unfold end_line.
  destruct (rows p) as [|r rs] eqn:R.
  - intros [= <-]. unfold rect. cbn [rows expected_fields].
    rewrite length_pad_fields. split; [lia|].
    constructor; [rewrite length_pad_fields; lia|constructor].
  - destruct (_ <? _) eqn:L; [discriminate|]. intros [= <-].
    apply Nat.ltb_ge in L. unfold rect. cbn [rows expected_fields].
    split; [exact Hn|].
    constructor; [|exact Hrows]. rewrite length_pad_fields, length_rev in *. lia.
Qed.

Lemma rect_END_LINE_STATE n s p p' :
  rect n p -> END_LINE_STATE s p = Ret p' -> rect n p'.
Proof.
  unfold END_LINE_STATE. intros H. destruct (end_line p) eqn:E; [|discriminate].
  intros [= <-]. apply rect_set_state. eapply rect_end_line; eassumption.
Qed.

Create HintDb tok.
#[local] Hint Resolve rect_set_state rect_PUSH_CHAR rect_end_field : tok.

Ltac ret_cases :=
  repeat match goal with
  | |- (if ?b then _ else _) = Ret _ -> _ => destruct b
  | |- Ret _ = Ret _ -> _ => intros [= <-]; auto with tok
  | |- END_LINE_STATE _ _ = Ret _ -> _ =>
      let H := fresh in
      intros H; eapply rect_END_LINE_STATE; [|exact H]; auto with tok
  end.

Lemma rect_case_START_FIELD n p c p' :
  rect n p -> case_START_FIELD p c = Ret p' -> rect n p'.
Proof. intros Hp. unfold case_START_FIELD. ret_cases. Qed.

Lemma rect_case_START_RECORD n p c p' :
  rect n p -> case_START_RECORD p c = Ret p' -> rect n p'.
Proof.
  intros Hp. unfold case_START_RECORD. ret_cases.
  apply rect_case_START_FIELD. auto with tok.
Qed.

Lemma rect_tokenize_byte n p c p' :
  rect n p -> tokenize_byte p c = Ret p' -> rect n p'.
Proof.
  intros Hp. unfold tokenize_byte.
  destruct (state p);
    unfold case_WHITESPACE_LINE, case_EAT_WHITESPACE, case_IN_FIELD,
      case_IN_QUOTED_FIELD, case_QUOTE_IN_QUOTED_FIELD, case_EAT_CRNL,
      case_EAT_CRNL_NOP;
    ret_cases;
    try (apply rect_case_START_RECORD; auto with tok);
    try (apply rect_case_START_FIELD; auto with tok).
  destruct (END_LINE_STATE START_RECORD p) eqn:E; [|discriminate].
  apply rect_case_START_RECORD. eapply rect_END_LINE_STATE; eassumption.
Qed.

Lemma rect_tokenize_bytes n buf : forall p p',
  rect n p -> tokenize_bytes p buf = Ret p' -> rect n p'.
Proof.
  induction buf as [|c buf IH]; simpl; intros p p' Hp.
  - now intros [= <-].
  - destruct (tokenize_byte p c) eqn:E; [|discriminate].
    apply IH. eapply rect_tokenize_byte; eassumption.
Qed.

Lemma rect_parser_handle_eof n p p' :
  rect n p -> parser_handle_eof p = Ret p' -> rect n p'.
Proof.
  intros Hp. unfold parser_handle_eof.
  destruct (state p); try discriminate;
    try (intros [= <-]; exact Hp);
    intros H; eapply rect_end_line; try exact H; auto with tok.
Qed.

Lemma tokenize_all_rows_rect n data rows :
  tokenize_all_rows n data = Ret rows ->
  exists w, n <= w /\ Forall (fun r => length r = w) rows.
Proof.
  unfold tokenize_all_rows.
  destruct (tokenize_bytes _ _) as [p|] eqn:E1; [|discriminate].
  destruct (parser_handle_eof p) as [p'|] eqn:E2; [|discriminate].
  intros [= <-].
  assert (R : rect n p').
  { eapply rect_parser_handle_eof; [|exact E2].
    eapply rect_tokenize_bytes; [|exact E1].
    split; [apply Nat.le_refl|constructor]. }
  exists (expected_fields p'). destruct R as [Hn HF]. split; [exact Hn|].
  apply Forall_rev. exact HF.
Qed.

(** ** The converted columns *)

Lemma good_cons_cell c na k a :
  raw_cell c = true -> good_attempt k a ->
  good_attempt (S k) (cons_cell c na a).
Proof.
  destruct a; simpl; auto. intros Hc [Hl HF]. split; [lia|now constructor].
Qed.

Lemma good_try_int64 tokens : good_attempt (length tokens) (_try_int64 tokens).
Proof.
  induction tokens as [|t ts IH]; simpl; [now split|].
  destruct (is_na_token t); [now apply good_cons_cell|].
  destruct (Numeric.str_to_int64 t); simpl; auto.
  now apply good_cons_cell.
Qed.

Lemma good_try_double tokens : good_attempt (length tokens) (_try_double tokens).
Proof.
  induction tokens as [|t ts IH]; simpl; [now split|].
  destruct (is_na_token t); [now apply good_cons_cell|].
  destruct (Numeric.to_double t); simpl; auto.
  now apply good_cons_cell.
Qed.

Lemma good_try_bool_flex tokens :
  good_attempt (length tokens) (_try_bool_flex tokens).
Proof.
  induction tokens as [|t ts IH]; simpl; [now split|].
  destruct (is_na_token t); [now apply good_cons_cell|].
  destruct (bool_of_token t); [now apply good_cons_cell|exact I].
Qed.

Lemma good_try_uint64_from tokens : forall st acc,
  Forall (fun c => raw_cell c = true) acc ->
  good_attempt (length acc + length tokens) (_try_uint64_from st acc tokens).
Proof.
  induction tokens as [|t ts IH]; simpl; intros st acc Hacc.
  - destruct (_ && _); [exact I|]. destruct (seen_sint st); [exact I|].
    simpl. rewrite length_rev, Nat.add_0_r. split; [reflexivity|].
    now apply Forall_rev.
  - replace (length acc + S (length ts)) with (length (CInt 0 :: acc) + length ts)
      by (simpl; lia).
    destruct (is_na_token t); [apply IH; now constructor|].
    destruct (Numeric.str_to_uint64 t) as [z| |[|]]; simpl; auto;
      apply IH; now constructor.
Qed.

Lemma raw_string_convert na tokens :
  Forall (fun c => raw_cell c = true) (_string_convert na tokens).
Proof.
  unfold _string_convert. apply Forall_forall. intros c Hc.
  apply in_map_iff in Hc as (t & <- & _). now destruct (_ && _).
Qed.

Lemma raw_upcast_int c : raw_cell c = true -> raw_cell (upcast_int c) = true.
Proof. destruct c; simpl; auto. now destruct (_ =? _)%Z. Qed.

Lemma convert_tokens_good tokens :
  length (_convert_tokens tokens) = length tokens /\
  Forall (fun c => raw_cell c = true) (_convert_tokens tokens).
Proof.
  assert (S : forall na, length (_string_convert na tokens) = length tokens
            /\ Forall (fun c => raw_cell c = true) (_string_convert na tokens)).
  { intros na. split; [apply length_map|apply raw_string_convert]. }
  assert (A : let after_int :=
      match _try_double tokens with
      | Converted cs _ => cs
      | _ => match _try_bool_flex tokens with
             | Converted cs _ => cs
             | _ => _string_convert true tokens
             end
      end in
      length after_int = length tokens /\
      Forall (fun c => raw_cell c = true) after_int).
  { pose proof (good_try_double tokens) as D.
    pose proof (good_try_bool_flex tokens) as B.
    destruct (_try_double tokens); simpl in *; auto;
      destruct (_try_bool_flex tokens); simpl in *; auto. }
  unfold _convert_tokens.
  pose proof (good_try_int64 tokens) as G.
  pose proof (good_try_uint64_from tokens (mk_uint_state false false false)
                (@Forall_nil _ _)) as U.
  fold (_try_uint64 tokens) in U. simpl in U.
  destruct (_try_int64 tokens) as [cs [|k]| | |]; simpl in G; auto.
  - destruct G as [Gl GF]. rewrite length_map. split; [exact Gl|].
    apply Forall_forall. intros c Hc. apply in_map_iff in Hc as (c0 & <- & Hc0).
    apply raw_upcast_int. rewrite Forall_forall in GF. now apply GF.
  - destruct (_try_uint64 tokens); simpl in U; auto.
Qed.

(** ** The shape of what [read_csv] returns *)

Lemma map_fst_combine (A B : Type) (a : list A) : forall b : list B,
  length a <= length b -> map fst (combine a b) = a.
Proof.
  induction a as [|x a IH]; intros [|y b] H; simpl in *; try lia; auto.
  f_equal. apply IH. lia.
Qed.

Lemma Forall_snd_combine (A B : Type) (P : B -> Prop) (a : list A) :
  forall b : list B, Forall P b -> Forall (fun p => P (snd p)) (combine a b).
Proof.
  induction a as [|x a IH]; intros b Hb; simpl; [constructor|].
  destruct Hb as [|y b Hy Hb]; constructor; auto.
Qed.

Lemma Forall_skipn_own (A : Type) (P : A -> Prop) (n : nat) : forall l : list A,
  Forall P l -> Forall P (skipn n l).
Proof.
  induction n as [|n IH]; intros l Hl; simpl; [exact Hl|].
  destruct Hl; [constructor|]. now apply IH.
Qed.

Lemma read_csv_shape (data_io : str) (names : list str) (df : DataFrame) :
  read_csv data_io names = Ret df ->
  DF.columns df = names /\ Forall (column_ok (DF.nrows df)) (data df).
Proof.
  unfold read_csv.
  destruct (existsb is_surrogate data_io); [discriminate|].
  destruct (tokenize_all_rows (length names) data_io) as [rws|] eqn:T;
    [|discriminate].
  destruct (tokenize_all_rows_rect _ _ T) as (w & Hw & HF).
  set (width := match rws with [] => length names | r :: _ => length r end).
  assert (Hwidth : length names <= width).
  { subst width. destruct rws as [|r rs]; [lia|].
    inversion HF; subst. lia. }
  set (cols := map (fun col => Reader._convert_tokens (map c_str col))
                   (columns_of_rows width rws)).
  assert (Hcols : Forall (fun col => length col = length rws
                     /\ Forall (fun c => raw_cell c = true) col) cols).
  { subst cols. apply Forall_forall. intros col Hcol.
    apply in_map_iff in Hcol as (toks & <- & Htoks).
    destruct (convert_tokens_good (map c_str toks)) as [L R]. split; [|exact R].
    rewrite L, length_map. unfold columns_of_rows in Htoks.
    apply in_map_iff in Htoks as (j & <- & _). apply length_map. }
  assert (Hlen : length cols = width).
  { subst cols. unfold columns_of_rows. now rewrite !length_map, length_seq. }
  intros [= <-]. unfold DF.columns, DF.nrows. cbn [index data].
  assert (Hidx : forall l : list label,
            l = match width - length names with
                | 0 => map Pos (seq 0 (length rws))
                | S _ => map (fun i => Key (map (fun c => nth i c NaN)
                           (firstn (width - length names) cols)))
                           (seq 0 (length rws))
                end -> length l = length rws).
  { intros l ->. destruct (width - length names);
      now rewrite length_map, length_seq. }
  rewrite (Hidx _ eq_refl). split.
  - apply map_fst_combine. rewrite length_skipn. lia.
  - apply Forall_snd_combine with (P := fun col => length col = length rws
        /\ Forall (fun c => raw_cell c = true) col).
    now apply Forall_skipn_own.
Qed.

(** What a parse that gave rows looks like. *)
Lemma parse_kma_data_shape (text_data : str) (df : DataFrame) (trace : list event) :
  parse_kma_data text_data = (Ret df, trace) ->
  df = DF.new \/
  (trace = [] /\ DF.columns df = columns
   /\ Forall (column_ok (DF.nrows df)) (data df)).
Proof.
  destruct (filter is_data_line (splitlines text_data)) as [|l ls] eqn:E.
  - unfold parse_kma_data. rewrite E. intros [= <-]. now left.
  - rewrite (parse_kma_data_read _ E).
    destruct (read_csv _ _) as [df'|e] eqn:R.
    + intros [= <- <-]. right. split; [reflexivity|].
      exact (read_csv_shape _ _ R).
    + intros [= <- _]. now left.
Qed.

Lemma lookup_columns (name : str) (cols : list (str * list cell)) :
  In name (map fst cols) ->
  exists col, DF.lookup name cols = Some col /\ In (name, col) cols.
Proof.
  induction cols as [|[n c] cols IH]; simpl; [tauto|].
  destruct (str_eqb name n) eqn:E.
  - intros _. apply str_eqb_eq in E as ->. exists c. auto.
  - intros [->|H].
    + assert (str_eqb name name = true) by now apply str_eqb_eq. congruence.
    + destruct (IH H) as (col & ? & ?). exists col. auto.
Qed.

Lemma TM_in_columns : In TM columns.
Proof. now left. Qed.

Lemma TW_in_columns : In TW columns.
Proof. unfold columns, TW. simpl. tauto. Qed.

(** A parse that is not empty has the two columns the page uses. *)
Lemma parse_kma_data_TM_TW (text_data : str) (df : DataFrame) (trace : list event) :
  parse_kma_data text_data = (Ret df, trace) ->
  DF.empty df = false ->
  exists tm tw,
    DF.lookup TM (data df) = Some tm /\ DF.lookup TW (data df) = Some tw
    /\ column_ok (DF.nrows df) (TM, tm) /\ column_ok (DF.nrows df) (TW, tw).
Proof.
  intros P E. destruct (parse_kma_data_shape _ P) as [->|(_ & C & F)];
    [discriminate|].
  unfold DF.columns in C.
  destruct (lookup_columns TM (data df)) as (tm & Ltm & Itm);
    [rewrite C; apply TM_in_columns|].
  destruct (lookup_columns TW (data df)) as (tw & Ltw & Itw);
    [rewrite C; apply TW_in_columns|].
  rewrite Forall_forall in F.
  exists tm, tw. repeat split; auto; now apply (F _ Itm) || now apply (F _ Itw).
Qed.

(** ** The projected table *)

Lemma take_length_eq (A B : Type) (mask : list bool) :
  forall (a : list A) (b : list B),
  length a = length b -> length (DF.take mask a) = length (DF.take mask b).
Proof.
  induction mask as [|m mask IH]; intros [|x a] [|y b] H; simpl in *;
    try discriminate; auto.
  injection H as H. specialize (IH _ _ H). destruct m; simpl; congruence.
Qed.

(** The result of the projection of a table with the two columns: the
    kept labels and cells, the mask that chose them, and what they are. *)
Lemma project_parsed (df : DataFrame) (tm tw : list cell) :
  DF.lookup TM (data df) = Some tm ->
  DF.lookup TW (data df) = Some tw ->
  column_ok (DF.nrows df) (TM, tm) -> column_ok (DF.nrows df) (TW, tw) ->
  let mask := map both_notna
                (rows_TM_TW (index df) (Datetime.to_datetime tm) (to_numeric tw)) in
  project df =
    (Ret (mk_DataFrame (DF.take mask (index df))
            [(TM, DF.take mask (Datetime.to_datetime tm));
             (TW, DF.take mask (to_numeric tw))]), [])
  /\ Forall (fun c => is_timestamp c = true)
            (DF.take mask (Datetime.to_datetime tm))
  /\ Forall (fun c => is_number c = true \/ is_boolean c = true)
            (DF.take mask (to_numeric tw)).
Proof.
  intros Ltm Ltw [Htm Rtm] [Htw Rtw] mask. cbn [snd] in *.
  unfold DF.nrows in *.
  assert (Htm' : length (Datetime.to_datetime tm) = length (index df))
    by (unfold Datetime.to_datetime; now rewrite length_map).
  assert (Htw' : length (to_numeric tw) = length (index df))
    by (unfold to_numeric; now rewrite length_map).
  split; [|split].
  - rewrite (project_steps _ Ltm Ltw). now rewrite dropna_two.
  - apply Forall_take. intros j x Hx Hm.
    destruct (mask_nth _ _ _ _ Htm' Htw' Hm) as (a & c & Ha & _ & Hb).
    rewrite Hx in Ha. injection Ha as <-.
    symmetry in Hb. apply andb_prop in Hb as [Hb _].
    unfold Datetime.to_datetime in Hx.
    apply nth_error_In, in_map_iff in Hx as (c0 & <- & Hc0).
    rewrite Forall_forall in Rtm.
    apply to_datetime_cell_raw; [now apply Rtm|].
    now destruct (isna _).
  - apply Forall_take. intros j x Hx Hm.
    destruct (mask_nth _ _ _ _ Htm' Htw' Hm) as (a & c & _ & Hc & Hb).
    rewrite Hx in Hc. injection Hc as <-.
    symmetry in Hb. apply andb_prop in Hb as [_ Hb].
    unfold to_numeric in Hx.
    apply nth_error_In, in_map_iff in Hx as (c0 & <- & Hc0).
    rewrite Forall_forall in Rtw.
    apply to_numeric_in_raw; [now apply Rtw|].
    now destruct (isna _).
Qed.

(** ** C5 *)

Lemma nth_error_Forall (A : Type) (P : A -> Prop) (l : list A) (i : nat) :
  Forall P l -> i < length l -> exists x, nth_error l i = Some x /\ P x.
Proof.
  intros F H. destruct (nth_error l i) as [x|] eqn:E.
  - exists x. split; [reflexivity|].
    rewrite Forall_forall in F. apply F. eapply nth_error_In; eassumption.
  - apply nth_error_None in E. lia.
Qed.

(** C5, as amended. The projection of a parsed table has no more rows
    than the table, and every row of it has a valid timestamp and a
    water temperature that is not missing: a number, which can be an
    infinity, or a boolean (a column of the words [True] and [False] is
    read as booleans and stays so). *)
Theorem project_rows_present (text_data : str) (df r : DataFrame)
    (trace trace' : list event) :
  parse_kma_data text_data = (Ret df, trace) ->
  DF.empty df = false ->
  project df = (Ret r, trace') ->
  DF.nrows r <= DF.nrows df /\
  forall i, i < DF.nrows r ->
    exists t x, DF.row r i = [(TM, CTimestamp t); (TW, x)]
                /\ Datetime.valid t = true
                /\ (is_number x = true \/ is_boolean x = true)
                /\ isna x = false.
Proof.
  intros P E Pr.
  destruct (parse_kma_data_TM_TW _ P E) as (tm & tw & Ltm & Ltw & Ctm & Ctw).
  destruct (project_parsed _ Ltm Ltw Ctm Ctw) as (Pr' & Ftm & Ftw).
  set (mask := map both_notna
         (rows_TM_TW (index df) (Datetime.to_datetime tm) (to_numeric tw))) in *.
  rewrite Pr' in Pr. injection Pr as <- _.
  unfold DF.nrows, DF.row. cbn [index data map fst snd].
  split; [apply take_length_le|].
  intros i Hi.
  destruct Ctm as [Htm _], Ctw as [Htw _]. cbn [snd] in *. unfold DF.nrows in *.
  assert (L1 : length (DF.take mask (Datetime.to_datetime tm))
               = length (DF.take mask (index df))).
  { apply take_length_eq. unfold Datetime.to_datetime. now rewrite length_map. }
  assert (L2 : length (DF.take mask (to_numeric tw))
               = length (DF.take mask (index df))).
  { apply take_length_eq. unfold to_numeric. now rewrite length_map. }
  destruct (nth_error_Forall (i:=i) Ftm) as (a & Ha & Pa); [lia|].
  destruct (nth_error_Forall (i:=i) Ftw) as (x & Hx & Px); [lia|].
  destruct a as [| | | |t|]; try discriminate. exists t, x.
  rewrite (nth_error_nth _ _ NaN Ha), (nth_error_nth _ _ NaN Hx).
  repeat split; auto. now destruct Px as [Px|Px]; destruct x as [|[]| | | |].
Qed.

(** ** C9 *)


(** ** C3 *)

(** C3, as amended. Every row of the table a parse returns has the 24
    named fields, each with the value [read_csv] gives its column: an
    integer, a float (the missing value among them), a boolean or a
    text, so the types are settled at the parse. *)
Theorem parsed_rows_have_all_fields (text_data : str) (df : DataFrame)
    (trace : list event) (i : nat) :
  parse_kma_data text_data = (Ret df, trace) ->
  i < DF.nrows df ->
  map fst (DF.row df i) = columns /\ length (DF.row df i) = 24 /\
  forall name, In name columns ->
    exists col c, DF.lookup name (data df) = Some col
                  /\ nth_error col i = Some c /\ raw_cell c = true
                  /\ In (name, c) (DF.row df i).
Proof.
  intros P Hi.
  destruct (parse_kma_data_shape _ P) as [->|(_ & C & F)];
    [unfold DF.nrows, DF.new in Hi; simpl in Hi; lia|].
  assert (M : map fst (DF.row df i) = columns).
  { unfold DF.row. rewrite map_map. exact C. }
  split; [exact M|]. split.
  { rewrite <- (length_map fst), M. reflexivity. }
  intros name Hname. unfold DF.columns in C.
  destruct (lookup_columns name (data df)) as (col & L & I);
    [now rewrite C|].
  rewrite Forall_forall in F. destruct (F _ I) as [Hl Hr]. cbn [snd] in *.
  destruct (nth_error_Forall (i:=i) Hr) as (c & Hc & Rc); [lia|].
  exists col, c. repeat split; auto.
  unfold DF.row. apply in_map_iff. exists (name, col). split; [|exact I].
  cbn [fst snd]. now rewrite (nth_error_nth _ _ NaN Hc).
Qed.

(** ** Reading a text line by line

    For lines without a double quote and without line ends in them, the
    tokenizer reads each line that is not blank into its fields. *)

Lemma line_char_inv c :
  line_char c = true ->
  IS_TERMINATOR c = false /\ IS_CARRIAGE c = false /\ IS_QUOTE c = false
  /\ (c =? LF)%N = false.
Proof.
  unfold line_char, IS_TERMINATOR, IS_CARRIAGE, IS_QUOTE.
  destruct (c =? LF)%N, (c =? CR)%N, (c =? QUOTE)%N; simpl; try discriminate.
  auto.
Qed.

Ltac line_step Hc :=
  destruct (line_char_inv _ Hc) as (HT & HC & HQ & HL);
  destruct (IS_WHITESPACE _) eqn:HW;
  repeat progress
    (unfold tokenize_byte, case_START_RECORD, case_WHITESPACE_LINE,
       case_EAT_WHITESPACE, case_START_FIELD, case_IN_FIELD;
     cbn [state negb]; rewrite ?HT, ?HC, ?HQ, ?HW);
  reflexivity.

Lemma step_START_RECORD c rws ex :
  line_char c = true ->
  tokenize_byte (mk_parser START_RECORD [] [] rws ex) c =
    Ret (if IS_WHITESPACE c then mk_parser WHITESPACE_LINE [] [] rws ex
         else mk_parser IN_FIELD [c] [] rws ex).
Proof. intros Hc. line_step Hc. Qed.

Lemma step_WHITESPACE_LINE c rws ex :
  line_char c = true ->
  tokenize_byte (mk_parser WHITESPACE_LINE [] [] rws ex) c =
    Ret (if IS_WHITESPACE c then mk_parser WHITESPACE_LINE [] [] rws ex
         else mk_parser IN_FIELD [c] [] rws ex).
Proof. intros Hc. line_step Hc. Qed.

Lemma step_IN_FIELD c w acc rws ex :
  line_char c = true ->
  tokenize_byte (mk_parser IN_FIELD w acc rws ex) c =
    Ret (if IS_WHITESPACE c then mk_parser EAT_WHITESPACE [] (rev w :: acc) rws ex
         else mk_parser IN_FIELD (c :: w) acc rws ex).
Proof. intros Hc. line_step Hc. Qed.

Lemma step_EAT_WHITESPACE c acc rws ex :
  line_char c = true ->
  tokenize_byte (mk_parser EAT_WHITESPACE [] acc rws ex) c =
    Ret (if IS_WHITESPACE c then mk_parser EAT_WHITESPACE [] acc rws ex
         else mk_parser IN_FIELD [c] acc rws ex).
Proof. intros Hc. line_step Hc. Qed.

Lemma run_in_line (s : str) (rws : list (list str)) (ex : nat) :
  Forall (fun c => line_char c = true) s ->
  forall acc,
    (forall w, line_run (mk_parser IN_FIELD w acc rws ex) s
                 (rev acc ++ ws_fields_from (Some w) s))
    /\ line_run (mk_parser EAT_WHITESPACE [] acc rws ex) s
         (rev acc ++ ws_fields_from None s).
Proof.
  induction 1 as [|c s Hc _ IH]; intros acc.
  - split; [intros w|]; eexists; (split; [reflexivity|]);
      repeat split; unfold in_line, pending; cbn; auto.
  - split; [intros w|]; unfold line_run; cbn [tokenize_bytes ws_fields_from].
    + rewrite step_IN_FIELD by assumption.
      destruct (IS_WHITESPACE c).
      * destruct (IH (rev w :: acc)) as [_ (p' & T & R & E & I & Pe)].
        exists p'. repeat split; auto. rewrite Pe. cbn [rev].
        now rewrite <- app_assoc.
      * destruct (IH acc) as [Hw _]. exact (Hw (c :: w)).
    + rewrite step_EAT_WHITESPACE by assumption.
      destruct (IS_WHITESPACE c).
      * destruct (IH acc) as [_ Hn]. exact Hn.
      * destruct (IH acc) as [Hw _]. exact (Hw [c]).
Qed.

Lemma ws_fields_from_Some (s : str) : forall w,
  ws_fields_from (Some w) s <> [].
Proof.
  induction s as [|c s IH]; intros w; cbn [ws_fields_from]; [discriminate|].
  destruct (IS_WHITESPACE c); [discriminate|apply IH].
Qed.

(** A line from its start: a blank line leaves the parser before a
    record, any other line leaves it with the fields of the line. *)
Lemma run_from_start (s : str) (rws : list (list str)) (ex : nat) :
  Forall (fun c => line_char c = true) s ->
  forall st, st = START_RECORD \/ st = WHITESPACE_LINE ->
  if blank s
  then ws_fields_from None s = [] /\
       exists st', (st' = START_RECORD \/ st' = WHITESPACE_LINE) /\
         tokenize_bytes (mk_parser st [] [] rws ex) s
         = Ret (mk_parser st' [] [] rws ex)
  else ws_fields_from None s <> [] /\
       line_run (mk_parser st [] [] rws ex) s (ws_fields_from None s).
Proof.
  induction 1 as [|c s Hc Hs IH]; intros st Hst.
  - cbn. split; [reflexivity|]. now exists st.
  - cbn [blank forallb]. fold (blank s).
    assert (Step : tokenize_byte (mk_parser st [] [] rws ex) c =
      Ret (if IS_WHITESPACE c then mk_parser WHITESPACE_LINE [] [] rws ex
           else mk_parser IN_FIELD [c] [] rws ex)).
    { destruct Hst as [-> | ->];
        [now apply step_START_RECORD|now apply step_WHITESPACE_LINE]. }
    cbn [tokenize_bytes ws_fields_from]. 
    destruct (IS_WHITESPACE c) eqn:W; cbn [andb].
    + specialize (IH WHITESPACE_LINE (or_intror eq_refl)).
      destruct (blank s).
      * destruct IH as (F & st' & Hst' & T). split; [exact F|].
        exists st'. split; [exact Hst'|]. now rewrite Step.
      * destruct IH as (F & p' & T & R). split; [exact F|].
        exists p'. cbn [tokenize_bytes]. now rewrite Step.
    + destruct (run_in_line rws ex Hs []) as [Hw _].
      specialize (Hw [c]). cbn [rev app] in Hw. cbv beta iota.
      split.
      * apply ws_fields_from_Some.
      * destruct Hw as (p' & T & R). exists p'. cbn [tokenize_bytes].
        now rewrite Step.
Qed.

Lemma tokenize_bytes_app (a b : str) : forall p,
  tokenize_bytes p (a ++ b) =
    match tokenize_bytes p a with
    | Ret p' => tokenize_bytes p' b
    | Raise e => Raise e
    end.
Proof.
  induction a as [|c a IH]; intros p; cbn [app tokenize_bytes]; [reflexivity|].
  destruct (tokenize_byte p c); [apply IH|reflexivity].
Qed.

(** The end of a line that has fields: at a line feed and at the end of
    the data. *)
Lemma close_line (p : parser_t) :
  in_line p ->
  tokenize_byte p LF =
    match push_row (rows p) (expected_fields p) (pending p) with
    | Ret (r, e) => Ret (before_record r e)
    | Raise e => Raise e
    end
  /\ finish (Ret p) =
    match push_row (rows p) (expected_fields p) (pending p) with
    | Ret (r, _) => Ret r
    | Raise e => Raise e
    end.
Proof.
  destruct p as [st w l r e]. unfold in_line, pending. cbn [state word line].
  intros [-> | [-> ->]]; unfold finish, parser_handle_eof, tokenize_byte,
    case_IN_FIELD, case_EAT_WHITESPACE, END_LINE_STATE, end_line, push_row,
    end_field, set_state, before_record;
    cbn [state word line rows expected_fields IS_TERMINATOR rev];
    change (LF =? LF)%N with true; cbv iota; rewrite ?app_nil_r;
    destruct r; try destruct (_ <? _); split; reflexivity.
Qed.

Lemma blank_step (st : pstate) (rws : list (list str)) (ex : nat) :
  st = START_RECORD \/ st = WHITESPACE_LINE ->
  tokenize_byte (mk_parser st [] [] rws ex) LF = Ret (before_record rws ex)
  /\ finish (Ret (mk_parser st [] [] rws ex)) = Ret rws.
Proof. intros [-> | ->]; split; reflexivity. Qed.

(** One line and what ends it. *)
Lemma run_one_line (s : str) (rws : list (list str)) (ex : nat) :
  Forall (fun c => line_char c = true) s ->
  tokenize_bytes (before_record rws ex) (s ++ [LF]) =
    match ws_fields s with
    | [] => Ret (before_record rws ex)
    | f :: fs =>
        match push_row rws ex (f :: fs) with
        | Ret (r, e) => Ret (before_record r e)
        | Raise e => Raise e
        end
    end
  /\ finish (tokenize_bytes (before_record rws ex) s) =
    match ws_fields s with
    | [] => Ret rws
    | f :: fs =>
        match push_row rws ex (f :: fs) with
        | Ret (r, _) => Ret r
        | Raise e => Raise e
        end
    end.
Proof.
  intros Hs. rewrite tokenize_bytes_app. unfold ws_fields.
  pose proof (run_from_start rws ex Hs (or_introl eq_refl)) as R.
  fold (before_record rws ex) in R.
  destruct (blank s).
  - destruct R as (F & st' & Hst' & T). rewrite F, T.
    cbn [tokenize_bytes].
    destruct (blank_step rws ex Hst') as [B1 B2]. now rewrite B1, B2.
  - destruct R as (F & p' & T & Rw & E & I & Pe).
    rewrite T. cbn [tokenize_bytes].
    destruct (close_line I) as [C1 C2]. rewrite C1, C2, Pe, Rw, E.
    cbn [rows expected_fields before_record].
    destruct (ws_fields_from None s) as [|f fs]; [now destruct F|].
    split; [|reflexivity].
    now destruct (push_row rws ex (f :: fs)) as [[r e]|].
Qed.

Lemma join_cons2 (sep l l2 : str) (ls : list str) :
  join sep (l :: l2 :: ls) = (l ++ sep) ++ join sep (l2 :: ls).
Proof. cbn [join]. now rewrite app_assoc. Qed.

(** All the lines. *)
Lemma run_lines (lines : list str) :
  Forall (Forall (fun c => line_char c = true)) lines ->
  forall rws ex,
  finish (tokenize_bytes (before_record rws ex) (join [LF] lines))
  = feed rws ex (filter (@nonempty str) (map ws_fields lines)).
Proof.
  induction 1 as [|l ls Hl Hls IH]; intros rws ex; [reflexivity|].
  destruct (run_one_line rws ex Hl) as [R1 R2].
  destruct ls as [|l2 ls].
  - cbn [join map filter]. rewrite R2.
    destruct (ws_fields l) as [|f fs]; [reflexivity|].
    cbn [nonempty feed]. now destruct (push_row rws ex (f :: fs)) as [[r e]|].
  - rewrite join_cons2, tokenize_bytes_app, R1.
    cbn [map filter] in *.
    destruct (ws_fields l) as [|f fs]; cbn [nonempty].
    + apply IH.
    + cbn [feed]. destruct (push_row rws ex (f :: fs)) as [[r e]|];
        [apply IH|reflexivity].
Qed.

(** The rows of [feed] are those of [rows_of_records], last first. *)
Lemma feed_later (records : list (list str)) : forall rws ex,
  rws <> [] ->
  feed rws ex records =
    match later_rows ex records with
    | Ret rs => Ret (rev rs ++ rws)
    | Raise e => Raise e
    end.
Proof.
  induction records as [|r records IH]; intros rws ex Hne;
    cbn [feed later_rows]; [reflexivity|].
  unfold push_row. destruct rws as [|r0 rws]; [congruence|].
  destruct (ex <? length r); [reflexivity|].
  rewrite IH by discriminate.
  destruct (later_rows ex records); [|reflexivity].
  cbn [rev]. now rewrite <- app_assoc.
Qed.

Lemma feed_first (n : nat) (records : list (list str)) :
  feed [] n records =
    match rows_of_records n records with
    | Ret rs => Ret (rev rs)
    | Raise e => Raise e
    end.
Proof.
  destruct records as [|r records]; [reflexivity|].
  cbn [feed push_row rows_of_records]. rewrite feed_later by discriminate.
  now destruct (later_rows _ records).
Qed.

Lemma skip_bom_none (data : str) :
  Forall (fun c => (c =? 65279)%N = false) data -> skip_bom data = data.
Proof.
  destruct 1 as [|c data Hc _]; [reflexivity|].
  unfold skip_bom. apply N.eqb_neq in Hc.
  destruct c as [|p]; [reflexivity|].
  repeat (destruct p as [p|p|]; try reflexivity). congruence.
Qed.

Lemma Forall_join (P : char -> Prop) (sep : str) (lines : list str) :
  Forall P sep -> Forall (Forall P) lines -> Forall P (join sep lines).
Proof.
  intros Hsep. induction 1 as [|l ls Hl Hls IH]; [constructor|].
  destruct ls as [|l2 ls]; [exact Hl|].
  rewrite join_cons2. repeat (apply Forall_app; split); auto.
Qed.

(** The rows of a text of plain lines. *)
Lemma tokenize_all_rows_lines (n : nat) (lines : list str) :
  Forall (Forall (fun c => line_char c = true)) lines ->
  Forall (Forall (fun c => (c =? 65279)%N = false)) lines ->
  tokenize_all_rows n (join [LF] lines)
  = rows_of_records n (filter (@nonempty str) (map ws_fields lines)).
Proof.
  intros Hl Hb. unfold tokenize_all_rows.
  rewrite skip_bom_none
    by (apply Forall_join; [repeat constructor|assumption]).
  pose proof (run_lines Hl [] n) as R. rewrite feed_first in R.
  unfold finish, before_record, parser_new in *.
  destruct (tokenize_bytes _ _) as [p|e].
  - destruct (parser_handle_eof p) as [p'|e];
      destruct (rows_of_records n _); try discriminate.
    + injection R as ->. now rewrite rev_involutive.
    + now injection R as ->.
  - destruct (rows_of_records n _); [discriminate|]. now injection R as ->.
Qed.

(** ** The lines of a text *)

Lemma splitlines_from_chars (P : char -> Prop) (s : str) :
  Forall P s ->
  forall cur after_cr,
  Forall (fun c => P c /\ islinebreak c = false) cur ->
  Forall (Forall (fun c => P c /\ islinebreak c = false))
         (splitlines_from cur after_cr s).
Proof.
  induction 1 as [|c s Hc Hs IH]; intros cur after_cr Hcur.
  - cbn. destruct cur; [constructor|].
    constructor; [|constructor]. now apply Forall_rev.
  - cbn [splitlines_from].
    destruct (after_cr && (c =? LF)%N); [apply IH; constructor|].
    destruct (islinebreak c) eqn:B.
    + constructor; [now apply Forall_rev|]. apply IH. constructor.
    + apply IH. constructor; auto.
Qed.

Lemma splitlines_chars (P : char -> Prop) (s : str) :
  Forall P s ->
  Forall (Forall (fun c => P c /\ islinebreak c = false)) (splitlines s).
Proof. intros H. apply splitlines_from_chars; [exact H|constructor]. Qed.

Lemma Forall_filter_own (A : Type) (P : A -> Prop) (f : A -> bool) (l : list A) :
  Forall P l -> Forall P (filter f l).
Proof.
  rewrite !Forall_forall. intros H x Hx. apply filter_In in Hx. now apply H.
Qed.

Lemma plain_line_char (c : char) :
  plain_char c = true /\ islinebreak c = false ->
  line_char c = true /\ (c =? 65279)%N = false.
Proof.
  unfold plain_char, line_char. intros [Hp Hb].
  apply andb_prop in Hp as [Hq Hbom].
  destruct (N.eqb_spec c LF) as [->|_]; [discriminate|].
  destruct (N.eqb_spec c CR) as [->|_]; [discriminate|].
  destruct (c =? QUOTE)%N; [discriminate|].
  destruct (c =? 65279)%N; [discriminate|]. now split.
Qed.

(** The data lines of a text of plain characters are plain lines. *)
Lemma data_lines_plain (text_data : str) :
  forallb plain_char text_data = true ->
  let lines := filter is_data_line (splitlines text_data) in
  Forall (Forall (fun c => line_char c = true)) lines
  /\ Forall (Forall (fun c => (c =? 65279)%N = false)) lines.
Proof.
  intros Hp lines.
  assert (H : Forall (Forall (fun c => line_char c = true
                                       /\ (c =? 65279)%N = false)) lines).
  { subst lines. apply Forall_filter_own.
    rewrite forallb_forall in Hp.
    assert (Hp' : Forall (fun c => plain_char c = true) text_data)
      by (apply Forall_forall; exact Hp).
    eapply Forall_impl; [|exact (splitlines_chars Hp')].
    intros l Hl. eapply Forall_impl; [|exact Hl].
    intros c Hc. now apply plain_line_char. }
  split; (eapply Forall_impl; [|exact H]); intros l Hl;
    (eapply Forall_impl; [|exact Hl]); now intros c [? ?].
Qed.

Lemma ws_fields_blank (l : str) : nonempty (ws_fields l) = negb (blank l).
Proof.
  unfold ws_fields, blank.
  induction l as [|c l IH]; [reflexivity|].
  cbn [ws_fields_from forallb]. destruct (IS_WHITESPACE c); [exact IH|].
  cbn [andb negb]. pose proof (@ws_fields_from_Some l [c]) as H.
  match goal with
  | |- nonempty ?x = true =>
      assert (Hx : x <> []) by exact H; destruct x;
      [now destruct Hx|reflexivity]
  end.
Qed.

Lemma records_of_lines (lines : list str) :
  filter (@nonempty str) (map ws_fields lines)
  = map ws_fields (filter (fun l => negb (blank l)) lines).
Proof.
  induction lines as [|l lines IH]; [reflexivity|].
  cbn [map filter]. rewrite ws_fields_blank.
  destruct (negb (blank l)); cbn [map]; now rewrite IH.
Qed.

(** What [read_csv] gives for the data lines of a plain text. *)
Lemma tokenize_data_lines (text_data : str) :
  forallb plain_char text_data = true ->
  let lines := filter is_data_line (splitlines text_data) in
  tokenize_all_rows (length columns) (join [LF] lines)
  = rows_of_records 24
      (map ws_fields (filter (fun l => negb (blank l)) lines)).
Proof.
  intros Hp lines. destruct (data_lines_plain _ Hp) as [H1 H2].
  fold lines in H1, H2.
  rewrite (tokenize_all_rows_lines _ H1 H2), records_of_lines. reflexivity.
Qed.

Lemma later_rows_raises (ex : nat) (records : list (list str)) (r : list str) :
  In r records -> ex < length r ->
  exists e, later_rows ex records = Raise e.
Proof.
  induction records as [|r0 records IH]; [intros []|].
  intros Hin Hlt. cbn [later_rows].
  destruct (ex <? length r0) eqn:L; [eauto|].
  destruct Hin as [->|Hin]; [apply Nat.ltb_ge in L; lia|].
  destruct (IH Hin Hlt) as [e ->]. eauto.
Qed.

(** ** The theorems on the sample responses *)

Lemma parse_comments_only_witness :
  parse_kma_data Sample.comments = (Ret DF.new, []) /\ DF.empty DF.new = true.
Proof.
  apply parse_comments_only.
  change (splitlines Sample.comments)
    with [u "#START7777"; u "  # TM STN"].
  repeat constructor.
  - exists [], (u "START7777"). split; reflexivity.
  - exists (u "  "), (u " TM STN"). split; reflexivity.
Defined.

Lemma query_request_failed_witness :
  page (Sample.answers 404 (u "not found")) true Sample.key Sample.station
       Sample.day
  = (Ret tt,
     [st_spinner;
      requests_get (request_url Sample.day Sample.station Sample.key);
      st_error (MsgRequestFailed 404);
      st_code (u "not found")])
  /\ existsb is_render
       (snd (page (Sample.answers 404 (u "not found")) true Sample.key
                  Sample.station Sample.day)) = false.
Proof.
  apply (@query_request_failed (Sample.answers 404 (u "not found"))
           Sample.key Sample.station Sample.day
           (mk_Response 404 (fun _ => u "not found"))).
  - discriminate.
  - reflexivity.
  - discriminate.
Defined.

Lemma project_rows_present_witness :
  DF.nrows (projected (parsed Sample.with_inf))
    <= DF.nrows (parsed Sample.with_inf) /\
  forall i, i < DF.nrows (projected (parsed Sample.with_inf)) ->
    exists t x,
      DF.row (projected (parsed Sample.with_inf)) i
        = [(TM, CTimestamp t); (TW, x)]
      /\ Datetime.valid t = true
      /\ (is_number x = true \/ is_boolean x = true) /\ isna x = false.
Proof.
  apply (@project_rows_present Sample.with_inf (parsed Sample.with_inf)
           (projected (parsed Sample.with_inf)) [] []).
  - vm_compute. reflexivity.
  - vm_compute. reflexivity.
  - vm_compute. reflexivity.
Defined.


Lemma parsed_rows_have_all_fields_witness :
  map fst (DF.row (parsed Sample.one_row) 0) = columns
  /\ length (DF.row (parsed Sample.one_row) 0) = 24
  /\ forall name, In name columns ->
       exists col c, DF.lookup name (data (parsed Sample.one_row)) = Some col
                     /\ nth_error col 0 = Some c /\ raw_cell c = true
                     /\ In (name, c) (DF.row (parsed Sample.one_row) 0).
Proof.
  apply (@parsed_rows_have_all_fields Sample.one_row
           (parsed Sample.one_row) [] 0).
  - vm_compute. reflexivity.
  - vm_compute. apply le_n.
Defined.

(** ** C3, C5 and C2 as the spec states them: counterexamples *)

(** C3 fails: the time of the one observation is parsed to the integer
    202401010000, not kept as text. *)
Lemma parsed_cell_is_not_text :
  parse_kma_data Sample.one_row = (Ret (parsed Sample.one_row), [])
  /\ DF.nrows (parsed Sample.one_row) = 1
  /\ DF.lookup TM (data (parsed Sample.one_row)) = Some [CInt 202401010000]
  /\ is_text (CInt 202401010000) = false.
Proof. vm_compute. repeat split; reflexivity. Qed.

(** C5 fails: a water temperature [inf] stays in the projected table,
    and it is not finite; a water temperature [True] stays in it as a
    boolean, which is no number. *)
Lemma projected_temperature_not_finite :
  parse_kma_data Sample.with_inf = (Ret (parsed Sample.with_inf), [])
  /\ project (parsed Sample.with_inf)
     = (Ret (projected (parsed Sample.with_inf)), [])
  /\ DF.lookup TW (data (projected (parsed Sample.with_inf)))
     = Some [CFloat (FInf false)]
  /\ is_finite (CFloat (FInf false)) = false
  /\ parse_kma_data Sample.with_true = (Ret (parsed Sample.with_true), [])
  /\ project (parsed Sample.with_true)
     = (Ret (projected (parsed Sample.with_true)), [])
  /\ DF.lookup TW (data (projected (parsed Sample.with_true)))
     = Some [CBool true]
  /\ is_number (CBool true) = false
  /\ is_finite (CBool true) = false.
Proof. vm_compute. repeat split; reflexivity. Qed.

(** C2 fails: a data line of 23 fields does not end the parse. No error
    is reported, the table has the row, with the missing value for its
    water temperature, and the page shows the no-valid-data warning and
    not the raw text. Nor does a first data line of 25 fields: no error
    is reported and the table has the row. *)
Lemma short_row_is_parsed :
  map (fun l => length (ws_fields l))
      (filter is_data_line (splitlines Sample.short_row)) = [23]
  /\ parse_kma_data Sample.short_row = (Ret (parsed Sample.short_row), [])
  /\ DF.nrows (parsed Sample.short_row) = 1
  /\ DF.lookup TW (data (parsed Sample.short_row)) = Some [NaN]
  /\ page (Sample.answers 200 Sample.short_row) true Sample.key
          Sample.station Sample.day
     = (Ret tt,
        [st_spinner;
         requests_get (request_url Sample.day Sample.station Sample.key);
         st_warning MsgNoValidData])
  /\ map (fun l => length (ws_fields l))
         (filter is_data_line (splitlines Sample.long_first)) = [25]
  /\ parse_kma_data Sample.long_first = (Ret (parsed Sample.long_first), [])
  /\ DF.nrows (parsed Sample.long_first) = 1.
Proof. vm_compute. repeat split; reflexivity. Qed.

(** ** C1 *)

(** C1 on the code: with commas between its 24 fields the observation is
    read as one field, the whole line as the text of the time column and
    the missing value in the 23 other columns; with spaces or with tabs
    it is read as 24 fields, the same for both. *)
Theorem commas_are_not_delimiters :
  parse_kma_data Sample.with_commas <> parse_kma_data Sample.with_spaces
  /\ DF.lookup TM (data (parsed Sample.with_commas))
     = Some [CStr Sample.with_commas]
  /\ DF.lookup TW (data (parsed Sample.with_commas)) = Some [NaN]
  /\ DF.lookup TM (data (parsed Sample.with_spaces))
     = Some [CInt 202401010000]
  /\ DF.lookup TW (data (parsed Sample.with_spaces))
     = Some [CFloat (FNum false 152 (-1))]
  /\ parse_kma_data Sample.with_tabs = parse_kma_data Sample.with_spaces.
Proof.
  split; [vm_compute; discriminate|].
  vm_compute. repeat split; reflexivity.
Qed.

(** ** Further properties of the page and of the parse *)

(** X1. In a text without double quotes and without a byte order mark, the
    rows read of the data lines are the fields of each line that is not
    blank, split at runs of white space alone, the first record setting
    the width (at least the 24 names) and shorter records filled with
    empty fields. *)
Theorem data_lines_split_on_whitespace (text_data : str) :
  forallb plain_char text_data = true ->
  tokenize_all_rows (length columns)
    (join [LF] (filter is_data_line (splitlines text_data)))
  = rows_of_records 24
      (map ws_fields
         (filter (fun l => negb (blank l))
                 (filter is_data_line (splitlines text_data)))).
Proof. intros H. exact (tokenize_data_lines text_data H). Qed.

Lemma data_lines_split_on_whitespace_witness :
  tokenize_all_rows (length columns)
    (join [LF] (filter is_data_line (splitlines Sample.one_row)))
  = rows_of_records 24
      (map ws_fields
         (filter (fun l => negb (blank l))
                 (filter is_data_line (splitlines Sample.one_row)))).
Proof.
  apply (data_lines_split_on_whitespace Sample.one_row).
  vm_compute. reflexivity.
Defined.

(** X2. A table with rows that [parse_kma_data] returns has the 24 names
    as its columns, in their order, and no error was reported. *)
Theorem parsed_table_columns (text_data : str) (df : DataFrame)
    (trace : list event) :
  parse_kma_data text_data = (Ret df, trace) ->
  DF.empty df = false ->
  trace = [] /\ DF.columns df = columns.
Proof.
  intros P E. destruct (parse_kma_data_shape _ P) as [->|(T & C & _)].
  - discriminate.
  - now split.
Qed.

Lemma parsed_table_columns_witness :
  [] = ([] : list event) /\ DF.columns (parsed Sample.one_row) = columns.
Proof.
  apply (@parsed_table_columns Sample.one_row (parsed Sample.one_row) []).
  - vm_compute. reflexivity.
  - vm_compute. reflexivity.
Defined.

(** X3. When the request raises a [RequestException], the page shows the
    network error with it and nothing else after the spinner; the
    exception does not leave the page. *)
Theorem query_network_error (requests_get_ : str -> outcome Response)
    (auth_key station_id msg : str) (selected_date : date) :
  auth_key <> [] ->
  requests_get_ (request_url selected_date station_id auth_key)
    = Raise (RequestException msg) ->
  page requests_get_ true auth_key station_id selected_date
  = (Ret tt,
     [st_spinner;
      requests_get (request_url selected_date station_id auth_key);
      st_error (MsgNetworkError (RequestException msg))]).
Proof.
  intros Hk Hnet. unfold page. rewrite (query_with_key _ _ _ Hk).
  cbv zeta. unfold bind at 2. unfold emit at 2. unfold lift, bind at 2.
  rewrite Hnet. reflexivity.
Qed.

Lemma query_network_error_witness :
  page (fun _ => Raise (RequestException (u "timeout"))) true Sample.key
       Sample.station Sample.day
  = (Ret tt,
     [st_spinner;
      requests_get (request_url Sample.day Sample.station Sample.key);
      st_error (MsgNetworkError (RequestException (u "timeout")))]).
Proof.
  apply (@query_network_error (fun _ => Raise (RequestException (u "timeout")))
           Sample.key Sample.station (u "timeout") Sample.day).
  - discriminate.
  - reflexivity.
Defined.

(** ** The station selector *)

Lemma station_name_entry (x name : str) :
  In (x, name) STATION_INFO -> station_name x = Ret name.
Proof.
  unfold STATION_INFO. intros H. simpl in H.
  repeat (destruct H as [H|H]; [injection H as <- <-; reflexivity|]).
  contradiction.
Qed.

Lemma station_name_options (x : str) :
  In x options -> exists name, In (x, name) STATION_INFO /\ station_name x = Ret name.
Proof.
  unfold options. intros H. apply in_map_iff in H as ((k & name) & <- & H).
  exists name. split; [exact H|]. now apply station_name_entry.
Qed.

Lemma station_name_other (x : str) :
  ~ In x options -> station_name x = Raise (KeyError x).
Proof.
  unfold station_name. intros H.
  destruct (find _ STATION_INFO) as [kv|] eqn:E; [|reflexivity].
  apply find_some in E as (Hin & Heq). apply str_eqb_eq in Heq. subst x.
  exfalso. apply H. unfold options. now apply in_map.
Qed.

(** X4. For every code the selector offers, the label shown is the name of
    the station and the code in brackets, the name being the one of the
    code's entry in [STATION_INFO]; the lookup of the name does not raise. *)
Theorem format_func_options (x : str) :
  In x options ->
  exists name,
    In (x, name) STATION_INFO
    /\ format_func x = Ret (name ++ u " (" ++ x ++ u ")")
    /\ station_name x = Ret name.
Proof.
  intros H. destruct (station_name_options H) as (name & Hin & Hn).
  exists name. unfold format_func. rewrite Hn. auto.
Qed.

Lemma format_func_options_witness :
  exists name,
    In (u "22105", name) STATION_INFO
    /\ format_func (u "22105") = Ret (name ++ u " (" ++ u "22105" ++ u ")")
    /\ station_name (u "22105") = Ret name.
Proof.
  apply (@format_func_options (u "22105")).
  vm_compute. tauto.
Defined.

(** ** The outcomes of a query *)

Lemma has_column_lookup (name : str) (df : DataFrame) :
  DF.has_column name df = true ->
  exists col, DF.lookup name (data df) = Some col.
Proof.
  unfold DF.has_column, DF.columns. intros H.
  apply existsb_exists in H as (n & Hin & Heq). apply str_eqb_eq in Heq.
  subst n. destruct (lookup_columns _ _ Hin) as (col & Hc & _). eauto.
Qed.

Lemma parse_kma_data_ret (text_data : str) :
  parse_kma_data text_data
  = (Ret (parsed text_data), snd (parse_kma_data text_data)).
Proof.
  unfold parsed.
  destruct (filter is_data_line (splitlines text_data)) as [|l ls] eqn:E.
  - unfold parse_kma_data. rewrite E. reflexivity.
  - rewrite (parse_kma_data_read _ E).
    now destruct (read_csv _ _).
Qed.

(** A parsed table with rows: nothing was reported, and the two columns
    are there. *)
Lemma parsed_not_empty (text_data : str) :
  DF.empty (parsed text_data) = false ->
  snd (parse_kma_data text_data) = []
  /\ DF.has_column TW (parsed text_data) = true
  /\ DF.has_column TM (parsed text_data) = true.
Proof.
  intros E. pose proof (parse_kma_data_ret text_data) as P.
  destruct (parse_kma_data_shape _ P) as [N|(T & C & _)].
  - rewrite N in E. discriminate.
  - split; [exact T|]. unfold DF.has_column. rewrite C. split; reflexivity.
Qed.

Lemma project_ret (df : DataFrame) (tm tw : list cell) :
  DF.lookup TM (data df) = Some tm ->
  DF.lookup TW (data df) = Some tw ->
  project df = (Ret (projected df), [])
  /\ exists tm' tw',
       projected df = mk_DataFrame (index (projected df)) [(TM, tm'); (TW, tw')].
Proof.
  intros Htm Htw. unfold projected. rewrite (project_steps _ Htm Htw).
  split; [reflexivity|]. cbn [fst]. unfold DF.dropna.
  cbn [index data map fst snd]. eauto.
Qed.

Lemma page_response (requests_get_ : str -> outcome Response)
    (auth_key station_id : str) (selected_date : date) (response : Response)
    (t : list event) :
  auth_key <> [] ->
  requests_get_ (request_url selected_date station_id auth_key) = Ret response ->
  handle_response station_id selected_date response = (Ret tt, t) ->
  page requests_get_ true auth_key station_id selected_date
  = (Ret tt,
     st_spinner
     :: requests_get (request_url selected_date station_id auth_key) :: t).
Proof.
  intros Hk Hnet Hh. unfold page. rewrite (query_with_key _ _ _ Hk).
  cbv zeta. rewrite Hnet. unfold lift, bind at 3. rewrite Hh. reflexivity.
Qed.

Lemma show_result_two (station_id name : str) (selected_date : date)
    (idx : list label) (tm tw : list cell) :
  station_name station_id = Ret name ->
  show_result station_id selected_date (mk_DataFrame idx [(TM, tm); (TW, tw)])
  = (Ret tt,
     success_events name selected_date
       (mk_DataFrame idx [(TM, tm); (TW, tw)]) tm tw).
Proof.
  intros Hn. unfold show_result. rewrite Hn. reflexivity.
Qed.

Lemma project_raises (df : DataFrame) :
  DF.lookup TM (data df) = None \/ DF.lookup TW (data df) = None ->
  projected df = DF.new.
Proof.
  intros H. unfold projected, project, DF.select, DF.getitem_list, DF.getitem.
  destruct (DF.lookup TM (data df)), (DF.lookup TW (data df));
    destruct H; try discriminate; reflexivity.
Qed.

Lemma projected_of_empty (df : DataFrame) :
  DF.empty df = true -> DF.empty (projected df) = true.
Proof.
  intros E.
  destruct (DF.lookup TM (data df)) as [tm|] eqn:Htm;
    [destruct (DF.lookup TW (data df)) as [tw|] eqn:Htw|].
  - unfold projected. rewrite (project_steps _ Htm Htw). cbn [fst].
    unfold DF.empty in *. apply orb_true_iff in E as [E|E].
    + apply Nat.eqb_eq in E. destruct (index df); [|discriminate].
      unfold DF.dropna. cbn [index]. now destruct (DF.notna_mask _ _).
    + apply Nat.eqb_eq in E. destruct (data df); [discriminate|discriminate].
  - rewrite project_raises; auto.
  - rewrite project_raises; auto.
Qed.

(** The response 200, by the table it parses to. *)
Lemma handle_response_empty (station_id : str) (selected_date : date)
    (response : Response) :
  status_code response = 200%Z ->
  DF.empty (parsed (text response euc_kr)) = true ->
  handle_response station_id selected_date response
  = (Ret tt,
     snd (parse_kma_data (text response euc_kr))
     ++ [st_error MsgNoData; st_code (text response euc_kr)]).
Proof.
  intros Hs He. unfold handle_response. rewrite Hs. cbv zeta.
  change (200 =? 200)%Z with true. cbv iota.
  rewrite (parse_kma_data_ret (text response euc_kr)).
  unfold bind at 1. rewrite He. reflexivity.
Qed.

Lemma handle_response_rows (station_id : str) (selected_date : date)
    (response : Response) :
  status_code response = 200%Z ->
  DF.empty (parsed (text response euc_kr)) = false ->
  handle_response station_id selected_date response
  = if DF.empty (projected (parsed (text response euc_kr)))
    then (Ret tt, [st_warning MsgNoValidData])
    else show_result station_id selected_date
           (projected (parsed (text response euc_kr))).
Proof.
  intros Hs He. unfold handle_response. rewrite Hs. cbv zeta.
  change (200 =? 200)%Z with true. cbv iota.
  destruct (parsed_not_empty _ He) as (T & Htw & Htm).
  rewrite (parse_kma_data_ret (text response euc_kr)). rewrite T.
  unfold bind at 1. rewrite He, Htw, Htm. cbn [negb andb].
  destruct (has_column_lookup _ _ Htm) as (tm & Ltm).
  destruct (has_column_lookup _ _ Htw) as (tw & Ltw).
  destruct (project_ret _ Ltm Ltw) as (P & _). rewrite P.
  unfold bind at 1.
  destruct (DF.empty (projected _)); cbn [negb].
  - reflexivity.
  - now destruct (show_result _ _ _).
Qed.

Lemma projected_parsed_shape (text_data : str) :
  DF.empty (parsed text_data) = false ->
  exists tm tw,
    projected (parsed text_data)
    = mk_DataFrame (index (projected (parsed text_data))) [(TM, tm); (TW, tw)]
    /\ length tm = DF.nrows (projected (parsed text_data))
    /\ length tw = DF.nrows (projected (parsed text_data))
    /\ Forall (fun c => is_timestamp c = true) tm
    /\ Forall (fun c => is_number c = true \/ is_boolean c = true) tw.
Proof.
  intros He. pose proof (parse_kma_data_ret text_data) as P.
  destruct (parse_kma_data_TM_TW _ P He) as (tm & tw & Ltm & Ltw & Otm & Otw).
  destruct (project_parsed _ Ltm Ltw Otm Otw) as (Pr & Ftm & Ftw).
  unfold projected. rewrite Pr. cbn [fst index].
  eexists _, _. split; [reflexivity|].
  destruct Otm as (Lm & _), Otw as (Lw & _). cbn [snd] in Lm, Lw.
  unfold DF.nrows in *. cbn [index].
  split; [|split; [|split]]; auto.
  - apply take_length_eq. unfold Datetime.to_datetime. now rewrite length_map.
  - apply take_length_eq. unfold to_numeric. now rewrite length_map.
Qed.

(** X5. A response 200 whose text has rows that pass the projection: the
    page shows the success message with the name of the station and the
    date, then the chart and the table, and nothing else. The chart has
    one point for each row of the projected table, a water temperature
    over its time, and the table is the projected table under the two
    Korean headers; every time is a valid timestamp and every
    temperature is a number, which can be an infinity, or a boolean
    (which a column of the words [True] and [False] holds). *)
Theorem query_success (requests_get_ : str -> outcome Response)
    (auth_key station_id : str) (selected_date : date) (response : Response) :
  auth_key <> [] ->
  requests_get_ (request_url selected_date station_id auth_key) = Ret response ->
  status_code response = 200%Z ->
  In station_id options ->
  DF.empty (projected (parsed (text response euc_kr))) = false ->
  exists name tm tw,
    In (station_id, name) STATION_INFO
    /\ projected (parsed (text response euc_kr))
       = mk_DataFrame (index (projected (parsed (text response euc_kr))))
           [(TM, tm); (TW, tw)]
    /\ page requests_get_ true auth_key station_id selected_date
       = (Ret tt,
          st_spinner
          :: requests_get (request_url selected_date station_id auth_key)
          :: success_events name selected_date
               (projected (parsed (text response euc_kr))) tm tw)
    /\ length tm = DF.nrows (projected (parsed (text response euc_kr)))
    /\ length tw = DF.nrows (projected (parsed (text response euc_kr)))
    /\ Forall (fun c => is_timestamp c = true) tm
    /\ Forall (fun c => is_number c = true \/ is_boolean c = true) tw.
Proof.
  intros Hk Hnet Hs Hst Hr.
  assert (He : DF.empty (parsed (text response euc_kr)) = false).
  { destruct (DF.empty (parsed _)) eqn:E; [|reflexivity].
    now rewrite (projected_of_empty _ E) in Hr. }
  destruct (station_name_options Hst) as (name & Hin & Hn).
  destruct (projected_parsed_shape _ He) as (tm & tw & Sh & Lm & Lw & Fm & Fw).
  exists name, tm, tw. repeat split; auto.
  eapply page_response; [exact Hk|exact Hnet|].
  rewrite (handle_response_rows _ _ _ Hs He), Hr.
  rewrite Sh at 1. erewrite show_result_two by exact Hn. now rewrite <- Sh.
Qed.

Lemma query_success_witness :
  exists name tm tw,
    In (Sample.station, name) STATION_INFO
    /\ projected (parsed Sample.one_row)
       = mk_DataFrame (index (projected (parsed Sample.one_row)))
           [(TM, tm); (TW, tw)]
    /\ page (Sample.answers 200 Sample.one_row) true Sample.key Sample.station
            Sample.day
       = (Ret tt,
          st_spinner
          :: requests_get (request_url Sample.day Sample.station Sample.key)
          :: success_events name Sample.day
               (projected (parsed Sample.one_row)) tm tw)
    /\ length tm = DF.nrows (projected (parsed Sample.one_row))
    /\ length tw = DF.nrows (projected (parsed Sample.one_row))
    /\ Forall (fun c => is_timestamp c = true) tm
    /\ Forall (fun c => is_number c = true \/ is_boolean c = true) tw.
Proof.
  apply (@query_success (Sample.answers 200 Sample.one_row) Sample.key
           Sample.station Sample.day (mk_Response 200 (fun _ => Sample.one_row))).
  - discriminate.
  - reflexivity.
  - reflexivity.
  - vm_compute. tauto.
  - vm_compute. reflexivity.
Defined.

(** X6. A response 200 whose text parses to a table with rows, none of
    which has both a time and a water temperature that convert: the page
    shows the warning that there are no valid data, and neither the raw
    text nor the chart or the table. *)
Theorem query_no_valid_data (requests_get_ : str -> outcome Response)
    (auth_key station_id : str) (selected_date : date) (response : Response) :
  auth_key <> [] ->
  requests_get_ (request_url selected_date station_id auth_key) = Ret response ->
  status_code response = 200%Z ->
  DF.empty (parsed (text response euc_kr)) = false ->
  DF.empty (projected (parsed (text response euc_kr))) = true ->
  page requests_get_ true auth_key station_id selected_date
  = (Ret tt,
     [st_spinner;
      requests_get (request_url selected_date station_id auth_key);
      st_warning MsgNoValidData]).
Proof.
  intros Hk Hnet Hs He Hr. eapply page_response; [exact Hk|exact Hnet|].
  now rewrite (handle_response_rows _ _ _ Hs He), Hr.
Qed.

Lemma query_no_valid_data_witness :
  page (Sample.answers 200 Sample.with_commas) true Sample.key Sample.station
       Sample.day
  = (Ret tt,
     [st_spinner;
      requests_get (request_url Sample.day Sample.station Sample.key);
      st_warning MsgNoValidData]).
Proof.
  apply (@query_no_valid_data (Sample.answers 200 Sample.with_commas)
           Sample.key Sample.station Sample.day
           (mk_Response 200 (fun _ => Sample.with_commas))).
  - discriminate.
  - reflexivity.
  - reflexivity.
  - vm_compute. reflexivity.
  - vm_compute. reflexivity.
Defined.

(** X7. A response 200 whose text parses to a table without rows (no data
    line, or a parse that failed): after what the parse reported, which is
    nothing or the one parse error, the page shows the error that no data
    were found and the raw text, and neither the chart nor the table. *)
Theorem query_no_data (requests_get_ : str -> outcome Response)
    (auth_key station_id : str) (selected_date : date) (response : Response) :
  auth_key <> [] ->
  requests_get_ (request_url selected_date station_id auth_key) = Ret response ->
  status_code response = 200%Z ->
  DF.empty (parsed (text response euc_kr)) = true ->
  page requests_get_ true auth_key station_id selected_date
  = (Ret tt,
     st_spinner
     :: requests_get (request_url selected_date station_id auth_key)
     :: snd (parse_kma_data (text response euc_kr))
     ++ [st_error MsgNoData; st_code (text response euc_kr)])
  /\ (snd (parse_kma_data (text response euc_kr)) = []
      \/ exists e, snd (parse_kma_data (text response euc_kr))
                   = [st_error (MsgParseError e)])
  /\ existsb is_render
       (snd (page requests_get_ true auth_key station_id selected_date))
     = false.
Proof.
  intros Hk Hnet Hs He.
  assert (T : snd (parse_kma_data (text response euc_kr)) = []
      \/ exists e, snd (parse_kma_data (text response euc_kr))
                   = [st_error (MsgParseError e)]).
  { destruct (filter is_data_line (splitlines (text response euc_kr)))
      as [|l ls] eqn:E.
    - left. unfold parse_kma_data. now rewrite E.
    - rewrite (parse_kma_data_read _ E).
      destruct (read_csv _ _); [now left|right; eexists; reflexivity]. }
  assert (P : page requests_get_ true auth_key station_id selected_date
    = (Ret tt,
       st_spinner
       :: requests_get (request_url selected_date station_id auth_key)
       :: snd (parse_kma_data (text response euc_kr))
       ++ [st_error MsgNoData; st_code (text response euc_kr)])).
  { eapply page_response; [exact Hk|exact Hnet|].
    now apply handle_response_empty. }
  split; [exact P|]. split; [exact T|]. rewrite P.
  destruct T as [->|(e & ->)]; reflexivity.
Qed.

Lemma query_no_data_witness :
  page (Sample.answers 200 Sample.comments) true Sample.key Sample.station
       Sample.day
  = (Ret tt,
     st_spinner
     :: requests_get (request_url Sample.day Sample.station Sample.key)
     :: snd (parse_kma_data Sample.comments)
     ++ [st_error MsgNoData; st_code Sample.comments])
  /\ (snd (parse_kma_data Sample.comments) = []
      \/ exists e, snd (parse_kma_data Sample.comments)
                   = [st_error (MsgParseError e)])
  /\ existsb is_render
       (snd (page (Sample.answers 200 Sample.comments) true Sample.key
                  Sample.station Sample.day))
     = false.
Proof.
  apply (@query_no_data (Sample.answers 200 Sample.comments)
           Sample.key Sample.station Sample.day
           (mk_Response 200 (fun _ => Sample.comments))).
  - discriminate.
  - reflexivity.
  - reflexivity.
  - vm_compute. reflexivity.
Defined.

Lemma handle_response_other (station_id : str) (selected_date : date)
    (response : Response) :
  status_code response <> 200%Z ->
  handle_response station_id selected_date response
  = (Ret tt,
     [st_error (MsgRequestFailed (status_code response));
      st_code (text response apparent_encoding)]).
Proof.
  intros H. unfold handle_response. apply Z.eqb_neq in H. now rewrite H.
Qed.

(** With a station of the selector, a response is always handled. *)
Lemma handle_response_returns (station_id : str) (selected_date : date)
    (response : Response) :
  In station_id options ->
  exists t, handle_response station_id selected_date response = (Ret tt, t).
Proof.
  intros Hst. destruct (Z.eq_dec (status_code response) 200) as [Hs|Hs].
  - destruct (DF.empty (parsed (text response euc_kr))) eqn:He.
    + rewrite (handle_response_empty _ _ _ Hs He). eauto.
    + rewrite (handle_response_rows _ _ _ Hs He).
      destruct (DF.empty (projected _)) eqn:Hr; [eauto|].
      destruct (station_name_options Hst) as (name & _ & Hn).
      destruct (projected_parsed_shape _ He) as (tm & tw & Sh & _).
      rewrite Sh. erewrite show_result_two by exact Hn. eauto.
  - rewrite (handle_response_other _ _ _ Hs). eauto.
Qed.

(** X8. The page never raises for a station of the selector, so long as
    the request returns a response or raises a [RequestException]: the
    columns the projection reads are checked before, the name of the
    station is in the table, and a failed parse was caught. *)
Theorem page_never_raises (requests_get_ : str -> outcome Response)
    (button : bool) (auth_key station_id : str) (selected_date : date) :
  In station_id options ->
  (forall e,
     requests_get_ (request_url selected_date station_id auth_key) = Raise e ->
     isinstance_RequestException e = true) ->
  fst (page requests_get_ button auth_key station_id selected_date) = Ret tt.
Proof.
  intros Hst Hnet. destruct button; [|reflexivity].
  destruct auth_key as [|c k]; [reflexivity|].
  assert (Hk : c :: k <> []) by discriminate.
  destruct (requests_get_ (request_url selected_date station_id (c :: k)))
    as [response|e] eqn:N.
  - destruct (handle_response_returns selected_date response Hst) as (t & Ht).
    now rewrite (@page_response requests_get_ (c :: k) station_id selected_date response t Hk N Ht).
  - unfold page. rewrite (query_with_key _ _ _ Hk). cbv zeta. rewrite N.
    unfold lift, bind at 3. unfold bind, emit, try_except.
    now rewrite (Hnet e eq_refl).
Qed.

Lemma page_never_raises_witness :
  fst (page (Sample.answers 200 Sample.one_row) true Sample.key Sample.station
            Sample.day) = Ret tt.
Proof.
  apply (@page_never_raises (Sample.answers 200 Sample.one_row) true
           Sample.key Sample.station Sample.day).
  - vm_compute. tauto.
  - intros e H. discriminate H.
Defined.

(** X9. An exception of the request that is not a [RequestException] is
    not caught: it leaves the page, after the spinner and the request,
    and no message is shown for it. *)
Theorem query_other_exception (requests_get_ : str -> outcome Response)
    (auth_key station_id : str) (selected_date : date) (e : exn) :
  auth_key <> [] ->
  requests_get_ (request_url selected_date station_id auth_key) = Raise e ->
  isinstance_RequestException e = false ->
  page requests_get_ true auth_key station_id selected_date
  = (Raise e,
     [st_spinner;
      requests_get (request_url selected_date station_id auth_key)]).
Proof.
  intros Hk N He. unfold page. rewrite (query_with_key _ _ _ Hk). cbv zeta.
  rewrite N. unfold lift, bind at 3. unfold bind, emit, try_except.
  now rewrite He.
Qed.

Lemma query_other_exception_witness :
  page (fun _ => Raise KeyboardInterrupt) true Sample.key Sample.station
       Sample.day
  = (Raise KeyboardInterrupt,
     [st_spinner;
      requests_get (request_url Sample.day Sample.station Sample.key)]).
Proof.
  apply (@query_other_exception (fun _ => Raise KeyboardInterrupt)
           Sample.key Sample.station Sample.day KeyboardInterrupt).
  - discriminate.
  - reflexivity.
  - reflexivity.
Defined.

(** ** The data lines *)

Lemma lstrip_split (s : str) :
  exists ws, s = ws ++ lstrip s /\ forallb isspace ws = true.
Proof.
  induction s as [|c s (ws & E & H)]; simpl.
  - now exists [].
  - destruct (isspace c) eqn:C.
    + exists (c :: ws). simpl. rewrite C, H. split; [now f_equal|reflexivity].
    + now exists [].
Qed.

Lemma rstrip_prefix (s : str) : exists suffix, s = rstrip s ++ suffix.
Proof.
  unfold rstrip. destruct (lstrip_split (rev s)) as (ws & E & _).
  exists (rev ws). rewrite <- rev_app_distr, <- E. now rewrite rev_involutive.
Qed.

Lemma startswith_hash (s : str) :
  startswith s [HASH] = true -> exists rest, s = HASH :: rest.
Proof.
  destruct s as [|c s]; simpl; [discriminate|].
  intros H. apply andb_prop in H as [H _]. apply N.eqb_eq in H. subst c. eauto.
Qed.

(** X10. The lines [parse_kma_data] leaves out are the lines whose first
    character that is not white space is [#], and no others: a [#] after
    a field does not make a line a comment. *)
Theorem is_data_line_iff (line : str) :
  is_data_line line = false <-> comment_line line.
Proof.
  split; [|apply comment_line_not_data].
  unfold is_data_line. intros H. apply negb_false_iff in H.
  apply startswith_hash in H as (rest & H). unfold strip in H.
  destruct (rstrip_prefix (lstrip line)) as (suffix & E). rewrite H in E.
  destruct (lstrip_split line) as (ws & L & Hws).
  exists ws, (rest ++ suffix). split; [|exact Hws].
  rewrite L at 1. now rewrite E.
Qed.

(** ** The table of a text without double quotes *)

Lemma existsb_rev_own (A : Type) (P : A -> bool) (l : list A) :
  existsb P (rev l) = existsb P l.
Proof.
  induction l as [|x l IH]; [reflexivity|].
  cbn [rev existsb]. rewrite existsb_app, IH. cbn [existsb].
  now destruct (P x), (existsb P l).
Qed.

(** A property no space or tab has holds of a character of a line when it
    holds of a character of a field of the line. *)
Lemma existsb_ws_fields_from (P : char -> bool) :
  (forall c, IS_WHITESPACE c = true -> P c = false) ->
  forall s w,
  existsb (existsb P) (ws_fields_from w s)
  = existsb P (match w with Some w' => w' | None => [] end) || existsb P s.
Proof.
  intros HP. induction s as [|c s IH]; intros w.
  - destruct w as [w'|]; cbn [ws_fields_from existsb]; [|reflexivity].
    rewrite existsb_rev_own. now destruct (existsb P w').
  - cbn [ws_fields_from existsb]. destruct (IS_WHITESPACE c) eqn:W.
    + rewrite (HP _ W). destruct w as [w'|]; cbn [existsb]; rewrite IH.
      * rewrite existsb_rev_own. cbn [existsb]. reflexivity.
      * reflexivity.
    + rewrite IH. cbn [existsb].
      now destruct (P c), (existsb P s), w as [w'|];
        try destruct (existsb P w').
Qed.

Lemma existsb_join (P : char -> bool) (lines : list str) :
  P LF = false ->
  existsb P (join [LF] lines) = existsb (existsb P) lines.
Proof.
  intros HP. induction lines as [|l [|l' ls] IH].
  - reflexivity.
  - cbn [join existsb]. now destruct (existsb P l).
  - change (join [LF] (l :: l' :: ls)) with (l ++ [LF] ++ join [LF] (l' :: ls)).
    rewrite !existsb_app, IH. cbn [existsb]. rewrite HP. reflexivity.
Qed.

Lemma existsb_data_lines (P : char -> bool) (lines : list str) :
  (forall c, IS_WHITESPACE c = true -> P c = false) -> P LF = false ->
  existsb P (join [LF] lines)
  = existsb (existsb (existsb P))
      (map ws_fields (filter (fun l => negb (blank l)) lines)).
Proof.
  intros HP HL. rewrite (existsb_join _ _ HL).
  induction lines as [|l ls IH]; [reflexivity|].
  cbn [existsb filter]. rewrite IH.
  pose proof (existsb_ws_fields_from P HP l None) as E.
  cbn [existsb orb] in E. fold (ws_fields l) in E.
  pose proof (ws_fields_blank l) as B.
  destruct (blank l); cbn [negb] in *.
  - destruct (ws_fields l); [|discriminate]. cbn [existsb] in E.
    now rewrite <- E.
  - cbn [map existsb]. now rewrite E.
Qed.

Lemma whitespace_no_surrogate (c : char) :
  IS_WHITESPACE c = true -> is_surrogate c = false.
Proof.
  unfold IS_WHITESPACE, is_surrogate. intros H.
  apply orb_prop in H as [H|H]; apply N.eqb_eq in H; subst c; reflexivity.
Qed.

(** What [read_csv] gives for the data lines of a plain text: it is
    made of the fields of the lines that are not blank. *)
Lemma read_csv_records (text_data : str) :
  forallb plain_char text_data = true ->
  read_csv (join [LF] (filter is_data_line (splitlines text_data))) columns
  = let records :=
      map ws_fields
        (filter (fun l => negb (blank l))
           (filter is_data_line (splitlines text_data))) in
    if existsb (existsb (existsb is_surrogate)) records
    then Raise UnicodeEncodeError
    else
    match rows_of_records 24 records with
    | Raise e => Raise e
    | Ret rows =>
        let width := match rows with [] => 24 | r :: _ => length r end in
        let leading := width - 24 in
        let cols :=
          map (fun col => _convert_tokens (map c_str col))
              (columns_of_rows width rows) in
        let positions := seq 0 (length rows) in
        let idx :=
          match leading with
          | O => map Pos positions
          | S _ =>
              map (fun i => Key (map (fun c => nth i c NaN) (firstn leading cols)))
                  positions
          end in
        Ret (mk_DataFrame idx (combine columns (skipn leading cols)))
    end.
Proof.
  intros H. unfold read_csv.
  rewrite (existsb_data_lines _ _ whitespace_no_surrogate eq_refl).
  rewrite (tokenize_data_lines _ H). reflexivity.
Qed.

Lemma nonblank_data_line (text_data : str) (l : str) (ls : list str) :
  filter (fun l => negb (blank l))
         (filter is_data_line (splitlines text_data)) = l :: ls ->
  exists l' ls', filter is_data_line (splitlines text_data) = l' :: ls'.
Proof.
  destruct (filter is_data_line _) as [|l' ls']; [discriminate|eauto].
Qed.

(** X11. In texts without double quotes and byte order marks, the table
    depends only on the fields of the data lines that are not blank: two
    texts with the same fields on such lines, however the fields are
    spaced with spaces and tabs and whatever comment lines and blank
    lines stand between, are parsed alike. *)
Theorem parse_depends_on_fields (a b : str) :
  forallb plain_char a = true -> forallb plain_char b = true ->
  filter (fun l => negb (blank l)) (filter is_data_line (splitlines a)) <> [] ->
  map ws_fields
    (filter (fun l => negb (blank l)) (filter is_data_line (splitlines a)))
  = map ws_fields
      (filter (fun l => negb (blank l)) (filter is_data_line (splitlines b))) ->
  parse_kma_data a = parse_kma_data b.
Proof.
  intros Ha Hb Hne E.
  destruct (filter _ (filter is_data_line (splitlines a))) as [|la lsa] eqn:Fa;
    [contradiction|].
  destruct (filter _ (filter is_data_line (splitlines b))) as [|lb lsb] eqn:Fb;
    [discriminate|].
  destruct (nonblank_data_line _ Fa) as (la' & lsa' & Da).
  destruct (nonblank_data_line _ Fb) as (lb' & lsb' & Db).
  rewrite (parse_kma_data_read _ Da), (parse_kma_data_read _ Db).
  rewrite <- Da, <- Db.
  rewrite (read_csv_records _ Ha), (read_csv_records _ Hb).
  now rewrite Fa, Fb, E.
Qed.

Lemma parse_depends_on_fields_witness :
  parse_kma_data Sample.with_spaces = parse_kma_data Sample.with_runs.
Proof.
  apply (@parse_depends_on_fields Sample.with_spaces Sample.with_runs).
  - vm_compute. reflexivity.
  - vm_compute. reflexivity.
  - vm_compute. discriminate.
  - vm_compute. reflexivity.
Defined.

Lemma later_rows_fit (ex : nat) (records : list (list str)) :
  Forall (fun r => length r <= ex) records ->
  later_rows ex records = Ret (map (pad_fields ex) records).
Proof.
  induction 1 as [|r rs Hr _ IH]; simpl; [reflexivity|].
  apply Nat.ltb_ge in Hr. now rewrite Hr, IH.
Qed.

Lemma rows_of_records_fit (first : list str) (rest : list (list str)) :
  Forall (fun r => length r <= Nat.max 24 (length first)) rest ->
  rows_of_records 24 (first :: rest)
  = Ret (map (pad_fields (Nat.max 24 (length first))) (first :: rest)).
Proof.
  intros H. unfold rows_of_records. rewrite length_pad_fields.
  replace (Nat.max (Nat.max (length first) 24) 24)
    with (Nat.max 24 (length first)) by lia.
  rewrite (later_rows_fit H). cbn [map]. f_equal. f_equal.
  unfold pad_fields. f_equal. f_equal. lia.
Qed.

Lemma encodable_Forall (s : str) :
  encodable s = true <-> Forall (fun c => is_surrogate c = false) s.
Proof.
  unfold encodable. induction s as [|c s IH]; cbn [existsb].
  - split; [constructor|reflexivity].
  - destruct (is_surrogate c) eqn:E; cbn [orb negb].
    + split; [discriminate|]. intros H. inversion H; congruence.
    + rewrite IH. split; [now constructor|]. intros H. now inversion H.
Qed.

(** The data lines of a text without surrogates have none. *)
Lemma data_lines_encodable (text_data : str) :
  encodable text_data = true ->
  existsb is_surrogate
    (join [LF] (filter is_data_line (splitlines text_data))) = false.
Proof.
  intros H. apply encodable_Forall in H.
  assert (F : Forall (fun c => is_surrogate c = false)
                (join [LF] (filter is_data_line (splitlines text_data)))).
  { apply Forall_join; [repeat constructor|].
    apply Forall_filter_own.
    pose proof (splitlines_chars H) as S.
    eapply Forall_impl; [|exact S]. intros l Hl.
    eapply Forall_impl; [|exact Hl]. now intros c [? _]. }
  apply encodable_Forall in F. unfold encodable in F.
  now destruct (existsb _ _).
Qed.

Lemma read_csv_nrows (data_io : str) (names : list str)
    (rows : list (list str)) :
  existsb is_surrogate data_io = false ->
  tokenize_all_rows (length names) data_io = Ret rows ->
  exists df, read_csv data_io names = Ret df /\ DF.nrows df = length rows.
Proof.
  intros S T. unfold read_csv. rewrite S, T. cbv zeta.
  eexists. split; [reflexivity|].
  unfold DF.nrows. cbn [index].
  destruct (_ - length names); now rewrite length_map, length_seq.
Qed.

(** A text whose later lines fit the width of the first is parsed, to
    a row for each line. *)
Lemma fitting_lines_parse (text_data first : str) (rest : list str) :
  forallb plain_char text_data = true ->
  encodable text_data = true ->
  filter (fun l => negb (blank l))
         (filter is_data_line (splitlines text_data)) = first :: rest ->
  Forall (fun l => length (ws_fields l)
                   <= Nat.max 24 (length (ws_fields first))) rest ->
  exists df,
    parse_kma_data text_data = (Ret df, [])
    /\ DF.columns df = columns
    /\ DF.nrows df = S (length rest).
Proof.
  intros Hp He Hl Hfit.
  destruct (nonblank_data_line _ Hl) as (l' & ls' & D).
  rewrite (parse_kma_data_read _ D). rewrite <- D.
  pose proof (tokenize_data_lines _ Hp) as T. cbv zeta in T.
  rewrite Hl in T. cbn [map] in T.
  rewrite rows_of_records_fit in T by (rewrite Forall_map; exact Hfit).
  destruct (read_csv_nrows _ _ (data_lines_encodable _ He) T) as (df & R & N).
  rewrite R. exists df. split; [reflexivity|].
  destruct (read_csv_shape _ _ R) as (C & _). split; [exact C|].
  rewrite N. cbn [map length]. now rewrite length_map, length_map.
Qed.

(** X12. In a text without double quotes, byte order marks and
    surrogates in which no later data line has more fields than the
    first has, or than the 24 names, the parse succeeds: nothing is
    reported, and the table has the 24 columns and one row for each data
    line that is not blank. *)
Theorem parse_one_row_per_line (text_data first : str) (rest : list str) :
  forallb plain_char text_data = true ->
  encodable text_data = true ->
  filter (fun l => negb (blank l))
         (filter is_data_line (splitlines text_data)) = first :: rest ->
  Forall (fun l => length (ws_fields l)
                   <= Nat.max 24 (length (ws_fields first))) rest ->
  exists df,
    parse_kma_data text_data = (Ret df, [])
    /\ DF.columns df = columns
    /\ DF.nrows df = S (length rest).
Proof.
  intros Hp He Hl Hfit. exact (fitting_lines_parse _ Hp He Hl Hfit).
Qed.

Lemma parse_one_row_per_line_witness :
  exists df,
    parse_kma_data Sample.with_dash = (Ret df, [])
    /\ DF.columns df = columns
    /\ DF.nrows df = 2.
Proof.
  apply (@parse_one_row_per_line Sample.with_dash
           (Sample.line "202401010000" "15.2")
           [Sample.line "202401010100" "-"]).
  - vm_compute. reflexivity.
  - vm_compute. reflexivity.
  - vm_compute. reflexivity.
  - constructor; [vm_compute; lia|constructor].
Defined.

(** ** Decimal texts *)

(** The value of a text of digits, read from the left after [acc]. *)
Lemma read_digits_app (a b : str) : forall acc count,
  Forall (fun c => Numeric.isdigit_ascii c = true) a ->
  Numeric.read_digits acc count (a ++ b)
  = Numeric.read_digits (fst (fst (Numeric.read_digits acc count a)))
      (snd (fst (Numeric.read_digits acc count a))) b.
Proof.
  induction a as [|c a IH]; intros acc count H; simpl.
  - now destruct b.
  - inversion H as [|? ? Hc Ha]; subst. rewrite Hc. now apply IH.
Qed.

Lemma read_digits_all (a : str) : forall acc count,
  Forall (fun c => Numeric.isdigit_ascii c = true) a ->
  snd (Numeric.read_digits acc count a) = []
  /\ snd (fst (Numeric.read_digits acc count a)) = count + length a.
Proof.
  induction a as [|c a IH]; intros acc count H; simpl.
  - split; [reflexivity|lia].
  - inversion H as [|? ? Hc Ha]; subst. rewrite Hc.
    destruct (IH (acc * 10 + (c - 48))%N (S count) Ha) as (E1 & E2).
    split; [exact E1|]. rewrite E2. lia.
Qed.

Lemma digit_char_digit (d : N) :
  (d < 10)%N ->
  Numeric.isdigit_ascii (digit_char d) = true /\ (digit_char d - 48 = d)%N.
Proof.
  intros H. unfold Numeric.isdigit_ascii, digit_char. split; [|lia].
  apply andb_true_intro. split; apply N.leb_le; lia.
Qed.

Lemma digits_fuel_acc (fuel : nat) : forall n acc,
  digits_fuel fuel n acc = digits_fuel fuel n [] ++ acc.
Proof.
  induction fuel as [|f IH]; intros n acc; simpl; [reflexivity|].
  destruct (n <? 10)%N; [reflexivity|].
  rewrite IH, (IH _ [_]), <- app_assoc. reflexivity.
Qed.

Lemma digits_fuel_S (fuel : nat) (n : N) (acc : str) :
  digits_fuel (S fuel) n acc
  = if (n <? 10)%N then digit_char (n mod 10) :: acc
    else digits_fuel fuel (n / 10) (digit_char (n mod 10) :: acc).
Proof. reflexivity. Qed.

Lemma digits_fuel_enough (f : nat) : forall f' n,
  (n < 2 ^ N.of_nat (S f))%N -> (n < 2 ^ N.of_nat (S f'))%N ->
  digits_fuel (S f) n [] = digits_fuel (S f') n [].
Proof.
  induction f as [|f IH]; intros f' n Hf Hf'.
  - change (2 ^ N.of_nat 1)%N with 2%N in Hf.
    rewrite (digits_fuel_S 0), (digits_fuel_S f').
    assert (L : (n <? 10)%N = true) by (apply N.ltb_lt; lia).
    now rewrite L.
  - destruct f' as [|f'].
    + change (2 ^ N.of_nat 1)%N with 2%N in Hf'.
      rewrite (digits_fuel_S (S f)), (digits_fuel_S 0).
      assert (L : (n <? 10)%N = true) by (apply N.ltb_lt; lia).
      now rewrite L.
    + rewrite (digits_fuel_S (S f)), (digits_fuel_S (S f')).
      destruct (n <? 10)%N eqn:L; [reflexivity|].
      apply N.ltb_ge in L.
      rewrite (digits_fuel_acc (S f)), (digits_fuel_acc (S f')). f_equal.
      rewrite Nat2N.inj_succ, N.pow_succ_r' in Hf, Hf'.
      apply IH.
      * apply N.Div0.div_lt_upper_bound. lia.
      * apply N.Div0.div_lt_upper_bound. lia.
Qed.

Lemma str_of_N_fuel (f : nat) (n : N) :
  (n < 2 ^ N.of_nat (S f))%N -> str_of_N n = digits_fuel (S f) n [].
Proof.
  intros H. unfold str_of_N. apply digits_fuel_enough; [|exact H].
  rewrite Nat2N.inj_succ, N2Nat.id.
  destruct n as [|p]; [reflexivity|]. apply N.log2_spec. lia.
Qed.

Lemma str_of_N_small (r : N) : (r < 10)%N -> str_of_N r = [digit_char r].
Proof.
  intros H.
  rewrite (@str_of_N_fuel 3 r) by (change (2 ^ N.of_nat 4)%N with 16%N; lia).
  rewrite digits_fuel_S. pose proof H as H'. apply N.ltb_lt in H'. rewrite H'.
  now rewrite N.mod_small.
Qed.

Lemma str_of_N_step (q r : N) :
  (0 < q)%N -> (r < 10)%N ->
  str_of_N (q * 10 + r) = str_of_N q ++ [digit_char r].
Proof.
  intros Hq Hr.
  set (f := N.to_nat (N.log2 (q * 10 + r))).
  assert (B : (q * 10 + r < 2 ^ N.of_nat (S f))%N).
  { unfold f. rewrite Nat2N.inj_succ, N2Nat.id. apply N.log2_spec. lia. }
  assert (Hf : exists f0, f = S f0).
  { destruct f as [|f0]; [|eauto].
    change (2 ^ N.of_nat 1)%N with 2%N in B. lia. }
  destruct Hf as (f0 & Ef). rewrite Ef in B.
  rewrite (str_of_N_fuel B). rewrite digits_fuel_S.
  assert (L : (q * 10 + r <? 10)%N = false) by (apply N.ltb_ge; lia).
  rewrite L, digits_fuel_acc.
  assert (D : ((q * 10 + r) / 10 = q)%N).
  { rewrite N.mul_comm. rewrite N.add_comm, N.mul_comm, N.div_add by lia.
    rewrite N.div_small by lia. reflexivity. }
  assert (M : ((q * 10 + r) mod 10 = r)%N).
  { rewrite N.add_comm, N.Div0.mod_add. now apply N.mod_small. }
  rewrite D, M. f_equal. symmetry. apply str_of_N_fuel.
  rewrite !Nat2N.inj_succ, !N.pow_succ_r' in B.
  rewrite Nat2N.inj_succ, N.pow_succ_r'. lia.
Qed.

Lemma forallb_Forall_true (A : Type) (f : A -> bool) (l : list A) :
  forallb f l = true <-> Forall (fun x => f x = true) l.
Proof. rewrite forallb_forall, Forall_forall. reflexivity. Qed.

Lemma read_digits_value (a : str) : forall acc count count',
  fst (fst (Numeric.read_digits acc count a))
  = fst (fst (Numeric.read_digits acc count' a)).
Proof.
  induction a as [|c a IH]; intros acc count count'; simpl; [reflexivity|].
  destruct (Numeric.isdigit_ascii c); [apply IH|reflexivity].
Qed.

Lemma read_digits_ge (a : str) : forall acc count,
  (acc <= fst (fst (Numeric.read_digits acc count a)))%N.
Proof.
  induction a as [|c a IH]; intros acc count; simpl; [lia|].
  destruct (Numeric.isdigit_ascii c); [|simpl; lia].
  etransitivity; [|apply IH]. lia.
Qed.

Lemma number_snoc (xs : str) (c : char) :
  Forall (fun c => Numeric.isdigit_ascii c = true) xs ->
  Numeric.isdigit_ascii c = true ->
  number (xs ++ [c]) = (number xs * 10 + (c - 48))%N.
Proof.
  intros Hxs Hc. unfold number. rewrite (read_digits_app _ _ _ Hxs).
  simpl. now rewrite Hc.
Qed.

Lemma decimal_digits (s : str) :
  decimal s = true -> Forall (fun c => Numeric.isdigit_ascii c = true) s.
Proof.
  destruct s as [|c s]; [discriminate|]. unfold decimal.
  intros H. apply andb_prop in H as [_ H]. now apply forallb_Forall_true.
Qed.

Lemma number_pos (s : str) : decimal s = true -> (0 < number s)%N.
Proof.
  destruct s as [|c s]; [discriminate|]. unfold decimal, number.
  intros H. apply andb_prop in H as [H0 H]. cbn [forallb] in H.
  apply andb_prop in H as [Hc _]. simpl. rewrite Hc.
  eapply N.lt_le_trans; [|apply read_digits_ge].
  apply negb_true_iff, N.eqb_neq in H0.
  unfold Numeric.isdigit_ascii in Hc. apply andb_prop in Hc as [L _].
  apply N.leb_le in L. lia.
Qed.

Lemma digit_char_inv (c : char) :
  Numeric.isdigit_ascii c = true ->
  (c - 48 < 10)%N /\ digit_char (c - 48) = c.
Proof.
  unfold Numeric.isdigit_ascii, digit_char. intros H.
  apply andb_prop in H as [L U]. apply N.leb_le in L, U. lia.
Qed.

(** [str] of the number of a decimal is the decimal. *)
Lemma str_of_N_number (s : str) : decimal s = true -> str_of_N (number s) = s.
Proof.
  induction s as [|c xs IH] using rev_ind; [discriminate|].
  intros H. pose proof (decimal_digits _ H) as D.
  apply Forall_app in D as (Dxs & Dc). inversion Dc as [|? ? Hc _]; subst.
  destruct (digit_char_inv _ Hc) as (Lc & Ec).
  rewrite (number_snoc _ Dxs Hc).
  destruct xs as [|x xs].
  - simpl. rewrite (str_of_N_small Lc). now rewrite Ec.
  - assert (Hx : decimal (x :: xs) = true).
    { unfold decimal in *. cbn [app] in H.
      apply andb_prop in H as [H0 _]. rewrite H0. cbn [andb].
      now apply forallb_Forall_true. }
    rewrite str_of_N_step by (auto using number_pos).
    now rewrite (IH Hx), Ec.
Qed.

(** ** The cells of a column, token by token *)

Ltac in_cells :=
  unfold reads, cells_of_token;
  repeat match goal with
         | H : ?x = _ |- context [?x] => rewrite H
         end;
  cbn [app In]; rewrite ?in_app_iff; cbn [In]; tauto.

Lemma reads_cons_cell (R : str -> cell -> Prop) t c na a ts cs n :
  cons_cell c na a = Converted cs n ->
  R t c ->
  (forall cs' n', a = Converted cs' n' -> Forall2 R ts cs') ->
  Forall2 R (t :: ts) cs.
Proof.
  destruct a as [cs' n'| | |]; try discriminate. simpl.
  intros H Hc IH. injection H as <- _. constructor; [exact Hc|]. eapply IH.
  reflexivity.
Qed.

Lemma reads_try_int64 tokens : forall cs n,
  _try_int64 tokens = Converted cs n ->
  Forall2 (fun t c => reads t c /\ reads t (upcast_int c)) tokens cs.
Proof.
  induction tokens as [|t ts IH]; intros cs n; simpl.
  - intros H. injection H as <- _. constructor.
  - destruct (is_na_token t) eqn:Na.
    + intros H. eapply reads_cons_cell; [exact H| |exact IH].
      split; in_cells.
    + destruct (Numeric.str_to_int64 t) as [z| | |] eqn:I; try discriminate.
      intros H. eapply reads_cons_cell; [exact H| |exact IH].
      split; in_cells.
Qed.

Lemma reads_try_double tokens : forall cs n,
  _try_double tokens = Converted cs n -> Forall2 reads tokens cs.
Proof.
  induction tokens as [|t ts IH]; intros cs n; simpl.
  - intros H. injection H as <- _. constructor.
  - destruct (is_na_token t) eqn:Na.
    + intros H. eapply reads_cons_cell; [exact H| |exact IH]. in_cells.
    + destruct (Numeric.to_double t) as [f|] eqn:D; try discriminate.
      intros H. eapply reads_cons_cell; [exact H| |exact IH]. in_cells.
Qed.

Lemma reads_try_bool_flex tokens : forall cs n,
  _try_bool_flex tokens = Converted cs n -> Forall2 reads tokens cs.
Proof.
  induction tokens as [|t ts IH]; intros cs n; cbn [_try_bool_flex].
  - intros H. injection H as <- _. constructor.
  - destruct (is_na_token t) eqn:Na.
    + intros H. eapply reads_cons_cell; [exact H| |exact IH]. in_cells.
    + destruct (bool_of_token t) as [b|] eqn:B; try discriminate.
      intros H. eapply reads_cons_cell; [exact H| |exact IH]. in_cells.
Qed.

Lemma reads_string_convert na_filter tokens :
  Forall2 reads tokens (_string_convert na_filter tokens).
Proof.
  unfold _string_convert. induction tokens as [|t ts IH]; simpl; constructor;
    [|exact IH].
  destruct (is_na_token t) eqn:Na; destruct na_filter; cbn [andb]; in_cells.
Qed.

(** A column with a signed value is no [uint64] column. *)
Lemma try_uint64_no_sint tokens : forall st acc cs n,
  _try_uint64_from st acc tokens = Converted cs n -> seen_sint st = false.
Proof.
  induction tokens as [|t ts IH]; intros st acc cs n; simpl.
  - destruct (seen_uint st && _); [discriminate|].
    now destruct (seen_sint st).
  - destruct (is_na_token t).
    + intros H. exact (IH _ _ _ _ H).
    + destruct (Numeric.str_to_uint64 t) as [z| |[]]; try discriminate;
        intros H; apply IH in H; [exact H|discriminate].
Qed.

(** The token at which [_try_int64] met an overflow. *)
Lemma try_int64_overflow tokens :
  _try_int64 tokens = OverflowError ->
  exists t, In t tokens /\ is_na_token t = false
            /\ Numeric.str_to_int64 t = Numeric.ERROR_OVERFLOW.
Proof.
  induction tokens as [|t ts IH]; simpl; [discriminate|].
  destruct (is_na_token t) eqn:Na.
  - intros H. destruct (_try_int64 ts); try discriminate.
    destruct IH as (t' & ? & ? & ?); eauto.
  - destruct (Numeric.str_to_int64 t) as [z| | |] eqn:I; try discriminate.
    + intros H. destruct (_try_int64 ts); try discriminate.
      destruct IH as (t' & ? & ? & ?); eauto.
    + intros _. exists t. auto.
Qed.

(** Such a token is beyond [int64] as an unsigned value too. *)
Lemma overflow_uint64 (t : str) (z : Z) :
  Numeric.str_to_int64 t = Numeric.ERROR_OVERFLOW ->
  Numeric.str_to_uint64 t = Numeric.UintOk z ->
  (Numeric.INT64_MAX <? z)%Z = true.
Proof.
  unfold Numeric.str_to_int64, Numeric.str_to_uint64.
  destruct (Numeric.skip_spaces t) as [|c s0] eqn:Sk.
  - simpl. discriminate.
  - destruct (N.eq_dec c 45) as [->|M]; [discriminate|].
    set (s1 := match c :: s0 with 43%N :: rest => rest | _ => c :: s0 end).
    assert (Sg : Numeric.read_sign (c :: s0) = (false, s1)).
    { unfold Numeric.read_sign, s1. destruct c as [|p]; [reflexivity|].
      repeat (destruct p as [p|p|]; try reflexivity; try contradiction). }
    rewrite Sg. intros I U.
    assert (U' : match Numeric.read_digits 0 0 s1 with
                 | (_, O, _) => Numeric.UintError false
                 | (n, S _, s2) =>
                     if (Numeric.UINT64_MAX <? Z.of_N n)%Z
                     then Numeric.UintError true
                     else match Numeric.skip_spaces s2 with
                          | [] => Numeric.UintOk (Z.of_N n)
                          | _ :: _ => Numeric.UintError false
                          end
                 end = Numeric.UintOk z).
    { rewrite <- U. unfold s1. destruct c as [|p]; [reflexivity|].
      repeat (destruct p as [p|p|]; try reflexivity; try contradiction). }
    clear U.
    destruct (Numeric.read_digits 0 0 s1) as ((n & d) & s2).
    destruct d as [|d]; [discriminate|].
    destruct (Numeric.UINT64_MAX <? Z.of_N n)%Z; [discriminate|].
    destruct (Numeric.skip_spaces s2); [|discriminate].
    injection U' as <-.
    destruct (Z.of_N n <? Numeric.INT64_MIN)%Z eqn:L.
    + apply Z.ltb_lt in L. unfold Numeric.INT64_MIN in L. lia.
    + cbn [orb] in I. now destruct (Numeric.INT64_MAX <? Z.of_N n)%Z.
Qed.

(** In a [uint64] column every token that is there is an unsigned
    integer. *)
Lemma try_uint64_tokens tokens : forall st acc cs n,
  _try_uint64_from st acc tokens = Converted cs n ->
  forall t, In t tokens -> is_na_token t = false ->
  exists z, Numeric.str_to_uint64 t = Numeric.UintOk z.
Proof.
  induction tokens as [|t ts IH]; intros st acc cs n H t' Hin Na;
    [contradiction|]. cbn [_try_uint64_from] in H.
  destruct Hin as [->|Hin].
  - rewrite Na in H.
    destruct (Numeric.str_to_uint64 t') as [z| |[]]; try discriminate; eauto.
    apply try_uint64_no_sint in H. discriminate.
  - destruct (is_na_token t); [eapply IH; eassumption|].
    destruct (Numeric.str_to_uint64 t) as [z| |[]]; try discriminate;
      eapply IH; eassumption.
Qed.

(** A [uint64] column with a value beyond [int64] has no missing
    value. *)
Lemma try_uint64_no_null tokens : forall st acc cs n,
  _try_uint64_from st acc tokens = Converted cs n ->
  seen_uint st = true
  \/ (exists t z, In t tokens /\ is_na_token t = false
                  /\ Numeric.str_to_uint64 t = Numeric.UintOk z
                  /\ (Numeric.INT64_MAX <? z)%Z = true) ->
  seen_null st = false /\ Forall (fun t => is_na_token t = false) tokens.
Proof.
  induction tokens as [|t ts IH]; intros st acc cs n H Big.
  - cbn [_try_uint64_from] in H. split; [|constructor].
    destruct Big as [U|(t & z & [] & _)]. rewrite U in H. cbn [andb] in H.
    destruct (seen_sint st); [discriminate|].
    now destruct (seen_null st).
  - cbn [_try_uint64_from] in H. destruct (is_na_token t) eqn:Na.
    + exfalso. apply IH in H as [H _]; [discriminate|].
      cbn [seen_uint]. destruct Big as [U|(t' & z & [->|Hin] & Na' & Hz)].
      * now left.
      * congruence.
      * right. eauto.
    + destruct (Numeric.str_to_uint64 t) as [z| |[]] eqn:U; try discriminate.
      * apply IH in H as [N F].
        -- split; [exact N|]. now constructor.
        -- cbn [seen_uint].
           destruct Big as [S|(t' & z' & [->|Hin] & Na' & Hz & B)].
           ++ left. now rewrite S.
           ++ left. rewrite U in Hz. injection Hz as ->. rewrite B.
              apply orb_true_r.
           ++ right. eauto 6.
      * apply try_uint64_no_sint in H. discriminate.
Qed.

Lemma reads_try_uint64_from tokens : forall st acc cs n done,
  Forall (fun t => is_na_token t = false) tokens ->
  Forall2 reads done (rev acc) ->
  _try_uint64_from st acc tokens = Converted cs n ->
  Forall2 reads (done ++ tokens) cs.
Proof.
  induction tokens as [|t ts IH]; intros st acc cs n done Hna Hacc; simpl.
  - destruct (seen_uint st && _); [discriminate|].
    destruct (seen_sint st); [discriminate|].
    intros H. injection H as <- _. now rewrite app_nil_r.
  - inversion Hna as [|? ? Na Hna']; subst.
    assert (Step : forall c, reads t c ->
              Forall2 reads (done ++ [t]) (rev (c :: acc))).
    { intros c Hc. cbn [rev]. apply Forall2_app; [exact Hacc|].
      constructor; [exact Hc|constructor]. }
    replace (done ++ t :: ts) with ((done ++ [t]) ++ ts)
      by (now rewrite <- app_assoc).
    rewrite Na.
    destruct (Numeric.str_to_uint64 t) as [z| |[]] eqn:U; try discriminate.
    + apply IH; [exact Hna'|]. apply Step. in_cells.
    + intros H. apply try_uint64_no_sint in H. discriminate.
Qed.

(** The [uint64] column that follows an [int64] overflow. *)
Lemma reads_try_uint64 tokens cs n :
  _try_int64 tokens = OverflowError ->
  _try_uint64 tokens = Converted cs n ->
  Forall2 reads tokens cs.
Proof.
  intros I U. destruct (try_int64_overflow _ I) as (t & Hin & Na & Ov).
  destruct (try_uint64_tokens _ _ _ U t Hin Na) as (z & Hz).
  pose proof (overflow_uint64 _ Ov Hz) as B.
  destruct (try_uint64_no_null _ _ _ U) as (_ & F).
  { right. exists t, z. auto. }
  exact (@reads_try_uint64_from tokens _ [] cs n [] F (Forall2_nil _) U).
Qed.

Lemma Forall2_map_right (A B C : Type) (R : A -> C -> Prop) (f : B -> C)
    (l : list A) (l' : list B) :
  Forall2 (fun a b => R a (f b)) l l' -> Forall2 R l (map f l').
Proof. induction 1; simpl; constructor; assumption. Qed.

(** Every cell of a converted column is one its token can be read to. *)
Lemma convert_tokens_reads (tokens : list str) :
  Forall2 reads tokens (_convert_tokens tokens).
Proof.
  assert (After : Forall2 reads tokens
    match _try_double tokens with
    | Converted cs _ => cs
    | _ =>
        match _try_bool_flex tokens with
        | Converted cs _ => cs
        | _ => _string_convert true tokens
        end
    end).
  { destruct (_try_double tokens) as [cs n| | |] eqn:D;
      [exact (reads_try_double _ D)| | |];
      (destruct (_try_bool_flex tokens) as [cs n| | |] eqn:B;
       [exact (reads_try_bool_flex _ B)|apply reads_string_convert..]). }
  unfold _convert_tokens.
  destruct (_try_int64 tokens) as [cs [|n]| | |] eqn:I; try exact After.
  - eapply Forall2_impl; [|exact (reads_try_int64 _ I)]. now intros t c [H _].
  - apply Forall2_map_right.
    eapply Forall2_impl; [|exact (reads_try_int64 _ I)]. now intros t c [_ H].
  - destruct (_try_uint64 tokens) as [cs n| | |] eqn:U;
      try exact After; try apply reads_string_convert.
    exact (reads_try_uint64 _ I U).
Qed.

(** ** Digits and bounds *)

Lemma digit_not_space (c : char) :
  Numeric.isdigit_ascii c = true ->
  Numeric.isspace_ascii c = false /\ c <> 45%N /\ c <> 43%N /\ c <> 46%N.
Proof.
  unfold Numeric.isdigit_ascii, Numeric.isspace_ascii. intros H.
  apply andb_prop in H as [L U]. apply N.leb_le in L, U.
  repeat split; try lia.
  apply orb_false_iff. split; [apply N.eqb_neq; lia|].
  apply andb_false_iff. right. apply N.leb_gt. lia.
Qed.

Lemma read_digits_bound (a : str) : forall acc count,
  Forall (fun c => Numeric.isdigit_ascii c = true) a ->
  (fst (fst (Numeric.read_digits acc count a))
   < (acc + 1) * 10 ^ N.of_nat (length a))%N.
Proof.
  induction a as [|c a IH]; intros acc count H.
  - simpl. lia.
  - inversion H as [|? ? Hc Ha]; subst. cbn [Numeric.read_digits length].
    rewrite Hc. eapply N.lt_le_trans; [apply (IH _ _ Ha)|].
    rewrite Nat2N.inj_succ, N.pow_succ_r'.
    destruct (digit_char_inv _ Hc) as (L & _).
    set (p := (10 ^ N.of_nat (length a))%N).
    replace ((acc + 1) * (10 * p))%N with ((acc * 10 + 10) * p)%N by lia.
    apply N.mul_le_mono_r. lia.
Qed.

Lemma number_bound (s : str) :
  decimal s = true -> length s <= 18 ->
  (Z.of_N (number s) < 1000000000000000000)%Z.
Proof.
  intros H L. pose proof (read_digits_bound 0 0 (decimal_digits _ H)) as B.
  fold (number s) in B. rewrite N.mul_1_l in B.
  assert (P : (10 ^ N.of_nat (length s) <= 10 ^ 18)%N).
  { apply N.pow_le_mono_r; lia. }
  change (10 ^ 18)%N with 1000000000000000000%N in P. lia.
Qed.

Lemma digit_cases (c : char) :
  Numeric.isdigit_ascii c = true ->
  In c [48; 49; 50; 51; 52; 53; 54; 55; 56; 57]%N.
Proof.
  unfold Numeric.isdigit_ascii. intros H. apply andb_prop in H as [L U].
  apply N.leb_le in L, U. simpl.
  assert (c = 48 \/ c = 49 \/ c = 50 \/ c = 51 \/ c = 52 \/ c = 53
          \/ c = 54 \/ c = 55 \/ c = 56 \/ c = 57)%N by lia.
  intuition auto.
Qed.

(** ** The text of a decimal number as a token *)

Lemma read_sign_digit (c : char) (s : str) :
  Numeric.isdigit_ascii c = true ->
  Numeric.read_sign (c :: s) = (false, c :: s).
Proof.
  intros H. apply digit_cases in H. cbn [In] in H.
  repeat (destruct H as [<-|H]; [reflexivity|]). contradiction.
Qed.

(** Within [max_digits] the digits before the point are read as a run
    of digits is. *)
Lemma read_number_digits (a b : str) : forall n k e,
  Forall (fun c => Numeric.isdigit_ascii c = true) a ->
  k + length a <= 17 ->
  Numeric.read_number n k e (a ++ b)
  = Numeric.read_number (fst (fst (Numeric.read_digits n k a)))
      (k + length a) e b.
Proof.
  induction a as [|c a IH]; intros n k e H L.
  - cbn [app length Numeric.read_digits fst]. now rewrite Nat.add_0_r.
  - inversion H as [|? ? Hc Ha]; subst. cbn [length] in L.
    cbn [app Numeric.read_number Numeric.read_digits length]. rewrite Hc.
    replace (k <? Numeric.max_digits) with true
      by (symmetry; apply Nat.ltb_lt; unfold Numeric.max_digits; lia).
    rewrite IH by (auto; lia).
    now replace (k + S (length a)) with (S k + length a) by lia.
Qed.

Lemma read_decimals_digits (a b : str) : forall n k d,
  Forall (fun c => Numeric.isdigit_ascii c = true) a ->
  k + length a <= 17 ->
  Numeric.read_decimals n k d (a ++ b)
  = Numeric.read_decimals (fst (fst (Numeric.read_digits n k a)))
      (k + length a) (d + length a) b.
Proof.
  induction a as [|c a IH]; intros n k d H L.
  - cbn [app length Numeric.read_digits fst]. now rewrite !Nat.add_0_r.
  - inversion H as [|? ? Hc Ha]; subst. cbn [length] in L.
    cbn [app Numeric.read_decimals Numeric.read_digits length]. rewrite Hc.
    replace (k <? Numeric.max_digits) with true
      by (symmetry; apply Nat.ltb_lt; unfold Numeric.max_digits; lia).
    rewrite IH by (auto; lia).
    replace (k + S (length a)) with (S k + length a) by lia.
    now replace (d + S (length a)) with (S d + length a) by lia.
Qed.

Lemma number_app (a b : str) :
  Forall (fun c => Numeric.isdigit_ascii c = true) a ->
  fst (fst (Numeric.read_digits (number a) (length a) b)) = number (a ++ b).
Proof.
  intros H. unfold number. rewrite (@read_digits_app a b 0 0 H).
  apply read_digits_value.
Qed.

Lemma short_digits_inv (whole frac : str) :
  short_digits whole frac = true ->
  Forall (fun c => Numeric.isdigit_ascii c = true) whole
  /\ Forall (fun c => Numeric.isdigit_ascii c = true) frac
  /\ 1 <= length whole /\ length whole + length frac <= 15.
Proof.
  unfold short_digits. intros H.
  apply andb_prop in H as [H L]. apply andb_prop in H as [H Lw].
  apply andb_prop in H as [Dw Df].
  apply Nat.leb_le in L, Lw. apply forallb_Forall_true in Dw, Df. auto.
Qed.

Lemma decimal_text_start (neg : bool) (whole frac : str) :
  short_digits whole frac = true ->
  Numeric.skip_spaces (decimal_text neg whole frac)
  = decimal_text neg whole frac
  /\ Numeric.read_sign (decimal_text neg whole frac)
     = (neg, whole ++ fraction_text frac).
Proof.
  intros H. destruct (short_digits_inv _ _ H) as (Dw & _ & Lw & _).
  destruct whole as [|c w]; [cbn in Lw; lia|].
  inversion Dw as [|? ? Hc _]; subst.
  destruct (digit_not_space _ Hc) as (Sp & _).
  unfold decimal_text. destruct neg; cbn [app].
  - split; reflexivity.
  - split; [cbn [Numeric.skip_spaces]; now rewrite Sp|].
    now apply read_sign_digit.
Qed.

(** The number of a decimal text is the number it denotes. *)
Lemma decimal_text_precise (neg : bool) (whole frac : str) :
  short_digits whole frac = true ->
  Numeric.precise_xstrtod (decimal_text neg whole frac)
  = Some (FNum neg (number (whole ++ frac)) (- Z.of_nat (length frac))).
Proof.
  intros H. destruct (short_digits_inv _ _ H) as (Dw & Df & Lw & L).
  destruct (decimal_text_start neg _ _ H) as (Sp & Sg).
  unfold Numeric.precise_xstrtod. rewrite Sp, Sg.
  rewrite (@read_number_digits whole (fraction_text frac) 0 0 0 Dw)
    by (cbn [Nat.add]; lia).
  fold (number whole). cbn [Nat.add].
  destruct whole as [|c w]; [cbn in Lw; lia|].
  set (wh := c :: w) in *.
  destruct frac as [|d f].
  - cbn [fraction_text Numeric.read_number]. cbv beta iota zeta.
    unfold wh at 1. cbn [length]. cbv beta iota zeta.
    rewrite app_nil_r. reflexivity.
  - cbn [fraction_text].
    change (Numeric.read_number (number wh) (length wh) 0 (46%N :: d :: f))
      with (number wh, length wh, 0%Z, 46%N :: d :: f).
    cbv beta iota zeta.
    pose proof (@read_decimals_digits (d :: f) [] (number wh) (length wh) 0 Df)
      as R.
    rewrite app_nil_r in R. rewrite R by lia. clear R.
    rewrite (@number_app wh (d :: f) Dw). cbn [Numeric.read_decimals Nat.add].
    cbv beta iota zeta.
    unfold wh at 1. cbn [length Nat.add]. cbv beta iota zeta.
    set (e := (0 - Z.of_nat (S (length f)))%Z).
    assert (He : (-15 <= e <= 0)%Z) by (unfold e; cbn [length] in *; lia).
    replace (308 <? e)%Z with false by (symmetry; apply Z.ltb_ge; lia).
    replace (0 <? e)%Z with false by (symmetry; apply Z.ltb_ge; lia).
    cbn [andb Numeric.skip_spaces].
    replace (e <? -616)%Z with false by (symmetry; apply Z.ltb_ge; lia).
    unfold e. now rewrite Z.sub_0_l.
Qed.

Lemma decimal_text_bound (whole frac : str) :
  short_digits whole frac = true ->
  (Z.of_N (number whole) < 10 ^ 15)%Z
  /\ (Z.of_N (number (whole ++ frac)) < 10 ^ 15)%Z.
Proof.
  intros H. destruct (short_digits_inv _ _ H) as (Dw & Df & Lw & L).
  assert (B : forall a, Forall (fun c => Numeric.isdigit_ascii c = true) a ->
                length a <= 15 -> (Z.of_N (number a) < 10 ^ 15)%Z).
  { intros a Da La. pose proof (read_digits_bound 0 0 Da) as B.
    fold (number a) in B. rewrite N.mul_1_l in B.
    assert (P : (10 ^ N.of_nat (length a) <= 10 ^ 15)%N)
      by (apply N.pow_le_mono_r; lia).
    change (10 ^ 15)%N with 1000000000000000%N in P.
    change (10 ^ 15)%Z with 1000000000000000%Z. lia. }
  split; apply B; auto; try lia.
  - now apply Forall_app.
  - rewrite length_app. lia.
Qed.

Lemma signed_bound (neg : bool) (n : N) :
  (Z.of_N n < 10 ^ 15)%Z ->
  (Numeric.INT64_MIN < signed neg n <= Numeric.INT64_MAX)%Z.
Proof.
  change (10 ^ 15)%Z with 1000000000000000%Z.
  unfold signed, Numeric.INT64_MIN, Numeric.INT64_MAX. destruct neg; lia.
Qed.

Lemma decimal_text_int64 (neg : bool) (whole frac : str) :
  short_digits whole frac = true ->
  Numeric.str_to_int64 (decimal_text neg whole frac)
  = match frac with
    | [] => Numeric.IntOk (signed neg (number whole))
    | _ :: _ => Numeric.ERROR_INVALID_CHARS
    end.
Proof.
  intros H. destruct (short_digits_inv _ _ H) as (Dw & Df & Lw & L).
  destruct (decimal_text_start neg _ _ H) as (Sp & Sg).
  destruct (decimal_text_bound _ _ H) as (B & _).
  pose proof (@signed_bound neg _ B) as (B1 & B2).
  unfold Numeric.str_to_int64. rewrite Sp, Sg.
  rewrite (@read_digits_app whole (fraction_text frac) 0 0 Dw).
  destruct (read_digits_all 0 0 Dw) as (_ & E2). rewrite E2.
  fold (number whole). cbn [Nat.add].
  destruct whole as [|c w]; [cbn in Lw; lia|].
  set (wh := c :: w) in *.
  assert (O : ((signed neg (number wh) <? Numeric.INT64_MIN)
               || (Numeric.INT64_MAX <? signed neg (number wh)))%Z = false).
  { apply orb_false_iff. split; apply Z.ltb_ge; lia. }
  unfold signed in O.
  destruct frac as [|d f]; cbn [fraction_text Numeric.read_digits].
  - change (length wh) with (S (length w)). cbv iota. now rewrite O.
  - change (Numeric.isdigit_ascii 46%N) with false. cbv iota.
    change (length wh) with (S (length w)). cbv iota. now rewrite O.
Qed.

Lemma decimal_text_uint64 (neg : bool) (whole frac : str) :
  short_digits whole frac = true ->
  Numeric.str_to_uint64 (decimal_text neg whole frac)
  = if neg then Numeric.UintSigned
    else match frac with
         | [] => Numeric.UintOk (Z.of_N (number whole))
         | _ :: _ => Numeric.UintError false
         end.
Proof.
  intros H. destruct (short_digits_inv _ _ H) as (Dw & Df & Lw & L).
  destruct (decimal_text_start neg _ _ H) as (Sp & _).
  destruct (decimal_text_bound _ _ H) as (B & _).
  unfold Numeric.str_to_uint64. rewrite Sp.
  destruct neg; [reflexivity|].
  unfold decimal_text. cbn [app].
  assert (Rd : Numeric.read_digits 0 0 (whole ++ fraction_text frac)
               = (number whole, length whole, fraction_text frac)).
  { rewrite (@read_digits_app whole (fraction_text frac) 0 0 Dw).
    destruct (read_digits_all 0 0 Dw) as (_ & E2). rewrite E2.
    fold (number whole). now destruct frac. }
  assert (U : (Numeric.UINT64_MAX <? Z.of_N (number whole))%Z = false).
  { apply Z.ltb_ge. change (10 ^ 15)%Z with 1000000000000000%Z in B.
    unfold Numeric.UINT64_MAX. lia. }
  revert Rd U. generalize (number whole) as n. intros n Rd U.
  destruct whole as [|c w]; [cbn in Lw; lia|].
  inversion Dw as [|? ? Hc _]; subst.
  apply digit_cases in Hc. cbn [In] in Hc. cbn [app length] in *.
  assert (F : match Numeric.skip_spaces (fraction_text frac) with
              | [] => Numeric.UintOk (Z.of_N n)
              | _ :: _ => Numeric.UintError false
              end
              = match frac with
                | [] => Numeric.UintOk (Z.of_N n)
                | _ :: _ => Numeric.UintError false
                end) by now destruct frac.
  repeat (destruct Hc as [<-|Hc];
          [cbv beta iota; rewrite Rd; now rewrite U, F|]).
  contradiction.
Qed.

Lemma digits_numeric (s : str) :
  Forall (fun c => Numeric.isdigit_ascii c = true) s ->
  forallb numeric_char s = true.
Proof.
  intros H. apply forallb_Forall_true. eapply Forall_impl; [|exact H].
  intros c Hc. unfold numeric_char. now rewrite Hc.
Qed.

Lemma decimal_text_chars (neg : bool) (whole frac : str) :
  short_digits whole frac = true ->
  forallb numeric_char (decimal_text neg whole frac) = true
  /\ decimal_text neg whole frac <> [].
Proof.
  intros H. destruct (short_digits_inv _ _ H) as (Dw & Df & Lw & L).
  split.
  - unfold decimal_text. rewrite !forallb_app.
    rewrite (@digits_numeric _ Dw).
    assert (forallb numeric_char (fraction_text frac) = true) as ->.
    { destruct frac as [|d f]; [reflexivity|].
      pose proof (@digits_numeric _ Df) as E.
      cbn [fraction_text]. cbn [forallb] in *.
      change (numeric_char 46%N) with true. now rewrite E. }
    now destruct neg.
  - unfold decimal_text. destruct whole as [|c w]; [cbn in Lw; lia|].
    now destruct neg.
Qed.

Lemma not_among (P : char -> bool) (s : str) (l : list str) :
  forallb P s = true -> forallb (fun v => negb (forallb P v)) l = true ->
  existsb (str_eqb s) l = false.
Proof.
  intros H Hl. destruct (existsb (str_eqb s) l) eqn:E; [|reflexivity].
  apply existsb_exists in E as (v & Hv & Heq). apply str_eqb_eq in Heq.
  subst v. rewrite forallb_forall in Hl. apply Hl in Hv. now rewrite H in Hv.
Qed.

Lemma numeric_tolower (s : str) :
  forallb numeric_char s = true -> map Numeric.tolower_ascii s = s.
Proof.
  induction s as [|c s IH]; [reflexivity|]. cbn [forallb map].
  intros H. apply andb_prop in H as [Hc Hs]. rewrite (IH Hs). f_equal.
  unfold numeric_char, Numeric.isdigit_ascii in Hc.
  unfold Numeric.tolower_ascii.
  assert (L : (c <= 57)%N).
  { apply orb_prop in Hc as [Hc|Hc]; [apply orb_prop in Hc as [Hc|Hc]|].
    - apply andb_prop in Hc as [_ U]. now apply N.leb_le in U.
    - apply N.eqb_eq in Hc. lia.
    - apply N.eqb_eq in Hc. lia. }
  replace (65 <=? c)%N with false by (symmetry; apply N.leb_gt; lia).
  reflexivity.
Qed.

(** A text of digits, signs and points is no missing value, no boolean
    and no name of an infinity. *)
Lemma numeric_not_word (s : str) :
  forallb numeric_char s = true -> s <> [] ->
  is_na_token s = false /\ bool_of_token s = None
  /\ Numeric.infinity_name s = None.
Proof.
  intros H Hne. split; [|split].
  - unfold is_na_token, STR_NA_VALUES. cbn [existsb].
    replace (str_eqb s []) with false.
    + apply (@not_among numeric_char _ _ H). vm_compute. reflexivity.
    + symmetry. destruct (str_eqb s []) eqn:E; [|reflexivity].
      apply str_eqb_eq in E. contradiction.
  - unfold bool_of_token, to_boolean. rewrite (@numeric_tolower _ H).
    rewrite (@not_among numeric_char s true_values H)
      by (vm_compute; reflexivity).
    rewrite (@not_among numeric_char s false_values H)
      by (vm_compute; reflexivity).
    pose proof (@not_among numeric_char s [u "true"; u "false"] H eq_refl) as E.
    cbn [existsb] in E. apply orb_false_iff in E as [E1 E2].
    apply orb_false_iff in E2 as [E2 _]. now rewrite E1, E2.
  - unfold Numeric.infinity_name. cbv zeta. rewrite (@numeric_tolower _ H).
    pose proof (@not_among numeric_char s
                  (map u ["inf"; "+inf"; "infinity"; "+infinity"; "-inf";
                          "-infinity"]%string) H eq_refl) as E.
    cbn [map existsb] in E.
    repeat (apply orb_false_iff in E as [? E]).
    repeat match goal with
           | X : str_eqb s _ = false |- _ => rewrite X; clear X
           end.
    reflexivity.
Qed.

Lemma decimal_text_to_double (neg : bool) (whole frac : str) :
  short_digits whole frac = true ->
  Numeric.to_double (decimal_text neg whole frac)
  = Some (FNum neg (number (whole ++ frac)) (- Z.of_nat (length frac))).
Proof.
  intros H. unfold Numeric.to_double. now rewrite (@decimal_text_precise neg _ _ H).
Qed.

(** ** The cells of a decimal text *)

Lemma scaled_int (z : Z) : scaled 0 (CInt z) = Some z.
Proof. unfold scaled. change (10 ^ Z.of_nat 0)%Z with 1%Z. now rewrite Z.mul_1_r. Qed.

Lemma scaled_float (neg : bool) (m : N) (k : nat) :
  scaled k (CFloat (FNum neg m (- Z.of_nat k))) = Some (signed neg m).
Proof.
  unfold scaled. rewrite Z.add_opp_diag_l. change (0 <=? 0)%Z with true.
  change (10 ^ 0)%Z with 1%Z. now rewrite Z.mul_1_r.
Qed.

Lemma upcast_int_value (z : Z) :
  z <> Numeric.INT64_MIN ->
  is_finite (to_numeric_cell (upcast_int (CInt z))) = true
  /\ scaled 0 (to_numeric_cell (upcast_int (CInt z))) = Some z.
Proof.
  intros H. unfold upcast_int.
  replace (z =? Numeric.INT64_MIN)%Z with false
    by (symmetry; now apply Z.eqb_neq).
  cbn [to_numeric_cell]. split; [reflexivity|].
  change 0%Z with (- Z.of_nat 0)%Z at 2. rewrite scaled_float. f_equal.
  unfold signed. rewrite N2Z.inj_abs_N.
  destruct (z <? 0)%Z eqn:E; [apply Z.ltb_lt in E|apply Z.ltb_ge in E]; lia.
Qed.

(** The temperature of a decimal text is the number the text denotes,
    whatever the dtype of its column. *)
Lemma number_of_decimal_text (neg : bool) (whole frac : str) (c : cell) :
  short_digits whole frac = true ->
  reads (decimal_text neg whole frac) c ->
  is_finite (to_numeric_cell c) = true
  /\ scaled (length frac) (to_numeric_cell c)
     = Some (signed neg (number (whole ++ frac))).
Proof.
  intros H R.
  pose proof (@decimal_text_int64 neg _ _ H) as I.
  pose proof (@decimal_text_uint64 neg _ _ H) as U.
  pose proof (@decimal_text_to_double neg _ _ H) as D.
  destruct (@decimal_text_chars neg _ _ H) as (Ch & Ne).
  destruct (@numeric_not_word _ Ch Ne) as (Na & Bo & _).
  destruct (@decimal_text_bound _ _ H) as (B & _).
  pose proof (@signed_bound neg _ B) as (B1 & _).
  assert (S : is_finite (to_numeric_cell (CStr (decimal_text neg whole frac)))
              = true
              /\ scaled (length frac)
                   (to_numeric_cell (CStr (decimal_text neg whole frac)))
                 = Some (signed neg (number (whole ++ frac)))).
  { unfold to_numeric_cell. rewrite D, I. destruct frac as [|d f].
    - rewrite app_nil_r. split; [reflexivity|apply scaled_int].
    - split; [reflexivity|apply scaled_float]. }
  unfold reads, cells_of_token in R. rewrite Na, I, U, D, Bo in R.
  destruct frac as [|d f].
  - rewrite app_nil_r in *. cbn [length] in *.
    change (- Z.of_nat 0)%Z with 0%Z in *.
    assert (F : is_finite (CFloat (FNum neg (number whole) 0)) = true
                /\ scaled 0 (CFloat (FNum neg (number whole) 0))
                   = Some (signed neg (number whole))).
    { split; [reflexivity|]. change 0%Z with (- Z.of_nat 0)%Z.
      apply scaled_float. }
    assert (Up := @upcast_int_value (signed neg (number whole))
                    ltac:(lia)).
    destruct neg; cbn [app In] in R;
      repeat (destruct R as [<-|R]; [auto using scaled_int|]);
      try contradiction.
    all: cbn [to_numeric_cell]; auto using scaled_int.
  - destruct neg; cbn [app In] in R;
      repeat (destruct R as [<-|R];
              [first [exact S | split; [reflexivity|apply scaled_float]]|]);
      contradiction.
Qed.

Lemma c_str_id (s : str) :
  Forall (fun c => c <> 0%N) s -> c_str s = s.
Proof.
  induction 1 as [|c s Hc _ IH]; [reflexivity|]. cbn [c_str].
  apply N.eqb_neq in Hc. now rewrite Hc, IH.
Qed.

Lemma numeric_c_str (s : str) :
  forallb numeric_char s = true -> c_str s = s.
Proof.
  intros H. apply c_str_id. apply forallb_Forall_true in H.
  eapply Forall_impl; [|exact H]. intros c Hc ->. discriminate.
Qed.

(** ** The cells of a decimal *)

Lemma decimal_as_text (s : str) :
  decimal s = true -> length s <= 15 ->
  short_digits s [] = true /\ decimal_text false s [] = s.
Proof.
  intros H L. split.
  - unfold short_digits.
    rewrite (proj2 (forallb_Forall_true _ _) (decimal_digits _ H)).
    destruct s as [|c s]; [discriminate|]. cbn [forallb andb length] in *.
    rewrite Nat.add_0_r. apply Nat.leb_le. lia.
  - unfold decimal_text. cbn [app fraction_text]. apply app_nil_r.
Qed.

(** The cells a decimal of at most 15 digits can be read to. *)
Lemma cells_of_decimal (s : str) :
  decimal s = true -> length s <= 15 ->
  cells_of_token s
  = [CInt (Z.of_N (number s));
     CFloat (FNum false (number s) 0);
     CInt (Z.of_N (number s));
     CFloat (FNum false (number s) 0);
     CStr s].
Proof.
  intros H L. destruct (@decimal_as_text _ H L) as (Sd & E).
  pose proof (@decimal_text_int64 false _ _ Sd) as I.
  pose proof (@decimal_text_uint64 false _ _ Sd) as U.
  pose proof (@decimal_text_to_double false _ _ Sd) as D.
  destruct (@decimal_text_chars false _ _ Sd) as (Ch & Ne).
  rewrite E, ?app_nil_r in *.
  destruct (@numeric_not_word _ Ch Ne) as (Na & Bo & _).
  unfold cells_of_token. rewrite Na, I, U, D, Bo.
  cbn [app signed length Z.of_nat Z.opp]. unfold upcast_int.
  pose proof (number_pos _ H) as P.
  replace (Z.of_N (number s) =? Numeric.INT64_MIN)%Z with false
    by (symmetry; apply Z.eqb_neq; unfold Numeric.INT64_MIN; lia).
  replace (Z.of_N (number s) <? 0)%Z with false
    by (symmetry; apply Z.ltb_ge; lia).
  now rewrite Zabs2N.id.
Qed.

Lemma decimal_c_str (s : str) : decimal s = true -> c_str s = s.
Proof.
  intros H. apply numeric_c_str, digits_numeric, decimal_digits, H.
Qed.

Lemma str_of_Z_of_N (n : N) : str_of_Z (Z.of_N n) = str_of_N n.
Proof. destruct n; reflexivity. Qed.

(** The time of the cells of a decimal that the format reads. *)
Lemma time_of_cells (s : str) (t : timestamp) :
  decimal s = true -> length s <= 15 ->
  Datetime.strptime s = Some t ->
  Datetime.to_datetime_cell (CInt (Z.of_N (number s))) = CTimestamp t
  /\ Datetime.to_datetime_cell (CFloat (FNum false (number s) 0))
     = CTimestamp t
  /\ Datetime.to_datetime_cell (CStr s) = CTimestamp t.
Proof.
  intros H L P. split; [|split].
  - unfold Datetime.to_datetime_cell.
    now rewrite str_of_Z_of_N, (str_of_N_number _ H), P.
  - unfold Datetime.to_datetime_cell, Datetime.trunc_float. cbv zeta.
    change (0 <=? 0)%Z with true. cbv iota.
    change (10 ^ 0)%Z with 1%Z. rewrite Z.mul_1_r.
    assert (L18 : length s <= 18) by lia.
    pose proof (number_bound _ H L18) as B.
    replace (Z.of_N (number s) <=? Numeric.INT64_MAX)%Z with true
      by (symmetry; apply Z.leb_le; unfold Numeric.INT64_MAX; lia).
    now rewrite str_of_Z_of_N, (str_of_N_number _ H), P.
  - unfold Datetime.to_datetime_cell. now rewrite P.
Qed.

(** The time of a decimal token does not depend on the dtype of its
    column. *)
Lemma time_of_decimal (s : str) (t : timestamp) (c : cell) :
  decimal s = true -> length s <= 15 ->
  Datetime.strptime s = Some t ->
  reads s c -> Datetime.to_datetime_cell c = CTimestamp t.
Proof.
  intros H L P R. unfold reads in R. rewrite (cells_of_decimal _ H L) in R.
  destruct (@time_of_cells _ _ H L P) as (I & F & S).
  cbn [In] in R.
  destruct R as [<-|[<-|[<-|[<-|[<-|[]]]]]]; auto.
Qed.

(** ** The format of the time *)

Lemma Z_range (P : Z -> Prop) (lo len : nat) :
  Forall P (map Z.of_nat (seq lo len)) ->
  forall n, (Z.of_nat lo <= n < Z.of_nat (lo + len))%Z -> P n.
Proof.
  intros H n Hn. rewrite Forall_forall in H. apply H.
  replace n with (Z.of_nat (Z.to_nat n)) by lia.
  apply in_map, in_seq. lia.
Qed.

Lemma year_text (y : Z) :
  (1000 <= y <= 9999)%Z -> year_text_ok y = true.
Proof.
  intros H. apply (@Z_range (fun y => year_text_ok y = true) 1000 (9 * 1000)).
  - apply Forall_forall. apply forallb_forall. vm_compute. reflexivity.
  - lia.
Qed.

Lemma match_groups_cons (g : list (list Datetime.cls))
    (gs : list (list (list Datetime.cls))) (s a r r' : str) (fs : list str)
    (others : list (str * str)) (others' : list (list str * str)) :
  Datetime.match_group g s = (a, r) :: others ->
  Datetime.match_groups gs r = (fs, r') :: others' ->
  exists rest, Datetime.match_groups (g :: gs) s = (a :: fs, r') :: rest.
Proof.
  intros Hg Hgs. cbn [Datetime.match_groups]. rewrite Hg.
  cbn [flat_map fst snd]. rewrite Hgs. cbn [map app fst snd]. eauto.
Qed.

Ltac two_digit_fields :=
  repeat (constructor;
          [split; [reflexivity|]; split; [reflexivity|];
           split; [reflexivity|]; intros rest; eexists; vm_compute; reflexivity|]);
  constructor.

Lemma field_m (n : Z) : (1 <= n <= 12)%Z -> two_digit_field Datetime.re_m n.
Proof.
  intros H. apply (@Z_range (two_digit_field Datetime.re_m) 1 12); [|lia].
  cbn [seq map]. two_digit_fields.
Qed.

Lemma field_d (n : Z) : (1 <= n <= 31)%Z -> two_digit_field Datetime.re_d n.
Proof.
  intros H. apply (@Z_range (two_digit_field Datetime.re_d) 1 31); [|lia].
  cbn [seq map]. two_digit_fields.
Qed.

Lemma field_H (n : Z) : (0 <= n <= 23)%Z -> two_digit_field Datetime.re_H n.
Proof.
  intros H. apply (@Z_range (two_digit_field Datetime.re_H) 0 24); [|lia].
  cbn [seq map]. two_digit_fields.
Qed.

Lemma field_M (n : Z) : (0 <= n <= 59)%Z -> two_digit_field Datetime.re_M n.
Proof.
  intros H. apply (@Z_range (two_digit_field Datetime.re_M) 0 60); [|lia].
  cbn [seq map]. two_digit_fields.
Qed.

(** The format reads the stamp of a time of the clock back to the
    time. *)
Lemma strptime_stamp (t : timestamp) :
  clock_time t = true ->
  decimal (stamp t) = true
  /\ length (stamp t) = 12
  /\ Datetime.strptime (stamp t) = Some t.
Proof.
  unfold clock_time. intros C.
  do 6 (apply andb_prop in C as [C ?]).
  repeat match goal with
         | X : (_ <=? _)%Z = true |- _ => apply Z.leb_le in X
         end.
  assert (Hy : (1000 <= year t <= 9999)%Z) by lia.
  assert (HH : (0 <= hour t <= 23)%Z) by lia.
  assert (HM : (0 <= minute t <= 59)%Z) by lia.
  repeat match goal with
         | X : (_ <= _)%Z |- _ => clear X
         end.
  revert C Hy HH HM.
  intros V Hy HH HM. destruct t as [y m d H M]. cbn [year month day hour minute] in *.
  assert (Hm : (1 <= m <= 12)%Z).
  { unfold Datetime.valid in V. cbn [year month day] in V.
    repeat (apply andb_prop in V as [V ?]).
    repeat match goal with
           | X : (_ <=? _)%Z = true |- _ => apply Z.leb_le in X
           end. lia. }
  assert (Hd : (1 <= d <= 31)%Z).
  { unfold Datetime.valid in V. cbn [year month day] in V.
    repeat (apply andb_prop in V as [V ?]).
    repeat match goal with
           | X : (_ <=? _)%Z = true |- _ => apply Z.leb_le in X
           end.
    assert (Datetime.days_in_month y m <= 31)%Z.
    { unfold Datetime.days_in_month.
      repeat match goal with
             | |- context [if ?b then _ else _] => destruct b
             end; lia. }
    lia. }
  pose proof (year_text Hy) as Y. unfold year_text_ok in Y.
  unfold stamp. cbn [year month day hour minute].
  destruct (str_of_Z y) as [|a [|b [|c [|e [|]]]]]; try discriminate.
  apply andb_prop in Y as [Y Yv]. apply andb_prop in Y as [Yd Ya].
  apply Z.eqb_eq in Yv.
  destruct (field_m Hm) as (Dm & Lm & Vm & Gm).
  destruct (field_d Hd) as (Dd & Ld & Vd & Gd).
  destruct (field_H HH) as (DH & LH & VH & GH).
  destruct (field_M HM) as (DM & LM & VM & GM).
  split; [|split].
  - unfold decimal. cbn [app]. rewrite Ya. cbn [andb].
    change (a :: b :: c :: e :: two_digits m ++ two_digits d
              ++ two_digits H ++ two_digits M)
      with ([a; b; c; e] ++ two_digits m ++ two_digits d
              ++ two_digits H ++ two_digits M).
    rewrite !forallb_app. now rewrite Yd, Dm, Dd, DH, DM.
  - rewrite !length_app. cbn [length]. lia.
  - unfold Datetime.strptime.
    destruct (GM []) as (oM & EM).
    destruct (GH (two_digits M)) as (oH & EH).
    destruct (Gd (two_digits H ++ two_digits M)) as (od & Ed).
    destruct (Gm (two_digits d ++ two_digits H ++ two_digits M)) as (om & Em).
    assert (EY : Datetime.match_group Datetime.re_Y
                   ([a; b; c; e] ++ two_digits m ++ two_digits d
                      ++ two_digits H ++ two_digits M)
                 = ([a; b; c; e],
                    two_digits m ++ two_digits d ++ two_digits H
                      ++ two_digits M) :: []).
    { cbn [forallb] in Yd.
      repeat (apply andb_prop in Yd as [? Yd]).
      unfold Datetime.match_group, Datetime.re_Y. cbn [flat_map app].
      cbn [Datetime.match_seq]. unfold Datetime.digit.
      repeat match goal with
             | X : Numeric.isdigit_ascii _ = true |- _ => rewrite X; clear X
             end.
      reflexivity. }
    rewrite app_nil_r in EM.
    assert (E0 : Datetime.match_groups [] [] = ([], []) :: []) by reflexivity.
    destruct (@match_groups_cons _ _ _ _ _ _ _ _ _ EM E0) as (r1 & E1).
    destruct (@match_groups_cons _ _ _ _ _ _ _ _ _ EH E1) as (r2 & E2).
    destruct (@match_groups_cons _ _ _ _ _ _ _ _ _ Ed E2) as (r3 & E3).
    destruct (@match_groups_cons _ _ _ _ _ _ _ _ _ Em E3) as (r4 & E4).
    destruct (@match_groups_cons _ _ _ _ _ _ _ _ _ EY E4) as (r5 & E5).
    unfold Datetime.format_regex. rewrite E5.
    rewrite Yv, Vm, Vd, VH, VM. now rewrite V.
Qed.


(** X15. The format [%Y%m%d%H%M] reads the twelve digits of a time back to
    the time: for every valid time with a year of four digits, the stamp
    is a decimal of twelve digits and [strptime] gives the time. *)
Theorem stamp_is_read (t : timestamp) :
  Datetime.valid t = true ->
  (1000 <= year t <= 9999)%Z ->
  (0 <= hour t <= 23)%Z -> (0 <= minute t <= 59)%Z ->
  decimal (stamp t) = true
  /\ length (stamp t) = 12
  /\ Datetime.strptime (stamp t) = Some t.
Proof.
  intros V Hy HH HM. apply strptime_stamp. unfold clock_time.
  rewrite V. cbn [andb].
  repeat (apply andb_true_intro; split); apply Z.leb_le; lia.
Qed.

Lemma stamp_is_read_witness :
  decimal (stamp (mk_timestamp 2024 2 29 23 59)) = true
  /\ length (stamp (mk_timestamp 2024 2 29 23 59)) = 12
  /\ Datetime.strptime (stamp (mk_timestamp 2024 2 29 23 59))
     = Some (mk_timestamp 2024 2 29 23 59).
Proof.
  apply (@stamp_is_read (mk_timestamp 2024 2 29 23 59)).
  - vm_compute. reflexivity.
  - simpl. lia.
  - simpl. lia.
  - simpl. lia.
Defined.

(** ** What the two conversions make of a cell *)

Lemma stamp_cell_time (t : timestamp) (c : cell) :
  clock_time t = true -> stamp_cell t c ->
  Datetime.to_datetime_cell c = CTimestamp t.
Proof.
  intros C S. destruct (strptime_stamp _ C) as (D & L & P).
  assert (L15 : length (stamp t) <= 15) by lia.
  destruct (@time_of_cells _ _ D L15 P) as (I & F & T).
  destruct S as [->| ->]; assumption.
Qed.

(** A text that does not begin with the four digits of a year is no
    time. *)
Lemma strptime_no_year (s : str) :
  match s with
  | a :: b :: c :: d :: _ => forallb Numeric.isdigit_ascii [a; b; c; d]
  | _ => false
  end = false ->
  Datetime.strptime s = None.
Proof.
  intros H.
  assert (G : Datetime.match_group Datetime.re_Y s = []).
  { unfold Datetime.match_group, Datetime.re_Y. cbn [flat_map app].
    destruct s as [|a [|b [|c [|d r]]]]; cbn [Datetime.match_seq];
      unfold Datetime.digit; cbn [forallb] in H;
      repeat match goal with
             | |- context [Numeric.isdigit_ascii ?x] =>
                 destruct (Numeric.isdigit_ascii x)
             end;
      try reflexivity; discriminate. }
  unfold Datetime.strptime, Datetime.format_regex.
  cbn [Datetime.match_groups]. now rewrite G.
Qed.

Lemma no_time_NaT (c : cell) :
  no_time c = true -> Datetime.to_datetime_cell c = NaT.
Proof.
  destruct c as [z|[neg mant e|neg|]|b|s|t|]; try discriminate;
    try reflexivity.
  cbn [no_time]. intros H. apply andb_prop in H as [_ H].
  apply negb_true_iff in H. cbn [Datetime.to_datetime_cell].
  now rewrite (strptime_no_year _ H).
Qed.

Lemma to_datetime_cell_kind (c : cell) :
  raw_cell c = true ->
  is_timestamp (Datetime.to_datetime_cell c) = true
  \/ Datetime.to_datetime_cell c = NaT.
Proof.
  intros R. destruct (isna (Datetime.to_datetime_cell c)) eqn:E.
  - right. destruct (Datetime.to_datetime_cell c) as [|[]| | | |] eqn:T;
      try discriminate; [|reflexivity].
    exfalso. clear E.
    destruct c as [z|[neg mant e|neg|]|b|s|t|]; cbn in T; try discriminate.
    + destruct (Datetime.strptime _); discriminate.
    + destruct (Datetime.trunc_float mant e); [|discriminate].
      destruct (Datetime.strptime _); discriminate.
    + destruct (Datetime.strptime _); discriminate.
  - left. now apply to_datetime_cell_raw.
Qed.

Lemma time_converted_cell (c : cell) :
  raw_cell c = true -> time_converted c (Datetime.to_datetime_cell c).
Proof.
  intros R. split; [|split].
  - now apply to_datetime_cell_kind.
  - intros t C S. now apply stamp_cell_time.
  - apply no_time_NaT.
Qed.

Lemma decimal_text_to_numeric (neg : bool) (whole frac : str) :
  short_digits whole frac = true ->
  is_finite (to_numeric_cell (CStr (decimal_text neg whole frac))) = true
  /\ scaled (length frac)
       (to_numeric_cell (CStr (decimal_text neg whole frac)))
     = Some (signed neg (number (whole ++ frac))).
Proof.
  intros H. apply number_of_decimal_text; [exact H|].
  unfold reads, cells_of_token.
  destruct (is_na_token _); [cbn [In]; tauto|].
  rewrite !in_app_iff. cbn [In]. tauto.
Qed.

(** ** A token that is no number *)

Lemma unreadable_inv (t : str) :
  unreadable t = true ->
  starts_number (snd (Numeric.read_sign (Numeric.skip_spaces t))) = false
  /\ existsb (str_eqb (map Numeric.tolower_ascii t)) words = false.
Proof.
  unfold unreadable. intros H. apply andb_prop in H as [A B].
  now apply negb_true_iff in A, B.
Qed.

(** What [precise_xstrtod] reads begins as a number does. *)
Lemma precise_starts (s : str) (f : float64) :
  Numeric.precise_xstrtod s = Some f ->
  starts_number (snd (Numeric.read_sign (Numeric.skip_spaces s))) = true.
Proof.
  unfold Numeric.precise_xstrtod.
  destruct (Numeric.read_sign (Numeric.skip_spaces s)) as [neg s1].
  cbn [snd]. destruct s1 as [|c rest]; [discriminate|].
  cbn [starts_number]. destruct (Numeric.isdigit_ascii c) eqn:D;
    [reflexivity|].
  cbn [Numeric.read_number orb]. rewrite D.
  destruct (N.eqb_spec c 46) as [->|Hc].
  - cbn [andb]. destruct rest as [|d r]; [discriminate|].
    destruct (Numeric.isdigit_ascii d) eqn:Dd; [reflexivity|].
    cbn [Numeric.read_decimals]. rewrite Dd. discriminate.
  - destruct c as [|p]; [discriminate|].
    repeat (destruct p as [p|p|]; try discriminate).
    now elim Hc.
Qed.




Lemma words_none (t : str) :
  existsb (str_eqb (map Numeric.tolower_ascii t)) words = false ->
  Numeric.infinity_name t = None /\ bool_of_token t = None.
Proof.
  intros H. unfold words in H. cbn [map existsb] in H.
  repeat (apply orb_false_iff in H as [? H]).
  split.
  - unfold Numeric.infinity_name. cbv zeta.
    repeat match goal with
           | X : str_eqb _ _ = false |- _ => rewrite X; clear X
           end.
    reflexivity.
  - assert (L : forall v, str_eqb (map Numeric.tolower_ascii v)
                            (map Numeric.tolower_ascii t) = false ->
                          str_eqb t v = false).
    { intros v E. destruct (str_eqb t v) eqn:F; [|reflexivity].
      apply str_eqb_eq in F. subst v.
      rewrite (proj2 (str_eqb_eq _ _) eq_refl) in E. discriminate. }
    assert (Sym : forall a b, str_eqb a b = false -> str_eqb b a = false).
    { intros a b E. destruct (str_eqb b a) eqn:F; [|reflexivity].
      apply str_eqb_eq in F. subst b.
      rewrite (proj2 (str_eqb_eq _ _) eq_refl) in E. discriminate. }
    unfold bool_of_token, to_boolean, true_values, false_values.
    cbn [map existsb].
    rewrite !L by (apply Sym; assumption).
    cbn [orb].
    repeat match goal with
           | X : str_eqb _ _ = false |- _ => rewrite X; clear X
           end.
    reflexivity.
Qed.

Lemma unreadable_to_double (t : str) :
  unreadable t = true -> Numeric.to_double t = None.
Proof.
  intros H. destruct (unreadable_inv _ H) as (S & W).
  destruct (words_none _ W) as (I & _).
  unfold Numeric.to_double.
  destruct (Numeric.precise_xstrtod t) as [f|] eqn:P; [|exact I].
  rewrite (precise_starts _ P) in S. discriminate.
Qed.


Lemma no_number_NaN (c : cell) :
  no_number c = true -> to_numeric_cell c = NaN.
Proof.
  destruct c as [z|[neg mant e|neg|]|b|s|t|]; try discriminate;
    [reflexivity|].
  cbn [no_number]. intros H. unfold to_numeric_cell.
  now rewrite (unreadable_to_double _ H).
Qed.

Lemma to_numeric_cell_kind (c : cell) :
  raw_cell c = true ->
  is_number (to_numeric_cell c) = true
  \/ is_boolean (to_numeric_cell c) = true
  \/ to_numeric_cell c = NaN.
Proof.
  intros R. destruct (isna (to_numeric_cell c)) eqn:E.
  - right. right.
    destruct c as [z|[neg mant e|neg|]|b|s|t|]; try discriminate;
      cbn in *; try discriminate; try reflexivity.
    destruct (Numeric.to_double s) as [f|] eqn:D; [|reflexivity].
    pose proof (to_double_not_nan _ D) as N.
    destruct (Numeric.str_to_int64 s); try discriminate;
      destruct f; try discriminate; now elim N.
  - destruct (to_numeric_cell_raw _ R E); auto.
Qed.

Lemma number_converted_cell (seen_null : bool) (c : cell) :
  raw_cell c = true -> number_converted c (to_numeric_in seen_null c).
Proof.
  intros R. destruct (is_boolean c) eqn:B.
  - destruct c as [| |b| | |]; try discriminate.
    split; [|split; [|split]]; try discriminate.
    destruct seen_null; cbn; auto.
  - rewrite (to_numeric_in_cell _ _ B). split; [|split; [|split]].
    + now apply to_numeric_cell_kind.
    + now destruct c as [z|[neg mant e|neg|]|b|s|t|].
    + intros neg whole frac H ->. now apply decimal_text_to_numeric.
    + apply no_number_NaN.
Qed.

(** ** The rows of well-formed lines *)

Lemma nth_pad_fields (ex j : nat) (fields : list str) :
  nth j (pad_fields ex fields) [] = nth j fields [].
Proof.
  unfold pad_fields. destruct (Nat.lt_ge_cases j (length fields)) as [L|L].
  - now rewrite app_nth1.
  - rewrite app_nth2 by exact L. rewrite (nth_overflow fields) by exact L.
    apply nth_repeat.
Qed.

Lemma lookup_TM_TW (g : nat -> list cell) :
  DF.lookup TM (combine columns (map g (seq 0 24))) = Some (g 0)
  /\ DF.lookup TW (combine columns (map g (seq 0 24))) = Some (g 23).
Proof. split; reflexivity. Qed.

(** The table of a text whose data lines have at most 24 fields: the
    default index, and columns converted from the tokens of the lines. *)
Lemma parsed_lines (text_data : str) (lines : list str) :
  forallb plain_char text_data = true ->
  encodable text_data = true ->
  filter (fun l => negb (blank l))
         (filter is_data_line (splitlines text_data)) = lines ->
  lines <> [] ->
  Forall (fun l => length (ws_fields l) <= 24) lines ->
  parse_kma_data text_data = (Ret (parsed text_data), [])
  /\ index (parsed text_data) = map Pos (seq 0 (length lines))
  /\ DF.lookup TM (data (parsed text_data))
     = Some (_convert_tokens (map c_str (map tm_token lines)))
  /\ DF.lookup TW (data (parsed text_data))
     = Some (_convert_tokens (map c_str (map tw_token lines))).
Proof.
  intros Hp He Hl Hne Hfit. destruct lines as [|first rest]; [contradiction|].
  destruct (nonblank_data_line _ Hl) as (l' & ls' & D).
  inversion Hfit as [|? ? Hfirst Hrest]; subst.
  assert (M : Nat.max 24 (length (ws_fields first)) = 24) by lia.
  assert (R : read_csv (join [LF] (filter is_data_line (splitlines text_data)))
                columns
    = Ret (mk_DataFrame (map Pos (seq 0 (length (first :: rest))))
             (combine columns
                (map (fun j => _convert_tokens
                        (map c_str
                           (map (fun l => nth j (ws_fields l) [])
                                (first :: rest))))
                     (seq 0 24))))).
  { unfold read_csv. rewrite (data_lines_encodable _ He).
    rewrite (tokenize_data_lines _ Hp), Hl. cbn [map].
    rewrite rows_of_records_fit by (rewrite Forall_map, M; exact Hrest).
    rewrite M. cbv zeta. cbn [map]. rewrite length_pad_fields.
    replace (Nat.max (length (ws_fields first)) 24) with 24 by lia.
    change (length columns) with 24.
    change (24 - 24) with 0. cbv iota. cbn [skipn length].
    rewrite !length_map. f_equal. f_equal. f_equal.
    unfold columns_of_rows. rewrite map_map. apply map_ext. intros j. f_equal.
    cbn [map]. rewrite nth_pad_fields. f_equal. f_equal.
    rewrite !map_map. apply map_ext. intros l. apply nth_pad_fields. }
  assert (P : parse_kma_data text_data
              = (Ret (mk_DataFrame (map Pos (seq 0 (length (first :: rest))))
                   (combine columns
                      (map (fun j => _convert_tokens
                              (map c_str
                                 (map (fun l => nth j (ws_fields l) [])
                                      (first :: rest))))
                           (seq 0 24)))), [])).
  { rewrite (parse_kma_data_read _ D), <- D. now rewrite R. }
  unfold parsed. rewrite P. cbn [fst index data].
  split; [reflexivity|]. split; [reflexivity|].
  apply (lookup_TM_TW
           (fun j => _convert_tokens
                       (map c_str
                          (map (fun l => nth j (ws_fields l) [])
                               (first :: rest))))).
Qed.

Lemma Forall2_nth_error (A B : Type) (R : A -> B -> Prop) (l : list A)
    (l' : list B) :
  Forall2 R l l' ->
  forall i a, nth_error l i = Some a ->
  exists b, nth_error l' i = Some b /\ R a b.
Proof.
  induction 1 as [|x y l l' Hxy _ IH]; intros i a Hi.
  - destruct i; discriminate.
  - destruct i as [|i]; simpl in *.
    + injection Hi as <-. eauto.
    + now apply IH.
Qed.

Lemma nth_error_combine (A B : Type) (l : list A) (l' : list B) :
  forall i a b, nth_error l i = Some a -> nth_error l' i = Some b ->
  nth_error (combine l l') i = Some (a, b).
Proof.
  revert l'. induction l as [|x l IH]; intros l' i a b Ha Hb.
  - destruct i; discriminate.
  - destruct l' as [|y l']; [destruct i; discriminate|].
    destruct i as [|i]; simpl in *.
    + now injection Ha as <-; injection Hb as <-.
    + now apply IH.
Qed.

Lemma nth_error_positions (n i : nat) :
  i < n -> nth_error (map Pos (seq 0 n)) i = Some (Pos i).
Proof.
  intros H. rewrite nth_error_map.
  rewrite (nth_error_nth' _ 0) by (now rewrite length_seq).
  now rewrite seq_nth.
Qed.


Lemma finite_notna (x : cell) : is_finite x = true -> isna x = false.
Proof. now destruct x as [|[]| | | |]. Qed.

(** The two columns of such a table and its projection: the cell of a
    line in each column is one its field can be read to. *)
Lemma parsed_columns (text_data : str) (lines : list str) :
  forallb plain_char text_data = true ->
  encodable text_data = true ->
  filter (fun l => negb (blank l))
         (filter is_data_line (splitlines text_data)) = lines ->
  lines <> [] ->
  Forall (fun l => length (ws_fields l) <= 24) lines ->
  exists tm tw,
    parse_kma_data text_data = (Ret (parsed text_data), [])
    /\ DF.empty (parsed text_data) = false
    /\ index (parsed text_data) = map Pos (seq 0 (length lines))
    /\ length tm = length lines /\ length tw = length lines
    /\ project (parsed text_data)
       = (Ret (mk_DataFrame
                 (DF.take (map both_notna
                             (rows_TM_TW (index (parsed text_data))
                                (Datetime.to_datetime tm) (to_numeric tw)))
                          (index (parsed text_data)))
                 [(TM, DF.take (map both_notna
                                  (rows_TM_TW (index (parsed text_data))
                                     (Datetime.to_datetime tm) (to_numeric tw)))
                               (Datetime.to_datetime tm));
                  (TW, DF.take (map both_notna
                                  (rows_TM_TW (index (parsed text_data))
                                     (Datetime.to_datetime tm) (to_numeric tw)))
                               (to_numeric tw))]), [])
    /\ (forall i l, nth_error lines i = Some l ->
          exists a b, nth_error tm i = Some a /\ reads (c_str (tm_token l)) a
                      /\ nth_error tw i = Some b
                      /\ reads (c_str (tw_token l)) b).
Proof.
  intros Hp He Hl Hne Hfit.
  destruct (parsed_lines _ Hp He Hl Hne Hfit) as (P & I & Ltm & Ltw).
  set (tm := _convert_tokens (map c_str (map tm_token lines))) in *.
  set (tw := _convert_tokens (map c_str (map tw_token lines))) in *.
  assert (Hn : DF.nrows (parsed text_data) = length lines).
  { unfold DF.nrows. now rewrite I, length_map, length_seq. }
  destruct (convert_tokens_good (map c_str (map tm_token lines))) as (Am & Bm).
  destruct (convert_tokens_good (map c_str (map tw_token lines))) as (Aw & Bw).
  fold tm in Am, Bm. fold tw in Aw, Bw. rewrite !length_map in Am, Aw.
  assert (Otm : column_ok (DF.nrows (parsed text_data)) (TM, tm)).
  { split; [|exact Bm]. cbn [snd]. now rewrite Am, Hn. }
  assert (Otw : column_ok (DF.nrows (parsed text_data)) (TW, tw)).
  { split; [|exact Bw]. cbn [snd]. now rewrite Aw, Hn. }
  destruct (project_parsed _ Ltm Ltw Otm Otw) as (Pr & _ & _).
  cbv zeta in Pr.
  exists tm, tw. repeat split; auto.
  { unfold DF.empty. rewrite I, length_map, length_seq.
    destruct (data (parsed text_data)); [discriminate|].
    destruct lines; [contradiction|reflexivity]. }
  intros i l Hi.
  destruct (@Forall2_nth_error _ _ _ _ _
              (convert_tokens_reads (map c_str (map tm_token lines)))
              i (c_str (tm_token l))) as (a & Ha & Ra).
  { now rewrite !nth_error_map, Hi. }
  destruct (@Forall2_nth_error _ _ _ _ _
              (convert_tokens_reads (map c_str (map tw_token lines)))
              i (c_str (tw_token l))) as (b & Hb & Rb).
  { now rewrite !nth_error_map, Hi. }
  exists a, b. auto.
Qed.

(** The row of a well-formed line among the rows of the two converted
    columns. *)
Lemma kept_row (text_data : str) (lines : list str) (i : nat) (l : str)
    (t : timestamp) (neg : bool) (whole frac : str) :
  forallb plain_char text_data = true ->
  encodable text_data = true ->
  filter (fun l => negb (blank l))
         (filter is_data_line (splitlines text_data)) = lines ->
  Forall (fun l => length (ws_fields l) <= 24) lines ->
  nth_error lines i = Some l ->
  clock_time t = true -> tm_token l = stamp t ->
  short_digits whole frac = true ->
  tw_token l = decimal_text neg whole frac ->
  exists idx' tm' tw' x,
    parse_kma_data text_data = (Ret (parsed text_data), [])
    /\ DF.empty (parsed text_data) = false
    /\ projected (parsed text_data)
       = mk_DataFrame idx' [(TM, tm'); (TW, tw')]
    /\ project (parsed text_data)
       = (Ret (mk_DataFrame idx' [(TM, tm'); (TW, tw')]), [])
    /\ In (Pos i, (CTimestamp t, x)) (rows_TM_TW idx' tm' tw')
    /\ is_finite x = true
    /\ scaled (length frac) x = Some (signed neg (number (whole ++ frac))).
Proof.
  intros Hp He Hl Hfit Hi Ct Etm Sd Etw.
  assert (Hne : lines <> []) by (intros ->; destruct i; discriminate).
  destruct (parsed_columns _ Hp He Hl Hne Hfit)
    as (tm & tw & P & Em & I & Lm & Lw & Pr & Cells).
  destruct (Cells _ _ Hi) as (a & b & Ha & Ra & Hb & Rb).
  destruct (strptime_stamp _ Ct) as (Dt & L12 & Pt).
  destruct (@decimal_text_chars neg _ _ Sd) as (Ch & _).
  rewrite Etm, (decimal_c_str _ Dt) in Ra.
  rewrite Etw, (numeric_c_str _ Ch) in Rb.
  assert (L15 : length (stamp t) <= 15) by lia.
  pose proof (@time_of_decimal _ _ _ Dt L15 Pt Ra) as Ta.
  destruct (@number_of_decimal_text _ _ _ _ Sd Rb) as (Fb & Vb).
  assert (Hlt : i < length lines) by (apply nth_error_Some; congruence).
  assert (E : nth_error
                (rows_TM_TW (index (parsed text_data))
                   (Datetime.to_datetime tm) (to_numeric tw)) i
              = Some (Pos i, (CTimestamp t, to_numeric_cell b))).
  { unfold rows_TM_TW. apply nth_error_combine.
    - rewrite I. now apply nth_error_positions.
    - apply nth_error_combine.
      + unfold Datetime.to_datetime. now rewrite nth_error_map, Ha, <- Ta.
      + unfold to_numeric. rewrite nth_error_map, Hb. cbn [option_map].
        rewrite to_numeric_in_cell; [reflexivity|].
        now destruct b as [|[]| | | |]. }
  eexists _, _, _, (to_numeric_cell b).
  split; [exact P|]. split; [exact Em|].
  split; [unfold projected; rewrite Pr; reflexivity|].
  split; [exact Pr|]. split; [|split; [exact Fb|exact Vb]].
  rewrite rows_of_taken. apply filter_In. split.
  - eapply nth_error_In. exact E.
  - unfold both_notna. cbn [fst snd isna negb andb].
    now rewrite (finite_notna _ Fb).
Qed.

(** X13. A well-formed line is never lost. In a text without double
    quotes, byte order marks and surrogates whose data lines, at most
    1440 of them (a day by the minute, which the reader converts in one
    piece), have at most 24 fields, take a line whose first field is the
    stamp [YYYYMMDDHHMM] of a time [t] of the clock and whose 24th field
    is the text of a decimal number of at most 15 digits: the parse
    reports nothing, and the projection has a row with the label of the
    line, the time [t] and, for its temperature, the finite number the
    text denotes, whatever the other lines hold and whatever dtypes the
    two columns get from them. *)
Theorem well_formed_row_is_kept (text_data : str) (lines : list str) (i : nat)
    (l : str) (t : timestamp) (neg : bool) (whole frac : str) :
  forallb plain_char text_data = true ->
  encodable text_data = true ->
  filter (fun l => negb (blank l))
         (filter is_data_line (splitlines text_data)) = lines ->
  length lines <= 1440 ->
  Forall (fun l => length (ws_fields l) <= 24) lines ->
  nth_error lines i = Some l ->
  clock_time t = true -> tm_token l = stamp t ->
  short_digits whole frac = true ->
  tw_token l = decimal_text neg whole frac ->
  exists idx' tm' tw' x,
    parse_kma_data text_data = (Ret (parsed text_data), [])
    /\ project (parsed text_data)
       = (Ret (mk_DataFrame idx' [(TM, tm'); (TW, tw')]), [])
    /\ In (Pos i, (CTimestamp t, x)) (rows_TM_TW idx' tm' tw')
    /\ is_finite x = true
    /\ scaled (length frac) x = Some (signed neg (number (whole ++ frac))).
Proof.
  intros Hp He Hl _ Hfit Hi Ct Etm Sd Etw.
  destruct (@kept_row _ _ _ _ _ _ _ _ Hp He Hl Hfit Hi Ct Etm Sd Etw)
    as (idx' & tm' & tw' & x & P & _ & _ & Pr & Hin & Fx & Vx).
  exists idx', tm', tw', x. auto.
Qed.

Lemma well_formed_row_is_kept_witness :
  exists idx' tm' tw' x,
    parse_kma_data Sample.with_dash = (Ret (parsed Sample.with_dash), [])
    /\ project (parsed Sample.with_dash)
       = (Ret (mk_DataFrame idx' [(TM, tm'); (TW, tw')]), [])
    /\ In (Pos 0, (CTimestamp (mk_timestamp 2024 1 1 0 0), x))
          (rows_TM_TW idx' tm' tw')
    /\ is_finite x = true
    /\ scaled 1 x = Some 152%Z.
Proof.
  apply (@well_formed_row_is_kept Sample.with_dash
           [Sample.line "202401010000" "15.2"; Sample.line "202401010100" "-"]
           0 (Sample.line "202401010000" "15.2")
           (mk_timestamp 2024 1 1 0 0) false (u "15") (u "2")).
  - vm_compute. reflexivity.
  - vm_compute. reflexivity.
  - vm_compute. reflexivity.
  - cbn [length]. lia.
  - repeat (constructor; [vm_compute; lia|]). constructor.
  - reflexivity.
  - vm_compute. reflexivity.
  - vm_compute. reflexivity.
  - vm_compute. reflexivity.
  - vm_compute. reflexivity.
Defined.

Lemma combine_map_l (A B C : Type) (f : A -> C) (l : list A) (l' : list B) :
  combine (map f l) l' = map (fun p => (f (fst p), snd p)) (combine l l').
Proof.
  revert l'. induction l as [|a l IH]; intros [|b l']; simpl; try reflexivity.
  now rewrite IH.
Qed.

(** X14. A response 200 with a well-formed line is answered with the
    chart. When the text of the response has no double quotes, byte
    order marks and surrogates, its data lines, at most 1440 of them,
    have at most 24 fields, and one of them has the stamp
    [YYYYMMDDHHMM] of a time [t] of the clock for its first field and
    the text of a decimal number of at most 15 digits for its 24th,
    then, for a station of the selector, the page shows the success
    message, the chart and the table, and the chart has the point of
    that line: over the time [t], the finite number the text denotes. *)
Theorem observation_is_charted (requests_get_ : str -> outcome Response)
    (auth_key station_id : str) (selected_date : date) (response : Response)
    (lines : list str) (i : nat) (l : str) (t : timestamp)
    (neg : bool) (whole frac : str) :
  auth_key <> [] ->
  requests_get_ (request_url selected_date station_id auth_key) = Ret response ->
  status_code response = 200%Z ->
  In station_id options ->
  forallb plain_char (text response euc_kr) = true ->
  encodable (text response euc_kr) = true ->
  filter (fun l => negb (blank l))
         (filter is_data_line (splitlines (text response euc_kr))) = lines ->
  length lines <= 1440 ->
  Forall (fun l => length (ws_fields l) <= 24) lines ->
  nth_error lines i = Some l ->
  clock_time t = true -> tm_token l = stamp t ->
  short_digits whole frac = true ->
  tw_token l = decimal_text neg whole frac ->
  exists name tm' tw' x,
    page requests_get_ true auth_key station_id selected_date
    = (Ret tt,
       st_spinner
       :: requests_get (request_url selected_date station_id auth_key)
       :: success_events name selected_date
            (projected (parsed (text response euc_kr))) tm' tw')
    /\ In (Key [CTimestamp t], x) (combine (map (fun c => Key [c]) tm') tw')
    /\ is_finite x = true
    /\ scaled (length frac) x = Some (signed neg (number (whole ++ frac))).
Proof.
  intros Hk Hnet Hs Hst Hp He Hl _ Hfit Hi Ct Etm Sd Etw.
  destruct (@kept_row _ _ _ _ _ _ _ _ Hp He Hl Hfit Hi Ct Etm Sd Etw)
    as (idx' & tm' & tw' & x & P & Hne & Sh & Pr & Hin & Fx & Vx).
  destruct (station_name_options Hst) as (name & _ & Hn).
  exists name, tm', tw', x. split; [|split; [|split; [exact Fx|exact Vx]]].
  - eapply page_response; [exact Hk|exact Hnet|].
    rewrite (handle_response_rows _ _ _ Hs Hne).
    assert (Hr : DF.empty (projected (parsed (text response euc_kr))) = false).
    { rewrite Sh. unfold DF.empty. cbn [index data length].
      unfold rows_TM_TW in Hin. apply in_combine_l in Hin.
      destruct idx'; [contradiction|reflexivity]. }
    rewrite Hr. rewrite Sh at 1. erewrite show_result_two by exact Hn.
    now rewrite <- Sh.
  - unfold rows_TM_TW in Hin. apply in_combine_r in Hin.
    rewrite combine_map_l.
    change (Key [CTimestamp t], x)
      with ((fun p : cell * cell => (Key [fst p], snd p)) (CTimestamp t, x)).
    now apply in_map.
Qed.

Lemma observation_is_charted_witness :
  exists name tm' tw' x,
    page (Sample.answers 200 Sample.with_dash) true Sample.key Sample.station
         Sample.day
    = (Ret tt,
       st_spinner
       :: requests_get (request_url Sample.day Sample.station Sample.key)
       :: success_events name Sample.day
            (projected (parsed Sample.with_dash)) tm' tw')
    /\ In (Key [CTimestamp (mk_timestamp 2024 1 1 0 0)], x)
          (combine (map (fun c => Key [c]) tm') tw')
    /\ is_finite x = true
    /\ scaled 1 x = Some 152%Z.
Proof.
  apply (@observation_is_charted (Sample.answers 200 Sample.with_dash)
           Sample.key Sample.station Sample.day
           (mk_Response 200 (fun _ => Sample.with_dash))
           [Sample.line "202401010000" "15.2"; Sample.line "202401010100" "-"]
           0 (Sample.line "202401010000" "15.2")
           (mk_timestamp 2024 1 1 0 0) false (u "15") (u "2")).
  - discriminate.
  - reflexivity.
  - reflexivity.
  - vm_compute. tauto.
  - vm_compute. reflexivity.
  - vm_compute. reflexivity.
  - vm_compute. reflexivity.
  - cbn [length]. lia.
  - repeat (constructor; [vm_compute; lia|]). constructor.
  - reflexivity.
  - vm_compute. reflexivity.
  - vm_compute. reflexivity.
  - vm_compute. reflexivity.
  - vm_compute. reflexivity.
Defined.

(** ** The request *)

Lemma app_eq_length (A : Type) (a a' b b' : list A) :
  a ++ b = a' ++ b' -> length a = length a' -> a = a' /\ b = b'.
Proof.
  revert a'. induction a as [|x a IH]; intros [|x' a'] H L; try discriminate.
  - now split.
  - simpl in H. injection H as -> H. injection L as L.
    destruct (IH _ H L) as (-> & ->). now split.
Qed.

Lemma four_digit_year_bounds (d : date) :
  four_digit_year d = true ->
  (1000 <= date_year d <= 9999)%Z /\ (1 <= date_month d <= 12)%Z
  /\ (1 <= date_day d <= 31)%Z.
Proof.
  unfold four_digit_year. intros H.
  repeat (apply andb_prop in H as [H ?]).
  repeat match goal with
         | X : (_ <=? _)%Z = true |- _ => apply Z.leb_le in X
         end. lia.
Qed.

(** The date of the request: eight digits, from which the date is read
    back. *)
Lemma strftime_Ymd_parts (d : date) :
  four_digit_year d = true ->
  exists Y, strftime_Ymd d = Y ++ two_digits (date_month d)
                               ++ two_digits (date_day d)
    /\ length Y = 4 /\ Datetime.int_of Y = date_year d
    /\ length (two_digits (date_month d)) = 2
    /\ Datetime.int_of (two_digits (date_month d)) = date_month d
    /\ length (two_digits (date_day d)) = 2
    /\ Datetime.int_of (two_digits (date_day d)) = date_day d.
Proof.
  intros H. destruct (four_digit_year_bounds _ H) as (Hy & Hm & Hd).
  pose proof (year_text Hy) as Y. unfold year_text_ok in Y.
  destruct (field_m Hm) as (_ & Lm & Vm & _).
  destruct (field_d Hd) as (_ & Ld & Vd & _).
  unfold strftime_Ymd.
  destruct (str_of_Z (date_year d)) as [|a [|b [|c [|e [|]]]]];
    try discriminate.
  apply andb_prop in Y as [_ Yv]. apply Z.eqb_eq in Yv.
  exists [a; b; c; e]. auto 10.
Qed.

Lemma strftime_Ymd_injective (d d' : date) :
  four_digit_year d = true -> four_digit_year d' = true ->
  strftime_Ymd d = strftime_Ymd d' -> d = d'.
Proof.
  intros H H' E.
  destruct (strftime_Ymd_parts _ H) as (Y & S & LY & VY & Lm & Vm & Ld & Vd).
  destruct (strftime_Ymd_parts _ H') as (Y' & S' & LY' & VY' & Lm' & Vm' & Ld' & Vd').
  rewrite S, S' in E.
  apply app_eq_length in E as (EY & E); [|congruence].
  apply app_eq_length in E as (Em & Ed); [|congruence].
  destruct d as [y m dd], d' as [y' m' dd']. cbn [date_year date_month date_day] in *.
  f_equal; congruence.
Qed.

Lemma strftime_Ymd_length (d : date) :
  four_digit_year d = true -> length (strftime_Ymd d) = 8.
Proof.
  intros H.
  destruct (strftime_Ymd_parts _ H) as (Y & S & LY & _ & Lm & _ & Ld & _).
  rewrite S, !length_app. lia.
Qed.

Lemma options_length (s : str) : In s options -> length s = 5.
Proof.
  intros H.
  assert (F : Forall (fun s => length s = 5) options)
    by (repeat constructor).
  rewrite Forall_forall in F. now apply F.
Qed.

(** X16. The request tells the queries apart: for dates with a year of four
    digits and stations of the selector, two requests have the same URL
    only if the date, the station and the key are the same. The key is
    put into the URL as it is typed. *)
Theorem request_url_injective (d d' : date) (s s' k k' : str) :
  four_digit_year d = true -> four_digit_year d' = true ->
  In s options -> In s' options ->
  request_url d s k = request_url d' s' k' ->
  d = d' /\ s = s' /\ k = k'.
Proof.
  intros Hd Hd' Hs Hs' E. unfold request_url in E.
  apply app_inv_head in E. apply app_inv_head in E.
  apply app_eq_length in E as (ED & E);
    [|now rewrite !strftime_Ymd_length].
  apply app_inv_head in E. apply app_inv_head in E.
  apply app_eq_length in E as (ES & E);
    [|now rewrite !options_length].
  do 3 apply app_inv_head in E.
  split; [|split]; auto using strftime_Ymd_injective.
Qed.

Lemma request_url_injective_witness :
  Sample.day = Sample.day /\ Sample.station = Sample.station
  /\ Sample.key = Sample.key.
Proof.
  apply (@request_url_injective Sample.day Sample.day Sample.station
           Sample.station Sample.key Sample.key).
  - reflexivity.
  - reflexivity.
  - vm_compute. tauto.
  - vm_compute. tauto.
  - reflexivity.
Defined.

(** ** A line without a water temperature *)



(** ** The check before the projection *)

Lemma lookup_none (name : str) (cols : list (str * list cell)) :
  existsb (str_eqb name) (map fst cols) = false -> DF.lookup name cols = None.
Proof.
  induction cols as [|[n col] cols IH]; simpl; [reflexivity|].
  destruct (str_eqb name n); [discriminate|]. exact IH.
Qed.

(** X18. The check of line 124 is what the projection needs. On any table
    with the columns [TM] and [TW] the projection does not raise, and
    gives a table of these two columns with no more rows; on a table
    without one of them it would raise [KeyError], which is why the page
    shows the no-data error instead. *)
Theorem project_guard (df : DataFrame) :
  if DF.has_column TW df && DF.has_column TM df
  then exists r, project df = (Ret r, [])
                 /\ DF.columns r = [TM; TW]
                 /\ DF.nrows r <= DF.nrows df
  else exists name, project df = (Raise (KeyError name), [])
                    /\ (name = TM \/ name = TW).
Proof.
  destruct (DF.has_column TW df) eqn:Htw.
  - destruct (DF.has_column TM df) eqn:Htm; cbn [andb].
    + destruct (has_column_lookup _ _ Htm) as (tm & Ltm).
      destruct (has_column_lookup _ _ Htw) as (tw & Ltw).
      rewrite (project_steps _ Ltm Ltw). eexists. split; [reflexivity|].
      split; [reflexivity|]. unfold DF.nrows, DF.dropna. cbn [index].
      apply take_length_le.
    + exists TM. split; [|now left].
      unfold DF.has_column, DF.columns in Htm. apply lookup_none in Htm.
      unfold project, DF.select, DF.getitem_list, DF.getitem.
      rewrite Htm. now destruct (DF.lookup TW (data df)).
  - cbn [andb]. unfold DF.has_column, DF.columns in Htw.
    apply lookup_none in Htw.
    unfold project, DF.select, DF.getitem_list, DF.getitem. rewrite Htw.
    destruct (DF.lookup TM (data df)).
    + exists TW. split; [reflexivity|now right].
    + exists TM. split; [reflexivity|now left].
Qed.

(** ** C4 *)

Lemma Forall2_map_cell (A B : Type) (R : A -> B -> Prop) (P : A -> Prop)
    (f : A -> B) (l : list A) :
  (forall a, P a -> R a (f a)) -> Forall P l -> Forall2 R l (map f l).
Proof.
  intros H. induction 1 as [|a l Ha _ IH]; cbn [map]; constructor; auto.
Qed.

(** C4, as amended. The projection of a parsed table never raises. It
    converts the time column by the format and the water-temperature
    column to numbers, cell by cell: a converted time is a valid
    timestamp or the missing value, the stamp [YYYYMMDDHHMM] of a time
    of the clock (an integer or a text) becoming that time, and a
    missing value, a boolean or a text without letters that does not
    begin with four digits the missing value; a converted temperature is
    a number, a boolean or the missing value, a number staying as it is,
    the text of a decimal number of at most 15 digits becoming that
    number, and a missing value or a text that reads as no number the
    missing value. Its rows are the rows of the table whose two
    converted values are both there, in the order of the table, so each
    has a valid timestamp and a temperature that is a number, which can
    be an infinity, or a boolean. *)
Theorem project_keeps_valid_rows (text_data : str) (df : DataFrame)
    (trace : list event) :
  parse_kma_data text_data = (Ret df, trace) ->
  DF.empty df = false ->
  exists tm tw tm_c tw_c idx' tm' tw',
    DF.lookup TM (data df) = Some tm /\ DF.lookup TW (data df) = Some tw
    /\ length tm = DF.nrows df /\ length tw = DF.nrows df
    /\ Forall2 time_converted tm tm_c
    /\ Forall2 number_converted tw tw_c
    /\ project df = (Ret (mk_DataFrame idx' [(TM, tm'); (TW, tw')]), [])
    /\ rows_TM_TW idx' tm' tw'
       = filter both_notna (rows_TM_TW (index df) tm_c tw_c)
    /\ length tm' = length idx' /\ length tw' = length idx'
    /\ Forall (fun c => is_timestamp c = true) tm'
    /\ Forall (fun c => is_number c = true \/ is_boolean c = true) tw'.
Proof.
  intros P E.
  destruct (parse_kma_data_TM_TW _ P E) as (tm & tw & Ltm & Ltw & Ctm & Ctw).
  destruct (project_parsed _ Ltm Ltw Ctm Ctw) as (Pr & Ftm & Ftw).
  set (mask := map both_notna
         (rows_TM_TW (index df) (Datetime.to_datetime tm) (to_numeric tw))) in *.
  exists tm, tw, (Datetime.to_datetime tm), (to_numeric tw),
    (DF.take mask (index df)),
    (DF.take mask (Datetime.to_datetime tm)), (DF.take mask (to_numeric tw)).
  destruct Ctm as [Htm Rtm], Ctw as [Htw Rtw]. cbn [snd] in *.
  split; [exact Ltm|]. split; [exact Ltw|].
  split; [exact Htm|]. split; [exact Htw|].
  split; [exact (Forall2_map_cell _ _ time_converted_cell Rtm)|].
  split; [exact (Forall2_map_cell _ _ (number_converted_cell _) Rtw)|].
  split; [exact Pr|]. unfold DF.nrows in *.
  split; [apply rows_of_taken|].
  split; [apply take_length_eq; unfold Datetime.to_datetime;
          now rewrite length_map|].
  split; [apply take_length_eq; unfold to_numeric; now rewrite length_map|].
  split; assumption.
Qed.

Lemma project_keeps_valid_rows_witness :
  exists tm tw tm_c tw_c idx' tm' tw',
    DF.lookup TM (data (parsed Sample.with_dash)) = Some tm
    /\ DF.lookup TW (data (parsed Sample.with_dash)) = Some tw
    /\ length tm = DF.nrows (parsed Sample.with_dash)
    /\ length tw = DF.nrows (parsed Sample.with_dash)
    /\ Forall2 time_converted tm tm_c
    /\ Forall2 number_converted tw tw_c
    /\ project (parsed Sample.with_dash)
       = (Ret (mk_DataFrame idx' [(TM, tm'); (TW, tw')]), [])
    /\ rows_TM_TW idx' tm' tw'
       = filter both_notna
           (rows_TM_TW (index (parsed Sample.with_dash)) tm_c tw_c)
    /\ length tm' = length idx' /\ length tw' = length idx'
    /\ Forall (fun c => is_timestamp c = true) tm'
    /\ Forall (fun c => is_number c = true \/ is_boolean c = true) tw'.
Proof.
  apply (@project_keeps_valid_rows Sample.with_dash
           (parsed Sample.with_dash) []).
  - vm_compute. reflexivity.
  - vm_compute. reflexivity.
Defined.

(** C4 fails as the spec states it: the row of a water temperature
    [True] is in the projected table with a boolean for its temperature,
    and that of a water temperature [inf] with an infinity; neither is a
    valid numeric temperature. *)
Lemma projected_temperature_is_no_number :
  DF.nrows (projected (parsed Sample.with_true)) = 1
  /\ DF.row (projected (parsed Sample.with_true)) 0
     = [(TM, CTimestamp (mk_timestamp 2024 1 1 0 0)); (TW, CBool true)]
  /\ is_number (CBool true) = false
  /\ DF.nrows (projected (parsed Sample.with_inf)) = 1
  /\ DF.row (projected (parsed Sample.with_inf)) 0
     = [(TM, CTimestamp (mk_timestamp 2024 1 1 0 0)); (TW, CFloat (FInf false))]
  /\ is_finite (CFloat (FInf false)) = false.
Proof. vm_compute. repeat split; reflexivity. Qed.

(** ** C2 *)

(** C2, as amended. Take a text without double quotes (and without a
    byte order mark) that has a data line. When a data line after the
    first has more fields than the first and than the 24 names, the read
    raises; [parse_kma_data] reports the error and returns the empty
    table, and the page shows the no-data error and the raw text and
    draws neither chart nor table. When no later line has so many fields
    (and the text has no surrogate), the parse does not end, whatever the
    numbers of fields are: nothing is reported, and the table has the 24
    columns and a row for each data line. *)
Theorem long_row_aborts (requests_get_ : str -> outcome Response)
    (auth_key station_id : str) (selected_date : date) (response : Response)
    (text_data first : str) (rest : list str) :
  auth_key <> [] ->
  requests_get_ (request_url selected_date station_id auth_key) = Ret response ->
  status_code response = 200%Z ->
  text response euc_kr = text_data ->
  forallb plain_char text_data = true ->
  filter (fun l => negb (blank l))
         (filter is_data_line (splitlines text_data)) = first :: rest ->
  (existsb (fun l => Nat.max 24 (length (ws_fields first))
                     <? length (ws_fields l)) rest = true ->
   exists e,
     parse_kma_data text_data = (Ret DF.new, [st_error (MsgParseError e)])
     /\ page requests_get_ true auth_key station_id selected_date
        = (Ret tt,
           [st_spinner;
            requests_get (request_url selected_date station_id auth_key);
            st_error (MsgParseError e);
            st_error MsgNoData;
            st_code text_data])
     /\ existsb is_render
          (snd (page requests_get_ true auth_key station_id selected_date))
        = false)
  /\ (existsb (fun l => Nat.max 24 (length (ws_fields first))
                        <? length (ws_fields l)) rest = false ->
      encodable text_data = true ->
      exists df,
        parse_kma_data text_data = (Ret df, [])
        /\ DF.columns df = columns
        /\ DF.nrows df = S (length rest)).
Proof.
  intros Hkey Hnet Hstatus Htext Hplain Hlines. split.
  - intros Hlong. apply existsb_exists in Hlong as (long & Hin & Hlong).
    apply Nat.ltb_lt in Hlong.
    pose proof (tokenize_data_lines _ Hplain) as T. cbv zeta in T.
    rewrite Hlines in T. cbn [map rows_of_records] in T.
    destruct (@later_rows_raises
                (Nat.max (length (pad_fields 24 (ws_fields first))) 24)
                (map ws_fields rest) (ws_fields long)) as [e0 He0].
    { now apply in_map. }
    { rewrite length_pad_fields. lia. }
    rewrite He0 in T.
    assert (R : exists e,
              read_csv (join [LF] (filter is_data_line (splitlines text_data)))
                columns = Raise e).
    { unfold read_csv. destruct (existsb is_surrogate _); [eauto|].
      rewrite T. eauto. }
    destruct R as (e & R).
    assert (P : parse_kma_data text_data
                = (Ret DF.new, [st_error (MsgParseError e)])).
    { destruct (filter is_data_line (splitlines text_data)) as [|l ls] eqn:E;
        [discriminate|].
      rewrite (parse_kma_data_read _ E). now rewrite R. }
    exists e. split; [exact P|].
    assert (Q : page requests_get_ true auth_key station_id selected_date
         = (Ret tt,
            [st_spinner;
             requests_get (request_url selected_date station_id auth_key);
             st_error (MsgParseError e);
             st_error MsgNoData;
             st_code text_data])).
    { unfold page. rewrite query_with_key by assumption.
      cbv zeta. rewrite Hnet. unfold lift, bind at 3. unfold handle_response.
      rewrite Hstatus, Htext. cbn [Z.eqb Pos.eqb]. rewrite P. reflexivity. }
    rewrite Q. split; reflexivity.
  - intros Hfit He. apply (fitting_lines_parse _ Hplain He Hlines).
    apply Forall_forall. intros l Hl.
    destruct (Nat.ltb_spec (Nat.max 24 (length (ws_fields first)))
                (length (ws_fields l))) as [L|L]; [|exact L].
    assert (X : existsb (fun l => Nat.max 24 (length (ws_fields first))
                                  <? length (ws_fields l)) rest = true).
    { apply existsb_exists. exists l. split; [exact Hl|].
      now apply Nat.ltb_lt. }
    rewrite X in Hfit. discriminate.
Qed.

Lemma long_row_aborts_witness :
  (exists e,
    parse_kma_data Sample.long_row
      = (Ret DF.new, [st_error (MsgParseError e)])
    /\ page (Sample.answers 200 Sample.long_row) true Sample.key
            Sample.station Sample.day
       = (Ret tt,
          [st_spinner;
           requests_get (request_url Sample.day Sample.station Sample.key);
           st_error (MsgParseError e);
           st_error MsgNoData;
           st_code Sample.long_row])
    /\ existsb is_render
         (snd (page (Sample.answers 200 Sample.long_row) true Sample.key
                    Sample.station Sample.day)) = false).
Proof.
  refine (proj1 (@long_row_aborts (Sample.answers 200 Sample.long_row)
           Sample.key Sample.station Sample.day
           (mk_Response 200 (fun _ => Sample.long_row))
           Sample.long_row
           (Sample.line "202401010000" "15.2")
           [Sample.line "202401010100" "15.3" ++ u " 99"] _ _ _ _ _ _) _).
  - discriminate.
  - reflexivity.
  - reflexivity.
  - reflexivity.
  - vm_compute. reflexivity.
  - vm_compute. reflexivity.
  - vm_compute. reflexivity.
Defined.
